(** * Campus chatbot backend: intent detection, conversation context,
      session store, FAQ ranking and the message pipeline

    A shallow embedding of
      - [backend/app/utils/constants.py]   (module [Constants]),
      - [backend/app/core/intent.py]       (module [Intent]),
      - [backend/app/core/context.py]      (modules [Context], [Store]),
      - [backend/app/utils/helpers.py] and
        [backend/app/services/faq_service.py] (module [FAQ]),
      - [backend/app/core/chatbot.py]      (module [Chatbot]),
      - the remaining methods of [context.py], the admin clean-up of
        [backend/app/api/routes/admin.py], [paginate] and
        [calculate_confidence_score] of [helpers.py], [_map_language] of
        [backend/app/core/translation.py] and [validate_language] of
        [backend/app/utils/validators.py] (modules [ContextQueries],
        [Manager], [Helpers], [Translation], [Validators]),
    followed by their properties (modules [IntentFacts], [ContextFacts],
    [StoreFacts], [FAQFacts], [ChatbotFacts], then [IntentProps],
    [ContextProps], [StoreProps], [ManagerProps], [FAQProps],
    [HelpersProps], [TranslationProps], [ChatbotProps],
    [ValidatorsProps]).

    Conventions.
      - A Python [str] is the [string] of its UTF-8 bytes.  Substring
        tests on valid UTF-8 agree with substring tests on code points.
      - A Python [float] is a binary64 number: Rocq's primitive [float],
        with the same correctly rounded operations.
      - A Python [dict] whose order matters is the list of its items in
        insertion order; sets of strings are [gset string].
      - Python builtins whose result depends on the Unicode character
        database ([str.lower], [str.capitalize], [str.split], the regular
        expression classes) are section variables; [ascii_lower] and its
        companions are their instances on ASCII text and are used to run
        examples.
      - [datetime.utcnow()] is an input: a method receives each of its
        clock readings, in microseconds, as an argument, and the
        orchestrator takes them from the world it runs in.
      - A call that may raise returns a [result]; a stateful call also
        returns the state it leaves, raised or not.
      - A stored FAQ is a JSON object: a key may be missing and a value
        may be any JSON value, so the type errors of the search are part
        of the model; an [int] is converted to [float] as Python does,
        to the nearest number or with an [OverflowError]. *)

From Stdlib Require Import ZArith List String Ascii Bool Lia PrimFloat Uint63.
From Stdlib Require Import Floats Sorted Permutation.
From stdpp Require Import base gmap strings.
#[local] Set Warnings "-inexact-float,-register-all".
Import ListNotations.
Local Open Scope string_scope.
Local Open Scope Z_scope.

(** ** Python values shared by the modules *)

Module Py.

(** [needle in haystack] on strings. *)
Fixpoint str_contains (needle haystack : string) : bool :=
  String.prefix needle haystack ||
  match haystack with
  | EmptyString => false
  | String _ rest => str_contains needle rest
  end.

(** Conversion of a (small, non-negative) Python [int] to [float]; exact
    below 2^53, which covers every length and table entry used here. *)
Definition float_of_nat (n : nat) : float :=
  PrimFloat.of_uint63 (Uint63.of_Z (Z.of_nat n)).

(** Conversion of any Python [int] to [float]: the nearest binary64
    number, ties to even.  Python raises [OverflowError] exactly when that
    number is beyond the float range, which is where this value is
    infinite; a caller that can meet such an [int] tests for it. *)
Definition float_of_Z (z : Z) : float :=
  SF2Prim (binary_normalize prec emax z 0 false).

(** Python's two-argument [min(a, b)]: [b] when [b < a], else [a]. *)
Definition fmin (a b : float) : float :=
  if PrimFloat.ltb b a then b else a.

(** [max(a, b)] on ints. *)
Definition nat_max (a b : nat) : nat := Nat.max a b.

(** [l[start:]] and [l[:stop]], negative indices counting from the end. *)
Definition slice_from {A : Type} (start : Z) (l : list A) : list A :=
  let n := Z.of_nat (length l) in
  let i := if start <? 0 then Z.max (n + start) 0 else Z.min start n in
  skipn (Z.to_nat i) l.

Definition slice_to {A : Type} (stop : Z) (l : list A) : list A :=
  let n := Z.of_nat (length l) in
  let i := if stop <? 0 then Z.max (n + stop) 0 else Z.min stop n in
  firstn (Z.to_nat i) l.

(** [d.get(key, default)] and [d.get(key)] on a dictionary with string
    keys, kept in insertion order. *)
Fixpoint dict_get {V : Type} (d : list (string * V)) (key : string) (default : V) : V :=
  match d with
  | [] => default
  | (k, v) :: rest => if String.eqb k key then v else dict_get rest key default
  end.

Fixpoint dict_find {V : Type} (d : list (string * V)) (key : string) : option V :=
  match d with
  | [] => None
  | (k, v) :: rest => if String.eqb k key then Some v else dict_find rest key
  end.

(** The line feed. *)
Definition NL : string := String (ascii_of_nat 10) EmptyString.

(** The outcome of a call that may raise; an exception is an instance of
    Python's [Exception], named by its class. *)
Inductive result (A : Type) : Type :=
  | Ok (value : A)
  | Raised (exception : string).
Arguments Ok {A} value.
Arguments Raised {A} exception.

(** [str.lower] on ASCII letters; other bytes are kept. *)
Definition ascii_lower_char (c : ascii) : ascii :=
  let n := nat_of_ascii c in
  if (Nat.leb 65 n && Nat.leb n 90)%bool then ascii_of_nat (n + 32) else c.

Fixpoint ascii_lower (s : string) : string :=
  match s with
  | EmptyString => EmptyString
  | String c rest => String (ascii_lower_char c) (ascii_lower rest)
  end.

(** [str.capitalize] on ASCII text. *)
Definition ascii_upper_char (c : ascii) : ascii :=
  let n := nat_of_ascii c in
  if (Nat.leb 97 n && Nat.leb n 122)%bool then ascii_of_nat (n - 32) else c.

Definition ascii_capitalize (s : string) : string :=
  match s with
  | EmptyString => EmptyString
  | String c rest => String (ascii_upper_char c) (ascii_lower rest)
  end.

(** [len(s)]: the number of code points, that is, of bytes that are not
    UTF-8 continuation bytes. *)
Definition is_continuation (c : ascii) : bool :=
  let n := nat_of_ascii c in (Nat.leb 128 n && Nat.ltb n 192)%bool.

Fixpoint str_len (s : string) : nat :=
  match s with
  | EmptyString => 0%nat
  | String c rest => if is_continuation c then str_len rest else S (str_len rest)
  end.

(** ASCII instances of the regular expression classes [\s] and [\w], of
    [re.sub(r'[^\w\s]', '', s)] and of [s.split()]; bytes of multi-byte
    characters are kept as word characters. *)
Definition ascii_is_space (c : ascii) : bool :=
  let n := nat_of_ascii c in
  ((Nat.leb 9 n && Nat.leb n 13) || (Nat.leb 28 n && Nat.leb n 32))%bool.

Definition ascii_is_word (c : ascii) : bool :=
  let n := nat_of_ascii c in
  ((Nat.leb 48 n && Nat.leb n 57) || (Nat.leb 65 n && Nat.leb n 90)
   || (Nat.leb 97 n && Nat.leb n 122) || Nat.eqb n 95 || Nat.leb 128 n)%bool.

Fixpoint ascii_strip_punctuation (s : string) : string :=
  match s with
  | EmptyString => EmptyString
  | String c rest =>
      if (ascii_is_word c || ascii_is_space c)%bool
      then String c (ascii_strip_punctuation rest)
      else ascii_strip_punctuation rest
  end.

Fixpoint ascii_split_from (current : string) (s : string) : list string :=
  match s with
  | EmptyString =>
      match current with EmptyString => [] | _ => [current] end
  | String c rest =>
      if ascii_is_space c then
        match current with
        | EmptyString => ascii_split_from EmptyString rest
        | _ => current :: ascii_split_from EmptyString rest
        end
      else ascii_split_from (current ++ String c EmptyString) rest
  end.

Definition ascii_split (s : string) : list string := ascii_split_from EmptyString s.

(** A JSON value as [json.load] hands it over: [None], a [bool], an
    [int], a [float], a [str], a [list] or a [dict] with string keys. *)
Inductive json : Type :=
  | JNull
  | JBool (b : bool)
  | JInt (z : Z)
  | JFloat (f : float)
  | JStr (s : string)
  | JList (items : list json)
  | JDict (entries : list (string * json)).

(** [type(v).__name__] *)
Definition type_name (v : json) : string :=
  match v with
  | JNull => "NoneType"
  | JBool _ => "bool"
  | JInt _ => "int"
  | JFloat _ => "float"
  | JStr _ => "str"
  | JList _ => "list"
  | JDict _ => "dict"
  end.

(** The characters of a string, as a [for] loop over it yields them: a
    character is a byte that is no continuation byte together with the
    continuation bytes that follow it. *)
Fixpoint chars_from (s : string) : string * list string :=
  match s with
  | EmptyString => (EmptyString, [])
  | String c rest =>
      let '(pending, done) := chars_from rest in
      if is_continuation c then (String c pending, done)
      else (EmptyString, String c pending :: done)
  end.

Definition chars (s : string) : list string :=
  match chars_from s with
  | (EmptyString, done) => done
  | (pending, done) => pending :: done
  end.

End Py.

(** ** [app/utils/constants.py]: INTENT_KEYWORDS *)

Module Constants.

Definition greeting_keywords : list string :=
  ["hello"; "hi"; "hey"; "namaste"; "good morning"; "good afternoon";
   "good evening"; "howdy"; "greetings"; "नमस्ते"; "नमस्कार"].

Definition INTENT_KEYWORDS : list (string * list string) :=
  [ ("greeting", greeting_keywords);
    ("fee_query",
      ["fee"; "fees"; "payment"; "amount"; "cost"; "tuition"; "charges";
       "price"; "pay"; "money"; "शुल्क"; "फीस"; "पैसे"]);
    ("admission",
      ["admission"; "apply"; "application"; "eligibility"; "seat"; "enroll";
       "enrollment"; "join"; "entry"; "प्रवेश"; "दाखिला"]);
    ("scholarship",
      ["scholarship"; "financial aid"; "grant"; "stipend"; "merit";
       "concession"; "discount"; "waiver"; "छात्रवृत्ति"; "स्कॉलरशिप"]);
    ("timetable",
      ["timetable"; "schedule"; "class timing"; "lecture"; "period";
       "timing"; "when"; "time"; "समय"; "समय सारणी"]);
    ("exam",
      ["exam"; "examination"; "test"; "marks"; "result"; "grade";
       "score"; "passing"; "fail"; "परीक्षा"; "रिजल्ट"]);
    ("document",
      ["document"; "certificate"; "transcript"; "bonafide"; "letter";
       "attestation"; "verification"; "दस्तावेज़"; "प्रमाणपत्र"]);
    ("contact",
      ["contact"; "phone"; "email"; "address"; "office"; "location";
       "where"; "reach"; "संपर्क"; "पता"]);
    ("hostel",
      ["hostel"; "accommodation"; "room"; "mess"; "stay"; "living";
       "dormitory"; "हॉस्टल"; "छात्रावास"]);
    ("library",
      ["library"; "book"; "borrow"; "return"; "reading"; "पुस्तकालय"; "किताब"]);
    ("goodbye",
      ["bye"; "goodbye"; "see you"; "thank you"; "thanks"; "धन्यवाद";
       "अलविदा"; "good bye"]) ].

(** An entry of [LANGUAGES]. *)
Record LanguageInfo := {
  lang_name : string;
  lang_native_name : string;
  lang_flag : string;
  lang_greeting : string;
  lang_fallback : string;
  lang_error : string;
  lang_human_handoff : string
}.

Definition LANGUAGES : list (string * LanguageInfo) :=
  [ ("en",
      {| lang_name := "English";
         lang_native_name := "English";
         lang_flag := "🇬🇧";
         lang_greeting := "Hello! How can I help you today?";
         lang_fallback := "I'm sorry, I couldn't understand that. Could you please rephrase?";
         lang_error := "Something went wrong. Please try again.";
         lang_human_handoff := "Let me connect you with a human agent for better assistance." |});
    ("hi",
      {| lang_name := "Hindi";
         lang_native_name := "हिंदी";
         lang_flag := "🇮🇳";
         lang_greeting := "नमस्ते! आज मैं आपकी कैसे मदद कर सकता हूं?";
         lang_fallback := "मुझे खेद है, मैं यह समझ नहीं पाया। कृपया दोबारा कहें।";
         lang_error := "कुछ गलत हो गया। कृपया पुनः प्रयास करें।";
         lang_human_handoff := "बेहतर सहायता के लिए मैं आपको एक मानव एजेंट से जोड़ता हूं।" |});
    ("ta",
      {| lang_name := "Tamil";
         lang_native_name := "தமிழ்";
         lang_flag := "🇮🇳";
         lang_greeting := "வணக்கம்! இன்று நான் உங்களுக்கு எப்படி உதவ முடியும்?";
         lang_fallback := "மன்னிக்கவும், என்னால் புரிந்துகொள்ள முடியவில்லை. தயவுசெய்து மீண்டும் கூறுங்கள்.";
         lang_error := "ஏதோ தவறு ஏற்பட்டது. மீண்டும் முயற்சிக்கவும்.";
         lang_human_handoff := "சிறந்த உதவிக்கு நான் உங்களை ஒரு நிபுணரிடம் இணைக்கிறேன்." |});
    ("te",
      {| lang_name := "Telugu";
         lang_native_name := "తెలుగు";
         lang_flag := "🇮🇳";
         lang_greeting := "నమస్కారం! ఈరోజు నేను మీకు ఎలా సహాయం చేయగలను?";
         lang_fallback := "క్షమించండి, నేను అర్థం చేసుకోలేకపోయాను. దయచేసి మళ్ళీ చెప్పండి.";
         lang_error := "ఏదో తప్పు జరిగింది. దయచేసి మళ్ళీ ప్రయత్నించండి.";
         lang_human_handoff := "మెరుగైన సహాయం కోసం నేను మిమ్మల్ని ఒక నిపుణుడితో అనుసంధానం చేస్తాను." |});
    ("bn",
      {| lang_name := "Bengali";
         lang_native_name := "বাংলা";
         lang_flag := "🇮🇳";
         lang_greeting := "নমস্কার! আজ আমি আপনাকে কীভাবে সাহায্য করতে পারি?";
         lang_fallback := "দুঃখিত, আমি বুঝতে পারলাম না। অনুগ্রহ করে আবার বলুন।";
         lang_error := "কিছু ভুল হয়েছে। অনুগ্রহ করে আবার চেষ্টা করুন।";
         lang_human_handoff := "আরও ভালো সাহায্যের জন্য আমি আপনাকে একজন বিশেষজ্ঞের সাথে সংযুক্ত করছি।" |});
    ("mr",
      {| lang_name := "Marathi";
         lang_native_name := "मराठी";
         lang_flag := "🇮🇳";
         lang_greeting := "नमस्कार! आज मी तुम्हाला कशी मदत करू शकतो?";
         lang_fallback := "क्षमा करा, मला समजले नाही. कृपया पुन्हा सांगा.";
         lang_error := "काहीतरी चूक झाली. कृपया पुन्हा प्रयत्न करा.";
         lang_human_handoff := "अधिक चांगल्या मदतीसाठी मी तुम्हाला तज्ञाशी जोडतो." |}) ].

(** The entry [default] of [SYSTEM_PROMPTS]. *)
Definition SYSTEM_PROMPT_default : string :=
  "You are a helpful campus assistant chatbot for a college/university. 
Your job is to answer student queries about admissions, fees, scholarships, timetables, 
exams, documents, and other campus-related topics.

Guidelines:
1. Be friendly, concise, and helpful
2. If you're not sure about something, say so clearly
3. Provide accurate information based on the context given
4. If the question is outside your knowledge, suggest contacting the relevant office
5. Keep responses under 200 words unless more detail is needed
6. Use bullet points for lists when appropriate".

Definition SUGGESTED_QUESTIONS : list (string * list string) :=
  [ ("admission",
      ["What are the eligibility criteria?";
       "What documents are required?";
       "What is the application deadline?"]);
    ("fees",
      ["What is the semester fee?";
       "What payment methods are accepted?";
       "Is there any late fee penalty?"]);
    ("scholarship",
      ["Who is eligible for scholarship?";
       "How to apply for scholarship?";
       "What is the scholarship amount?"]);
    ("exam",
      ["When are the exams scheduled?";
       "What is the passing criteria?";
       "How can I check my results?"]);
    ("general",
      ["What are the admission requirements?";
       "What is the fee structure?";
       "Are there any scholarships available?"]) ].

End Constants.

(** ** [app/core/intent.py]: IntentDetector *)

Module Intent.
Import Py Constants.

(** The dictionary returned by [detect_intent]; ["all_matches"] is only
    present on the last return. *)
Record IntentResult := {
  intent : string;
  confidence : float;
  matched_keywords : list string;
  all_matches : option (list (string * list string))
}.

(** [self.intent_priority] *)
Definition intent_priority : list (string * Z) :=
  [ ("greeting", 1); ("goodbye", 1); ("fee_query", 2); ("admission", 2);
    ("scholarship", 2); ("timetable", 2); ("exam", 2); ("document", 2);
    ("contact", 2); ("hostel", 2); ("library", 2) ].

(** [max(d, key=d.get)]: the first key whose value no later value exceeds. *)
Fixpoint max_from (best : string) (best_val : float) (d : list (string * float)) : string :=
  match d with
  | [] => best
  | (k, v) :: rest =>
      if PrimFloat.ltb best_val v then max_from k v rest else max_from best best_val rest
  end.

Definition max_key (d : list (string * float)) : option string :=
  match d with
  | [] => None
  | (k, v) :: rest => Some (max_from k v rest)
  end.

(** [human_required_keywords] of [needs_human_fallback]. *)
Definition human_required_keywords : list string :=
  ["speak to someone"; "talk to human"; "real person";
   "manager"; "supervisor"; "complaint"; "urgent";
   "emergency"; "help me please"; "not working"].

Section Detector.

(** [str.lower] *)
Variable lower : string -> string.

(** The inner loop: the keywords of one intent found in the text. *)
Definition find_matches (keywords : list string) (text_lower : string) : list string :=
  List.filter (fun keyword => str_contains (lower keyword) text_lower) keywords.

(** [len(matches) * (1 / priority)] *)
Definition score_of (intent_name : string) (matches : list string) : float :=
  let priority := dict_get intent_priority intent_name 2 in
  PrimFloat.mul (float_of_nat (length matches))
                (PrimFloat.div (float_of_Z 1) (float_of_Z priority)).

(** The outer loop fills [intent_scores] and [matched_keywords], both keyed
    by intent in table order; an intent with no match gets no entry. *)
Fixpoint scan (table : list (string * list string)) (text_lower : string)
  : list (string * float) * list (string * list string) :=
  match table with
  | [] => ([], [])
  | (name, keywords) :: rest =>
      let matches := find_matches keywords text_lower in
      let '(scores, matched) := scan rest text_lower in
      match matches with
      | [] => (scores, matched)
      | _ :: _ => ((name, score_of name matches) :: scores, (name, matches) :: matched)
      end
  end.

Definition detect_intent (text : string) : IntentResult :=
  if String.eqb text "" then
    {| intent := "general"; confidence := 0%float;
       matched_keywords := []; all_matches := None |}
  else
    let text_lower := lower text in
    let '(intent_scores, matched) := scan INTENT_KEYWORDS text_lower in
    match max_key intent_scores with
    | None =>
        {| intent := "general"; confidence := 0.5%float;
           matched_keywords := []; all_matches := None |}
    | Some best_intent =>
        let max_score := dict_get intent_scores best_intent 0%float in
        let max_keywords := length (dict_get INTENT_KEYWORDS best_intent []) in
        {| intent := best_intent;
           confidence :=
             fmin (PrimFloat.div max_score (float_of_nat (nat_max max_keywords 1)))
                  1%float;
           matched_keywords := dict_get matched best_intent [];
           all_matches := Some matched |}
    end.

Definition is_greeting (text : string) : bool :=
  String.eqb (intent (detect_intent text)) "greeting".

Definition is_goodbye (text : string) : bool :=
  String.eqb (intent (detect_intent text)) "goodbye".

Definition needs_human_fallback (text : string) (conf : float) : bool :=
  let text_lower := lower text in
  if existsb (fun keyword => str_contains keyword text_lower) human_required_keywords
  then true
  else if PrimFloat.ltb conf 0.3%float then true
  else false.

End Detector.

(** [intent_category_map] of [get_suggested_questions]; ["goodbye"] maps
    to [None]. *)
Definition intent_category_map : list (string * option string) :=
  [ ("fee_query", Some "fees"); ("admission", Some "admission");
    ("scholarship", Some "scholarship"); ("exam", Some "exam");
    ("greeting", Some "general"); ("goodbye", None) ].

Definition get_suggested_questions (intent_name : string) : list string :=
  match dict_get intent_category_map intent_name (Some "general") with
  | None => []
  | Some category =>
      dict_get SUGGESTED_QUESTIONS category (dict_get SUGGESTED_QUESTIONS "general" [])
  end.

End Intent.

(** ** [app/core/context.py]: ConversationContext *)

Module Context.
Import Py.

(** [app/models/schemas.py]: LanguageEnum and its [.value]. *)
Inductive LanguageEnum : Type :=
  ENGLISH | HINDI | TAMIL | TELUGU | BENGALI | MARATHI.

Definition language_value (l : LanguageEnum) : string :=
  match l with
  | ENGLISH => "en" | HINDI => "hi" | TAMIL => "ta"
  | TELUGU => "te" | BENGALI => "bn" | MARATHI => "mr"
  end.

(** [LanguageEnum(value)]: [None] stands for the [ValueError]. *)
Definition language_of_value (value : string) : option LanguageEnum :=
  if String.eqb value "en" then Some ENGLISH
  else if String.eqb value "hi" then Some HINDI
  else if String.eqb value "ta" then Some TAMIL
  else if String.eqb value "te" then Some TELUGU
  else if String.eqb value "bn" then Some BENGALI
  else if String.eqb value "mr" then Some MARATHI
  else None.

(** A clock reading of [datetime.utcnow()], in microseconds. *)
Definition time := Z.

(** The [metadata] dictionary of a message: the keys [add_assistant_message]
    may set. *)
Record MessageMetadata := {
  md_sources : option (list string);
  md_confidence : option float
}.

Definition no_metadata : MessageMetadata :=
  {| md_sources := None; md_confidence := None |}.

Record Message := {
  role : string;
  content : string;
  msg_language : string;
  timestamp : time;
  msg_metadata : MessageMetadata
}.

(** Values of the [entities] dictionary: strings, and the semester number. *)
Inductive EntityValue : Type :=
  | EStr (s : string)
  | EInt (z : Z).

Record ConversationContext := {
  session_id : string;
  language : LanguageEnum;
  messages : list Message;
  max_messages : Z;
  metadata : list (string * string);
  created_at : time;
  updated_at : time;
  entities : gmap string EntityValue;
  intent_history : list string
}.

(** [__init__]; [t_created] and [t_updated] are its two clock readings. *)
Definition new_context (sid : string) (lang : LanguageEnum) (max_msgs : Z)
    (t_created t_updated : time) : ConversationContext :=
  {| session_id := sid; language := lang; messages := [];
     max_messages := max_msgs; metadata := [];
     created_at := t_created; updated_at := t_updated;
     entities := ∅; intent_history := [] |}.

(** [x or default] for an optional string: [None] and the empty string are
    falsy. *)
Definition str_or (x : option string) (default : string) : string :=
  match x with
  | Some s => if String.eqb s EmptyString then default else s
  | None => default
  end.

(** [add_message]; [t_stamp] is the reading stored in the message,
    [t_update] the one stored in [updated_at]. *)
Definition add_message (ctx : ConversationContext) (role content : string)
    (lang : option string) (md : option MessageMetadata)
    (t_stamp t_update : time) : ConversationContext :=
  let message :=
    {| role := role; content := content;
       msg_language := str_or lang (language_value (language ctx));
       timestamp := t_stamp;
       msg_metadata := match md with Some m => m | None => no_metadata end |} in
  let appended := (messages ctx ++ [message])%list in
  {| session_id := session_id ctx; language := language ctx;
     messages :=
       if Z.of_nat (length appended) >? max_messages ctx
       then slice_from (- max_messages ctx) appended
       else appended;
     max_messages := max_messages ctx; metadata := metadata ctx;
     created_at := created_at ctx; updated_at := t_update;
     entities := entities ctx; intent_history := intent_history ctx |}.

Definition add_user_message (ctx : ConversationContext) (content : string)
    (lang : option string) (t_stamp t_update : time) : ConversationContext :=
  add_message ctx "user" content lang None t_stamp t_update.

(** [sources] is stored when it is a non-empty list, [confidence] when it
    is not [None]. *)
Definition add_assistant_message (ctx : ConversationContext) (content : string)
    (lang : option string) (sources : option (list string))
    (conf : option float) (t_stamp t_update : time) : ConversationContext :=
  let md :=
    {| md_sources := match sources with
                     | Some (_ :: _) => sources
                     | _ => None
                     end;
       md_confidence := conf |} in
  add_message ctx "assistant" content lang (Some md) t_stamp t_update.

Definition get_history (ctx : ConversationContext) (limit : Z) : list Message :=
  slice_from (- limit) (messages ctx).

(** [get_history_as_text]; [capitalize] is [str.capitalize]. *)
Definition get_history_as_text (capitalize : string -> string)
    (ctx : ConversationContext) (limit : Z) : string :=
  match get_history ctx limit with
  | [] => EmptyString
  | history =>
      String.concat NL
        (map (fun msg => capitalize (role msg) ++ ": " ++ content msg) history)
  end.

(** [self.entities.update(new_entities)]: the new values win. *)
Definition update_entities (ctx : ConversationContext)
    (new_entities : gmap string EntityValue) (t_update : time) : ConversationContext :=
  {| session_id := session_id ctx; language := language ctx;
     messages := messages ctx; max_messages := max_messages ctx;
     metadata := metadata ctx;
     created_at := created_at ctx; updated_at := t_update;
     entities := new_entities ∪ entities ctx;
     intent_history := intent_history ctx |}.

(** [add_intent] reads no clock and writes no timestamp. *)
Definition add_intent (ctx : ConversationContext) (intent_name : string)
  : ConversationContext :=
  let appended := (intent_history ctx ++ [intent_name])%list in
  {| session_id := session_id ctx; language := language ctx;
     messages := messages ctx; max_messages := max_messages ctx;
     metadata := metadata ctx;
     created_at := created_at ctx; updated_at := updated_at ctx;
     entities := entities ctx;
     intent_history :=
       if (5 <? length appended)%nat then slice_from (-5) appended else appended |}.

(** The dictionary [from_dict] reads; the keys read with [data.get] may
    be missing. *)
Record ContextData := {
  data_session_id : string;
  data_language : option string;
  data_messages : option (list Message);
  data_metadata : option (list (string * string));
  data_entities : option (gmap string EntityValue);
  data_intent_history : option (list string);
  data_created_at : time;
  data_updated_at : time
}.

(** [from_dict]: the constructor runs with the default [max_messages],
    then every field is overwritten with what the dictionary holds. *)
Definition from_dict (data : ContextData) : result ConversationContext :=
  match language_of_value (default "en" (data_language data)) with
  | None => Raised "ValueError"
  | Some lang =>
      Ok {| session_id := data_session_id data; language := lang;
            messages := default [] (data_messages data);
            max_messages := 10;
            metadata := default [] (data_metadata data);
            created_at := data_created_at data;
            updated_at := data_updated_at data;
            entities := default ∅ (data_entities data);
            intent_history := default [] (data_intent_history data) |}
  end.

(** The mutating methods, each with its arguments and clock readings. *)
Inductive Op : Type :=
  | OpAddMessage (role content : string) (lang : option string)
                 (md : option MessageMetadata) (t_stamp t_update : time)
  | OpAddUserMessage (content : string) (lang : option string)
                     (t_stamp t_update : time)
  | OpAddAssistantMessage (content : string) (lang : option string)
                          (sources : option (list string)) (conf : option float)
                          (t_stamp t_update : time)
  | OpUpdateEntities (new_entities : gmap string EntityValue) (t_update : time)
  | OpAddIntent (intent_name : string).

Definition apply_op (ctx : ConversationContext) (op : Op) : ConversationContext :=
  match op with
  | OpAddMessage r c l md t1 t2 => add_message ctx r c l md t1 t2
  | OpAddUserMessage c l t1 t2 => add_user_message ctx c l t1 t2
  | OpAddAssistantMessage c l s cf t1 t2 => add_assistant_message ctx c l s cf t1 t2
  | OpUpdateEntities e t => update_entities ctx e t
  | OpAddIntent i => add_intent ctx i
  end.

Definition run_ops (ctx : ConversationContext) (ops : list Op) : ConversationContext :=
  fold_left apply_op ops ctx.

(** The clock readings an operation consumes. *)
Definition op_readings (op : Op) : list time :=
  match op with
  | OpAddMessage _ _ _ _ t1 t2 => [t1; t2]
  | OpAddUserMessage _ _ t1 t2 => [t1; t2]
  | OpAddAssistantMessage _ _ _ _ t1 t2 => [t1; t2]
  | OpUpdateEntities _ t => [t]
  | OpAddIntent _ => []
  end.

(** The data-model invariant of a context. *)
Definition invariant (ctx : ConversationContext) : Prop :=
  Z.of_nat (length (messages ctx)) <= max_messages ctx
  /\ (length (intent_history ctx) <= 5)%nat
  /\ created_at ctx <= updated_at ctx.

End Context.

(** ** [app/core/context.py]: ContextManager *)

Module Store.
Import Py Context.

(** [self.sessions] is an [OrderedDict]: the entries in insertion order,
    each key at most once. *)
Definition session_dict := list (string * ConversationContext).

Record ContextManager := {
  sessions : session_dict;
  max_sessions : Z;
  session_timeout : Z
}.

(** [timedelta(minutes=m)] in microseconds. *)
Definition minutes (m : Z) : Z := m * 60 * 1000000.

Definition new_manager (max_sess timeout_minutes : Z) : ContextManager :=
  {| sessions := []; max_sessions := max_sess;
     session_timeout := minutes timeout_minutes |}.

(** The module-level singleton [context_manager = ContextManager()]. *)
Definition context_manager : ContextManager := new_manager 1000 30.

(** [sid in d], [d.get(sid)], [del d[sid]], [d[sid] = ctx] for an absent
    key, and [d.move_to_end(sid)]. *)
Definition dict_contains (sid : string) (d : session_dict) : bool :=
  existsb (fun entry => String.eqb (fst entry) sid) d.

Fixpoint dict_lookup (sid : string) (d : session_dict) : option ConversationContext :=
  match d with
  | [] => None
  | (k, ctx) :: rest => if String.eqb k sid then Some ctx else dict_lookup sid rest
  end.

Definition dict_delete (sid : string) (d : session_dict) : session_dict :=
  List.filter (fun entry => negb (String.eqb (fst entry) sid)) d.

Definition dict_append (sid : string) (ctx : ConversationContext) (d : session_dict)
  : session_dict := (d ++ [(sid, ctx)])%list.

Definition dict_move_to_end (sid : string) (d : session_dict) : session_dict :=
  match dict_lookup sid d with
  | Some ctx => dict_append sid ctx (dict_delete sid d)
  | None => d
  end.

Definition with_sessions (mgr : ContextManager) (d : session_dict) : ContextManager :=
  {| sessions := d; max_sessions := max_sessions mgr;
     session_timeout := session_timeout mgr |}.

(** The keys gathered by the list comprehension of [_cleanup_old_sessions]. *)
Definition expired_ids (mgr : ContextManager) (now : time) : list string :=
  map fst
    (List.filter (fun entry => now - updated_at (snd entry) >? session_timeout mgr)
                 (sessions mgr)).

(** The [while] loop: as long as the dictionary is longer than the ceiling
    its first key is deleted; [next(iter(...))] raises on an empty one. *)
Fixpoint evict_oldest (max_sess : Z) (d : session_dict) : session_dict * result unit :=
  if Z.of_nat (length d) >? max_sess then
    match d with
    | [] => ([], Raised "StopIteration")
    | _ :: rest => evict_oldest max_sess rest
    end
  else (d, Ok tt).

Definition _cleanup_old_sessions (mgr : ContextManager) (now : time)
  : ContextManager * result unit :=
  let expired := expired_ids mgr now in
  let kept := fold_left (fun d sid => dict_delete sid d) expired (sessions mgr) in
  let '(remaining, outcome) := evict_oldest (max_sessions mgr) kept in
  (with_sessions mgr remaining, outcome).

(** [get_or_create_session]; the three readings are those of a creation:
    two in [ConversationContext.__init__], one in the clean-up.  The
    branch for a known id reads no clock. *)
Definition get_or_create_session (mgr : ContextManager) (sid : string)
    (lang : LanguageEnum) (t_created t_updated now : time)
  : ContextManager * result ConversationContext :=
  if dict_contains sid (sessions mgr) then
    let moved := dict_move_to_end sid (sessions mgr) in
    (with_sessions mgr moved,
     match dict_lookup sid moved with
     | Some ctx => Ok ctx
     | None => Raised "KeyError"
     end)
  else
    let context := new_context sid lang 10 t_created t_updated in
    let mgr1 := with_sessions mgr (dict_append sid context (sessions mgr)) in
    let '(mgr2, outcome) := _cleanup_old_sessions mgr1 now in
    match outcome with
    | Ok _ => (mgr2, Ok context)
    | Raised e => (mgr2, Raised e)
    end.

Definition get_session (mgr : ContextManager) (sid : string)
  : option ConversationContext :=
  dict_lookup sid (sessions mgr).

Definition get_context_prompt (capitalize : string -> string)
    (mgr : ContextManager) (sid : string) (current_query : string) : string :=
  match get_session mgr sid with
  | None => current_query
  | Some context =>
      match messages context with
      | [] => current_query
      | _ :: _ =>
          let history_text := get_history_as_text capitalize context 3 in
          if String.eqb history_text EmptyString then current_query
          else "Previous conversation:" ++ NL ++ history_text ++ NL ++ NL
               ++ "Current question: " ++ current_query ++ NL ++ NL
               ++ "Please consider the conversation context when answering."
      end
  end.

Definition clear_session (mgr : ContextManager) (sid : string)
  : ContextManager * bool :=
  if dict_contains sid (sessions mgr)
  then (with_sessions mgr (dict_delete sid (sessions mgr)), true)
  else (mgr, false).

Definition get_session_count (mgr : ContextManager) : nat :=
  length (sessions mgr).

(** One call of [get_or_create_session] with its clock readings. *)
Record Call := {
  call_sid : string;
  call_language : LanguageEnum;
  call_created : time;
  call_updated : time;
  call_now : time
}.

Definition do_call (mgr : ContextManager) (c : Call)
  : ContextManager * result ConversationContext :=
  get_or_create_session mgr (call_sid c) (call_language c)
    (call_created c) (call_updated c) (call_now c).

(** The store after a sequence of calls. *)
Definition run_calls (mgr : ContextManager) (calls : list Call) : ContextManager :=
  fold_left (fun m c => fst (do_call m c)) calls mgr.

(** After creating the distinct ids [ids], a store with ceiling [M] and
    timeout [T] holds the last [M] of them, oldest first, and nothing in it
    is older than [t0]. *)
Definition holds_last (M T t0 : Z) (mgr : ContextManager) (ids : list string) : Prop :=
  max_sessions mgr = M
  /\ session_timeout mgr = T
  /\ map fst (sessions mgr) = skipn (length ids - Z.to_nat M) ids
  /\ Forall (fun entry => t0 <= updated_at (snd entry)) (sessions mgr).

(** The call happens in the window of length [T] that starts at [t0]. *)
Definition in_window (T t0 : Z) (c : Call) : Prop :=
  t0 <= call_updated c /\ call_now c - t0 <= T.

(** Session ids and calls used to run the store on 1001 creations. *)
Fixpoint bits (p : positive) : string :=
  match p with
  | xH => "1"
  | xO q => String "0" (bits q)
  | xI q => String "1" (bits q)
  end.

Definition sample_sid (n : nat) : string := bits (Pos.of_succ_nat n).

Definition sample_call (n : nat) : Call :=
  {| call_sid := sample_sid n; call_language := ENGLISH;
     call_created := Z.of_nat n; call_updated := Z.of_nat n;
     call_now := Z.of_nat n |}.

Definition sample_calls (count : nat) : list Call := map sample_call (seq 0 count).

Fixpoint nodupb (l : list string) : bool :=
  match l with
  | [] => true
  | x :: rest => negb (existsb (String.eqb x) rest) && nodupb rest
  end.

End Store.

(** ** [app/utils/helpers.py] and [app/services/faq_service.py] *)

Module FAQ.
Import Py.

(** The stop words of [extract_keywords]. *)
Definition stop_words : list string :=
  ["the"; "a"; "an"; "is"; "are"; "was"; "were"; "be"; "been";
   "being"; "have"; "has"; "had"; "do"; "does"; "did"; "will";
   "would"; "could"; "should"; "may"; "might"; "can"; "to"; "of";
   "in"; "for"; "on"; "with"; "at"; "by"; "from"; "as"; "into";
   "about"; "like"; "through"; "after"; "over"; "between"; "out";
   "against"; "during"; "without"; "before"; "under"; "around";
   "among"; "and"; "or"; "but"; "if"; "then"; "else"; "when";
   "up"; "down"; "that"; "this"; "these"; "those"; "what"; "which";
   "who"; "whom"; "whose"; "where"; "why"; "how"; "all"; "each";
   "every"; "both"; "few"; "more"; "most"; "other"; "some"; "such";
   "no"; "nor"; "not"; "only"; "own"; "same"; "so"; "than"; "too";
   "very"; "just"; "also"; "now"; "here"; "there"; "my"; "your";
   "his"; "her"; "its"; "our"; "their"; "me"; "you"; "him"; "us";
   "them"; "i"; "we"; "he"; "she"; "it"; "they"].

Definition str_in (word : string) (words : list string) : bool :=
  existsb (String.eqb word) words.

(** The last loop of [extract_keywords]: duplicates go, order stays. *)
Fixpoint unique_from (seen : list string) (keywords : list string) : list string :=
  match keywords with
  | [] => []
  | word :: rest =>
      if str_in word seen then unique_from seen rest
      else word :: unique_from (word :: seen) rest
  end.

(** A stored FAQ document is a JSON object.  Each of the keys
    [search_faqs] reads may be missing, and a key that is present may hold
    any JSON value.  The answer is copied into the result and never
    looked at, so the search is the same whatever the type [Answer] of
    the answers is. *)
Record FAQDoc (Answer : Type) := {
  faq_question : option json;
  faq_answer : option Answer;
  faq_category : option json;
  faq_keywords : option json;
  faq_priority : option json
}.
Arguments faq_question {Answer}.
Arguments faq_answer {Answer}.
Arguments faq_category {Answer}.
Arguments faq_keywords {Answer}.
Arguments faq_priority {Answer}.

(** An entry of [scored_faqs]. *)
Record ScoredFAQ (Answer : Type) := {
  question : json;
  answer : Answer;
  category : json;
  score : float;
  matched_keywords : list string
}.
Arguments question {Answer}.
Arguments answer {Answer}.
Arguments category {Answer}.
Arguments score {Answer}.
Arguments matched_keywords {Answer}.

(** The dictionary [search_faqs] returns; ["error"] is [str(e)]. *)
Record SearchResult (Answer : Type) := {
  matches : list (ScoredFAQ Answer);
  total : nat;
  error : option string
}.
Arguments matches {Answer}.
Arguments total {Answer}.
Arguments error {Answer}.

(** In this module an exception is carried by its message, [str(e)],
    which is what [search_faqs] reports. *)
Definition no_attribute (v : json) (name : string) : string :=
  "'" ++ type_name v ++ "' object has no attribute '" ++ name ++ "'".

Definition not_iterable (v : json) : string :=
  "'" ++ type_name v ++ "' object is not iterable".

(** [iter(v)], as the list of the items a loop over [v] gets: the
    characters of a string, the items of a list, the keys of a dict;
    anything else is not iterable. *)
Definition iterate (v : json) : result (list json) :=
  match v with
  | JStr s => Ok (map JStr (chars s))
  | JList items => Ok items
  | JDict entries => Ok (map (fun entry => JStr (fst entry)) entries)
  | _ => Raised (not_iterable v)
  end.

(** [v * 0.1]: an [int] (and a [bool], which is one) is converted to
    [float], which overflows beyond the float range; a [float] is
    multiplied; every other operand is a [TypeError]. *)
Definition times_tenth (v : json) : result float :=
  match v with
  | JInt z =>
      if PrimFloat.is_infinity (float_of_Z z)
      then Raised "int too large to convert to float"
      else Ok (PrimFloat.mul (float_of_Z z) 0.1%float)
  | JBool b => Ok (PrimFloat.mul (float_of_Z (if b then 1 else 0)) 0.1%float)
  | JFloat f => Ok (PrimFloat.mul f 0.1%float)
  | JStr _ | JList _ => Raised "can't multiply sequence by non-int of type 'float'"
  | JNull | JDict _ =>
      Raised ("unsupported operand type(s) for *: '" ++ type_name v ++ "' and 'float'")
  end.

Definition is_str (v : json) : bool :=
  match v with JStr _ => true | _ => false end.

(** A document whose present fields have the types [FAQBase] declares: a
    string for the question and for the category, a list of strings for
    the keywords, an [int] within the float range for the priority. *)
Definition schema_typed {Answer : Type} (faq : FAQDoc Answer) : bool :=
  (match faq_question faq with Some v => is_str v | None => true end
   && match faq_category faq with Some v => is_str v | None => true end
   && match faq_keywords faq with
      | Some (JList items) => forallb is_str items
      | Some _ => false
      | None => true
      end
   && match faq_priority faq with
      | Some (JInt z) => negb (PrimFloat.is_infinity (float_of_Z z))
      | Some _ => false
      | None => true
      end)%bool.

(** [scored_faqs.sort(key=lambda x: x["score"], reverse=True)]: the sort is
    stable and compares keys with [<] only.  It is modelled by insertion
    from the right: an entry moves behind the entries of greater score and
    stays in front of every later entry whose score is not greater. *)
Fixpoint insert_by_score {Answer : Type} (x : ScoredFAQ Answer)
    (sorted : list (ScoredFAQ Answer)) : list (ScoredFAQ Answer) :=
  match sorted with
  | [] => [x]
  | y :: rest =>
      if PrimFloat.ltb (score x) (score y) then y :: insert_by_score x rest
      else x :: y :: rest
  end.

Fixpoint sort_by_score {Answer : Type} (l : list (ScoredFAQ Answer))
  : list (ScoredFAQ Answer) :=
  match l with
  | [] => []
  | x :: rest => insert_by_score x (sort_by_score rest)
  end.



Section Search.

(** [str.lower], [re.sub(r'[^\w\s]', '', s)] and [str.split()]. *)
Variable lower : string -> string.
Variable strip_punctuation : string -> string.
Variable split : string -> list string.

Context {Answer : Type}.

Definition extract_keywords (text : string) (min_length : nat) : list string :=
  let text := strip_punctuation (lower text) in
  let words := split text in
  let keywords :=
    List.filter (fun word => (Nat.leb min_length (str_len word)
                              && negb (str_in word stop_words))%bool) words in
  unique_from [] keywords.

(** [set(extract_keywords(query.lower()))] *)
Definition query_keywords (query : string) : gset string :=
  list_to_set (extract_keywords (lower query) 3).

(** [v.lower()]: only a string has the method. *)
Definition lower_of (v : json) : result string :=
  match v with
  | JStr s => Ok (lower s)
  | _ => Raised (no_attribute v "lower")
  end.

(** The generator [k.lower() for k in ...], consumed in order. *)
Fixpoint lower_each (items : list json) : result (list string) :=
  match items with
  | [] => Ok []
  | k :: rest =>
      match lower_of k with
      | Raised e => Raised e
      | Ok lowered =>
          match lower_each rest with
          | Raised e => Raised e
          | Ok others => Ok (lowered :: others)
          end
      end
  end.

(** [set(k.lower() for k in faq.get("keywords", []))] *)
Definition declared_keywords (faq : FAQDoc Answer) : result (gset string) :=
  match iterate (default (JList []) (faq_keywords faq)) with
  | Raised e => Raised e
  | Ok items =>
      match lower_each items with
      | Raised e => Raised e
      | Ok keywords => Ok (list_to_set keywords)
      end
  end.

(** [set(extract_keywords(faq.get("question", "").lower()))] *)
Definition question_keywords (faq : FAQDoc Answer) : result (gset string) :=
  match lower_of (default (JStr EmptyString) (faq_question faq)) with
  | Raised e => Raised e
  | Ok text => Ok (list_to_set (extract_keywords text 3))
  end.

(** [faq_keywords.union(question_keywords)] *)
Definition all_faq_keywords (faq : FAQDoc Answer) : result (gset string) :=
  match declared_keywords faq with
  | Raised e => Raised e
  | Ok faq_kws =>
      match question_keywords faq with
      | Raised e => Raised e
      | Ok question_kws => Ok (faq_kws ∪ question_kws)
      end
  end.

(** The test before [continue]: a non-empty [category] must equal the
    FAQ's, case-insensitively; [false] is the [continue]. *)
Definition category_selected (wanted : option string) (faq : FAQDoc Answer)
  : result bool :=
  match wanted with
  | Some c =>
      if String.eqb c EmptyString then Ok true
      else
        match lower_of (default (JStr EmptyString) (faq_category faq)) with
        | Raised e => Raised e
        | Ok faq_category_lower => Ok (String.eqb faq_category_lower (lower c))
        end
  | None => Ok true
  end.

(** [faq.get("priority", 0) * 0.1] *)
Definition priority_boost (faq : FAQDoc Answer) : result float :=
  times_tenth (default (JInt 0) (faq_priority faq)).

(** [min(score + priority_boost, 1.0)] with
    [score = len(matches) / max(len(query_keywords), 1)]. *)
Definition final_score (n_matches n_query : nat) (boost : float) : float :=
  let s := PrimFloat.div (float_of_nat n_matches) (float_of_nat (nat_max n_query 1)) in
  fmin (PrimFloat.add s boost) 1%float.

(** The body of the loop for one FAQ: nothing appended ([None]), an entry
    appended, or the first exception, in the order the statements meet
    them: the category test, the declared keywords, the question, the
    priority, then the keys [question] and [answer] of the entry. *)
Definition score_faq (query_kws : gset string) (wanted : option string)
    (faq : FAQDoc Answer) : result (option (ScoredFAQ Answer)) :=
  match category_selected wanted faq with
  | Raised e => Raised e
  | Ok false => Ok None
  | Ok true =>
      match all_faq_keywords faq with
      | Raised e => Raised e
      | Ok faq_kws =>
          let found := query_kws ∩ faq_kws in
          if decide (found = ∅) then Ok None
          else
            match priority_boost faq with
            | Raised e => Raised e
            | Ok boost =>
                match faq_question faq with
                | None => Raised "'question'"
                | Some q =>
                    match faq_answer faq with
                    | None => Raised "'answer'"
                    | Some a =>
                        Ok (Some {| question := q; answer := a;
                                    category :=
                                      default (JStr "general") (faq_category faq);
                                    score := final_score (size found) (size query_kws)
                                                         boost;
                                    matched_keywords := elements found |})
                    end
                end
            end
      end
  end.

(** The FAQs the loop gets as far as scoring: selected by category, with
    a keyword in common with the query. *)
Definition retained (query_kws : gset string) (wanted : option string)
    (faq : FAQDoc Answer) : bool :=
  match category_selected wanted faq, all_faq_keywords faq with
  | Ok true, Ok faq_kws => negb (bool_decide (query_kws ∩ faq_kws = ∅))
  | _, _ => false
  end.

(** What an appended entry [m] says about its FAQ. *)
Definition scored_from (query_kws : gset string) (wanted : option string)
    (faq : FAQDoc Answer) (m : ScoredFAQ Answer) : Prop :=
  category_selected wanted faq = Ok true
  /\ exists faq_kws boost,
       all_faq_keywords faq = Ok faq_kws
       /\ query_kws ∩ faq_kws <> ∅
       /\ faq_question faq = Some (question m)
       /\ faq_answer faq = Some (answer m)
       /\ priority_boost faq = Ok boost
       /\ score m =
            fmin (PrimFloat.add
                    (PrimFloat.div
                       (float_of_nat (size (query_kws ∩ faq_kws)))
                       (float_of_nat (size query_kws)))
                    boost)
                 1%float.

(** The loop: [scored_faqs] in discovery order, or the first exception. *)
Fixpoint score_all (query_kws : gset string) (wanted : option string)
    (faqs : list (FAQDoc Answer)) : result (list (ScoredFAQ Answer)) :=
  match faqs with
  | [] => Ok []
  | faq :: rest =>
      match score_faq query_kws wanted faq with
      | Raised e => Raised e
      | Ok entry =>
          match score_all query_kws wanted rest with
          | Raised e => Raised e
          | Ok scored =>
              Ok (match entry with Some x => x :: scored | None => scored end)
          end
      end
  end.

(** [search_faqs]; [faqs] is what [self._get_faqs(language)] returned. *)
Definition search_faqs (faqs : list (FAQDoc Answer)) (query : string)
    (wanted : option string) (limit : Z) : SearchResult Answer :=
  match faqs with
  | [] => {| matches := []; total := 0; error := None |}
  | _ :: _ =>
      match score_all (query_keywords query) wanted faqs with
      | Ok scored_faqs =>
          {| matches := slice_to limit (sort_by_score scored_faqs);
             total := length scored_faqs; error := None |}
      | Raised e => {| matches := []; total := 0; error := Some e |}
      end
  end.

End Search.

(** A small FAQ table to run the search on. *)
Definition sample_faqs : list (FAQDoc string) :=
  [ {| faq_question := Some (JStr "What is the hostel fee?");
       faq_answer := Some "The hostel fee is 30000 per year.";
       faq_category := Some (JStr "fees");
       faq_keywords := Some (JList [JStr "hostel"; JStr "fee"]);
       faq_priority := Some (JInt 1) |};
    {| faq_question := Some (JStr "How do I apply for admission?");
       faq_answer := Some "Apply online through the admission portal.";
       faq_category := Some (JStr "admission"); faq_keywords := None;
       faq_priority := None |};
    {| faq_question := Some (JStr "What is the tuition fee per semester?");
       faq_answer := Some "The tuition fee is 50000 per semester.";
       faq_category := Some (JStr "fees");
       faq_keywords := Some (JList [JStr "tuition"; JStr "fee"]);
       faq_priority := Some (JInt 1) |} ].

Definition search_ascii {Answer : Type} (faqs : list (FAQDoc Answer)) (query : string)
    (wanted : option string) (limit : Z) : SearchResult Answer :=
  search_faqs ascii_lower ascii_strip_punctuation ascii_split faqs query wanted limit.

End FAQ.

(** ** [app/core/chatbot.py]: ChatbotService *)

Module Chatbot.
Import Py Constants Context Store.

(** [app/models/schemas.py]: ChatRequest and ChatResponse. *)
Record ChatRequest := {
  req_message : string;
  req_language : LanguageEnum;
  req_session_id : option string;
  req_user_id : option string
}.

Record ChatResponse := {
  response : string;
  resp_language : LanguageEnum;
  resp_session_id : string;
  confidence_score : float;
  sources : option (list string);
  suggested_questions : option (list string);
  fallback_required : bool;
  resp_intent : option string
}.

(** The dictionaries the collaborators answer with. *)
Record Detection := {
  det_success : bool;
  det_language : string;
  det_confidence : float
}.

Record RagResult := {
  rag_answer : option string;
  rag_sources : option (list string);
  rag_confidence : option float
}.

Record LlmResult := {
  llm_success : bool;
  llm_response : option string
}.

(** The collaborators of the orchestrator, acting on a world [W] that
    holds everything outside the process: the clock, the translation
    backend, the FAQ collection, the vector store and the model server.
    A call may return or raise.  The answers of the FAQ collection are
    strings, as the reply of the orchestrator is. *)
Record Services (W : Type) := {
  utcnow : W -> time * W;
  generate_session_id : W -> string * W;
  detect_language : string -> W -> result Detection * W;
  translate : string -> string -> string -> W -> result string * W;
  get_faqs : string -> W -> list (FAQ.FAQDoc string) * W;
  rag_generate_answer : string -> W -> result RagResult * W;
  llm_generate_response : string -> string -> W -> result LlmResult * W
}.
Arguments utcnow {W}.
Arguments generate_session_id {W}.
Arguments detect_language {W}.
Arguments translate {W}.
Arguments get_faqs {W}.
Arguments rag_generate_answer {W}.
Arguments llm_generate_response {W}.

(** [goodbye_messages] of [process_message]. *)
Definition goodbye_messages : list (string * string) :=
  [ ("en", "Goodbye! Feel free to ask if you have more questions.");
    ("hi", "अलविदा! अगर आपके और सवाल हों तो पूछें।");
    ("ta", "போய் வருகிறேன்! உங்களுக்கு மேலும் கேள்விகள் இருந்தால் கேளுங்கள்.");
    ("te", "వీడ్కోలు! మీకు మరిన్ని ప్రశ్నలు ఉంటే అడగండి.");
    ("bn", "বিদায়! আপনার আরও প্রশ্ন থাকলে জিজ্ঞাসা করুন।");
    ("mr", "निरोप! तुमच्या आणखी प्रश्न असल्यास विचारा.") ].

(** [intent_to_category] of [_search_faqs]. *)
Definition intent_to_category : list (string * string) :=
  [ ("fee_query", "fees"); ("admission", "admission");
    ("scholarship", "scholarship"); ("exam", "exam");
    ("timetable", "timetable"); ("document", "documents");
    ("contact", "contact"); ("hostel", "hostel") ].

(** What [_search_faqs] returns for a match: the answer is the text to
    reply with, the question and the category are copied as they are
    stored. *)
Record FaqAnswer := {
  fa_answer : string;
  fa_question : json;
  fa_category : json;
  fa_confidence : float
}.

(** [d[sid] = ctx] for a key the dictionary holds: the entry keeps its
    place. *)
Definition dict_replace (sid : string) (ctx : ConversationContext) (d : session_dict)
  : session_dict :=
  map (fun entry => if String.eqb (fst entry) sid then (fst entry, ctx) else entry) d.

(** The state a message is processed in.  [conversation] is the object
    [get_or_create_session] returned; the store holds the same object
    under the session id for as long as it holds the id, so every
    mutation of [conversation] is written to that entry too. *)
Record PState (W : Type) := {
  world : W;
  store : ContextManager;
  conversation : ConversationContext
}.
Arguments world {W}.
Arguments store {W}.
Arguments conversation {W}.

(** Computations that read and write the state and may raise; the state
    reached when an exception is raised is kept. *)
Definition M (W A : Type) : Type := PState W -> result A * PState W.

Definition ret {W A : Type} (a : A) : M W A := fun st => (Ok a, st).

Definition raise {W A : Type} (e : string) : M W A := fun st => (Raised e, st).

Definition bind {W A B : Type} (c : M W A) (k : A -> M W B) : M W B :=
  fun st =>
    match c st with
    | (Ok a, st') => k a st'
    | (Raised e, st') => (Raised e, st')
    end.

(** A step that leaves the conversation and the store as they are. *)
Definition same_context {W : Type} (st st' : PState W) : Prop :=
  conversation st' = conversation st /\ store st' = store st.

Definition preserves {W A : Type} (c : M W A) : Prop :=
  forall st r st', c st = (r, st') -> same_context st st'.

(** The store and the local variable name one object: whenever the
    store holds the session id, its entry is the conversation. *)
Definition synced {W : Type} (sid : string) (st : PState W) : Prop :=
  forall c, get_session (store st) sid = Some c -> c = conversation st.

Definition keeps_sync {W A : Type} (sid : string) (c : M W A) : Prop :=
  forall st r st', synced sid st -> c st = (r, st') -> synced sid st'.

Declare Scope chat_scope.
Delimit Scope chat_scope with chat.
Notation "'let*' x := c 'in' k" := (bind c (fun x => k))
  (at level 10, x pattern, c at level 200, k at level 200) : chat_scope.
Notation "c ;; k" := (bind c (fun _ => k))
  (at level 100, k at level 200, right associativity) : chat_scope.

Section Pipeline.

Context {W : Type}.
Variable svc : Services W.

(** [str.lower], [re.sub(r'[^\w\s]', '', s)], [str.split()],
    [str.capitalize], and [IntentDetector.extract_entities], a pure
    function of the text built from regular expressions. *)
Variable lower : string -> string.
Variable strip_punctuation : string -> string.
Variable split : string -> list string.
Variable capitalize : string -> string.
Variable extract_entities : string -> gmap string EntityValue.

Local Open Scope chat_scope.

(** A call to a collaborator. *)
Definition call {A : Type} (f : W -> result A * W) : M W A :=
  fun st =>
    let '(r, w) := f (world st) in
    (r, {| world := w; store := store st; conversation := conversation st |}).

Definition call_total {A : Type} (f : W -> A * W) : M W A :=
  fun st =>
    let '(a, w) := f (world st) in
    (Ok a, {| world := w; store := store st; conversation := conversation st |}).

(** [datetime.utcnow()] *)
Definition clock : M W time := call_total (utcnow svc).

(** A method call on [conversation]. *)
Definition mutate (sid : string) (f : ConversationContext -> ConversationContext)
  : M W unit :=
  fun st =>
    let ctx := f (conversation st) in
    (Ok tt,
     {| world := world st;
        store := with_sessions (store st) (dict_replace sid ctx (sessions (store st)));
        conversation := ctx |}).

Definition read_store : M W ContextManager := fun st => (Ok (store st), st).

(** [translation_service.translate_to_english] and
    [translate_from_english]. *)
Definition translate_to_english (text source_lang : string) : M W (string * string) :=
  if String.eqb source_lang "en" then ret (text, "en")
  else let* translated := call (translate svc text source_lang "en") in
       ret (translated, source_lang).

Definition translate_from_english (text target_lang : string) : M W string :=
  if String.eqb target_lang "en" then ret text
  else call (translate svc text "en" target_lang).

(** [_search_faqs]: the FAQ service is asked for English FAQs; any
    exception is turned into [None]. *)
Definition _search_faqs (query intent_name : string) : M W (option FaqAnswer) :=
  let category := dict_find intent_to_category intent_name in
  let* faqs := call_total (get_faqs svc "en") in
  let found := FAQ.search_faqs lower strip_punctuation split faqs query category 5 in
  match FAQ.matches found with
  | best_match :: _ =>
      ret (Some {| fa_answer := FAQ.answer best_match;
                   fa_question := FAQ.question best_match;
                   fa_category := FAQ.category best_match;
                   fa_confidence := FAQ.score best_match |})
  | [] => ret None
  end.

(** Steps 6 to 8 for an intent other than greeting and goodbye: the FAQ
    answer when its score exceeds 0.7, else the document answer when it is
    non-empty with confidence above 0.4, else the language model, else the
    canned fallback string. *)
Definition answer_query (sid english_message intent_name detected_lang : string)
  : M W (string * float * option (list string)) :=
  let* faq_result := _search_faqs english_message intent_name in
  let from_faq :=
    match faq_result with
    | Some fa => if PrimFloat.ltb 0.7%float (fa_confidence fa) then Some fa else None
    | None => None
    end in
  match from_faq with
  | Some fa => ret (fa_answer fa, fa_confidence fa, Some ["FAQ Database"])
  | None =>
      let* rag_result := call (rag_generate_answer svc english_message) in
      let from_rag :=
        match rag_answer rag_result, rag_confidence rag_result with
        | Some text, Some conf =>
            if (negb (String.eqb text EmptyString) && PrimFloat.ltb 0.4%float conf)%bool
            then Some (text, conf) else None
        | _, _ => None
        end in
      match from_rag with
      | Some (text, conf) => ret (text, conf, Some (default [] (rag_sources rag_result)))
      | None =>
          let* mgr := read_store in
          let context_prompt := get_context_prompt capitalize mgr sid english_message in
          let* llm_result :=
            call (llm_generate_response svc context_prompt SYSTEM_PROMPT_default) in
          if llm_success llm_result then
            match llm_response llm_result with
            | Some text => ret (text, 0.6%float, None)
            | None => raise "KeyError"
            end
          else
            match dict_find LANGUAGES detected_lang with
            | Some info => ret (lang_fallback info, 0%float, None)
            | None => raise "KeyError"
            end
      end
  end.

(** Step 5 and the steps it guards. *)
Definition answer (sid english_message intent_name detected_lang : string)
  : M W (string * float * option (list string)) :=
  if String.eqb intent_name "greeting" then
    match dict_find LANGUAGES detected_lang with
    | Some info => ret (lang_greeting info, 1%float, None)
    | None => raise "KeyError"
    end
  else if String.eqb intent_name "goodbye" then
    ret (dict_get goodbye_messages detected_lang
           (dict_get goodbye_messages "en" EmptyString),
         1%float, None)
  else answer_query sid english_message intent_name detected_lang.

(** The loop that translates the first three suggested questions. *)
Fixpoint translate_all (questions : list string) (target_lang : string)
  : M W (list string) :=
  match questions with
  | [] => ret []
  | q :: rest =>
      let* translated_q := translate_from_english q target_lang in
      let* others := translate_all rest target_lang in
      ret (translated_q :: others)
  end.

(** The constructor call [ChatResponse(...)] of the normal return:
    [LanguageEnum(detected_lang)] may raise [ValueError], and the model
    validates [0 <= confidence_score <= 1]. *)
Definition make_response (response_text detected_lang sid : string) (conf : float)
    (srcs : option (list string)) (suggested : list string)
    (fallback : bool) (intent_name : string) : M W ChatResponse :=
  match language_of_value detected_lang with
  | None => raise "ValueError"
  | Some lang =>
      if (PrimFloat.leb 0%float conf && PrimFloat.leb conf 1%float)%bool then
        ret {| response := response_text; resp_language := lang;
               resp_session_id := sid; confidence_score := conf;
               sources := srcs; suggested_questions := Some suggested;
               fallback_required := fallback; resp_intent := Some intent_name |}
      else raise "ValidationError"
  end.

(** Steps 1 to 4 of the [try] block: language, translation, intent and
    entities, and the user message.  The value is what the later steps
    use: the resolved language, the English text and the intent. *)
Definition record_turn (request : ChatRequest) (sid : string)
  : M W (string * string * string) :=
  let original_message := req_message request in
  let* detection := call (detect_language svc (req_message request)) in
  let detected_lang :=
    if (det_success detection && PrimFloat.ltb 0.7%float (det_confidence detection))%bool
    then det_language detection
    else language_value (req_language request) in
  let* (english_message, source_lang) :=
    translate_to_english (req_message request) detected_lang in
  let intent_result := Intent.detect_intent lower english_message in
  let intent_name := Intent.intent intent_result in
  let entities := extract_entities english_message in
  let* t_entities := clock in
  mutate sid (fun c => update_entities c entities t_entities) ;;
  mutate sid (fun c => add_intent c intent_name) ;;
  let* t_stamp := clock in
  let* t_update := clock in
  mutate sid (fun c => add_user_message c original_message (Some detected_lang)
                         t_stamp t_update) ;;
  ret (detected_lang, english_message, intent_name).

(** Steps 5 to 12 and the normal return. *)
Definition respond (request : ChatRequest) (sid : string)
    (turn : string * string * string) : M W ChatResponse :=
  let '(detected_lang, english_message, intent_name) := turn in
  let* (response_text, conf, srcs) :=
    answer sid english_message intent_name detected_lang in
  let* response_text :=
    if (negb (String.eqb detected_lang "en")
        && negb (String.eqb response_text EmptyString))%bool
    then translate_from_english response_text detected_lang
    else ret response_text in
  let fallback := Intent.needs_human_fallback lower (req_message request) conf in
  let suggested := Intent.get_suggested_questions intent_name in
  let* suggested :=
    match suggested with
    | _ :: _ =>
        if negb (String.eqb detected_lang "en")
        then translate_all (slice_to 3 suggested) detected_lang
        else ret suggested
    | [] => ret suggested
    end in
  let* t_stamp := clock in
  let* t_update := clock in
  mutate sid (fun c => add_assistant_message c response_text (Some detected_lang)
                         srcs (Some conf) t_stamp t_update) ;;
  let* t_end := clock in
  make_response response_text detected_lang sid conf srcs suggested fallback intent_name.

(** The body of the [try] block. *)
Definition pipeline (request : ChatRequest) (sid : string) : M W ChatResponse :=
  let* turn := record_turn request sid in
  respond request sid turn.

(** The response built by the [except] branch. *)
Definition error_response (request : ChatRequest) (sid : string) : ChatResponse :=
  let info :=
    dict_get LANGUAGES (language_value (req_language request))
             (dict_get LANGUAGES "en"
                {| lang_name := EmptyString; lang_native_name := EmptyString;
                   lang_flag := EmptyString; lang_greeting := EmptyString;
                   lang_fallback := EmptyString; lang_error := EmptyString;
                   lang_human_handoff := EmptyString |}) in
  {| response := lang_error info; resp_language := req_language request;
     resp_session_id := sid; confidence_score := 0%float;
     sources := None; suggested_questions := None;
     fallback_required := true; resp_intent := Some "error" |}.

(** The statements before the [try]: the start time, the session id and
    the context.  A creation reads the clock three times, a lookup never.
    An exception of [get_or_create_session] is not caught. *)
Definition resolve_session (request : ChatRequest) (w : W) (mgr : ContextManager)
  : string * result ConversationContext * W * ContextManager :=
  let '(start_time, w) := utcnow svc w in
  let '(sid, w) :=
    match req_session_id request with
    | Some s => if String.eqb s EmptyString then generate_session_id svc w else (s, w)
    | None => generate_session_id svc w
    end in
  if dict_contains sid (sessions mgr) then
    let '(mgr, outcome) :=
      get_or_create_session mgr sid (req_language request) 0 0 0 in
    (sid, outcome, w, mgr)
  else
    let '(t_created, w) := utcnow svc w in
    let '(t_updated, w) := utcnow svc w in
    let '(now, w) := utcnow svc w in
    let '(mgr, outcome) :=
      get_or_create_session mgr sid (req_language request) t_created t_updated now in
    (sid, outcome, w, mgr).

(** [process_message]: the answer, or the exception that left the
    function, with the world and the store afterwards. *)
Definition process_message (request : ChatRequest) (w : W) (mgr : ContextManager)
  : result ChatResponse * W * ContextManager :=
  let '(sid, resolved, w, mgr) := resolve_session request w mgr in
  match resolved with
  | Raised e => (Raised e, w, mgr)
  | Ok context =>
      let '(outcome, st) :=
        pipeline request sid {| world := w; store := mgr; conversation := context |} in
      match outcome with
      | Ok chat_response => (Ok chat_response, world st, store st)
      | Raised e => (Ok (error_response request sid), world st, store st)
      end
  end.

End Pipeline.

(** A world to run the pipeline in: the clock ticks once per reading,
    the detector says English, the FAQ collection is empty, and the
    document retrieval is unreachable. *)
Definition sample_services : Services nat :=
  {| utcnow := fun n => (Z.of_nat n, S n);
     generate_session_id := fun n => (sample_sid n, n);
     detect_language := fun _ n =>
       (Ok {| det_success := true; det_language := "en";
              det_confidence := 0.9%float |}, n);
     translate := fun text _ _ n => (Ok text, n);
     get_faqs := fun _ n => ([], n);
     rag_generate_answer := fun _ n => (Raised "ConnectionError", n);
     llm_generate_response := fun _ _ n =>
       (Ok {| llm_success := false; llm_response := None |}, n) |}.

Definition sample_request : ChatRequest :=
  {| req_message := "What is the hostel fee?"; req_language := HINDI;
     req_session_id := Some "s1"; req_user_id := None |}.

Definition sample_context : ConversationContext := new_context "s1" HINDI 10 1 2.

Definition sample_state : PState nat :=
  {| world := 4%nat;
     store := with_sessions context_manager [("s1", sample_context)];
     conversation := sample_context |}.

Definition sample_outcome : result ChatResponse * PState nat :=
  pipeline sample_services ascii_lower ascii_strip_punctuation ascii_split
    ascii_capitalize (fun _ => ∅) sample_request "s1" sample_state.

Definition sample_process : result ChatResponse * nat * ContextManager :=
  process_message sample_services ascii_lower ascii_strip_punctuation ascii_split
    ascii_capitalize (fun _ => ∅) sample_request 0%nat context_manager.

End Chatbot.

(** ** [app/core/context.py]: the remaining methods *)

Module ContextQueries.
Import Py Context Store.

(** The intents [get_dominant_intent] leaves out of the count. *)
Definition not_counted (intent_name : string) : bool :=
  existsb (String.eqb intent_name) ["greeting"; "goodbye"; "general"].

(** [intent_counts[intent] = intent_counts.get(intent, 0) + 1]: a known key
    keeps its place, a new key goes to the end. *)
Fixpoint count_up (counts : list (string * nat)) (intent_name : string)
  : list (string * nat) :=
  match counts with
  | [] => [(intent_name, 1%nat)]
  | (k, n) :: rest =>
      if String.eqb k intent_name then (k, S n) :: rest
      else (k, n) :: count_up rest intent_name
  end.

(** The loop of [get_dominant_intent]. *)
Definition tally (history : list string) : list (string * nat) :=
  fold_left (fun counts intent_name =>
               if not_counted intent_name then counts else count_up counts intent_name)
            history [].

(** [max(intent_counts, key=intent_counts.get)] on integer counts. *)
Fixpoint most_from (best : string) (best_count : nat) (counts : list (string * nat))
  : string :=
  match counts with
  | [] => best
  | (k, n) :: rest =>
      if (best_count <? n)%nat then most_from k n rest
      else most_from best best_count rest
  end.

Definition get_dominant_intent (ctx : ConversationContext) : option string :=
  match intent_history ctx with
  | [] => None
  | _ :: _ =>
      match tally (intent_history ctx) with
      | [] => None
      | (k, n) :: rest => Some (most_from k n rest)
      end
  end.

(** [to_dict].  The two timestamps are written with [isoformat] and read
    back by [from_dict] with [fromisoformat], which returns the same
    instant; both sides are readings here. *)
Definition to_dict (ctx : ConversationContext) : ContextData :=
  {| data_session_id := session_id ctx;
     data_language := Some (language_value (language ctx));
     data_messages := Some (messages ctx);
     data_metadata := Some (metadata ctx);
     data_entities := Some (entities ctx);
     data_intent_history := Some (intent_history ctx);
     data_created_at := created_at ctx;
     data_updated_at := updated_at ctx |}.

End ContextQueries.

(** ** [app/core/context.py] and [app/api/routes/admin.py]: the remaining
       methods of the manager and the admin clean-up *)

Module Manager.
Import Py Context Store.

(** A method call on the context stored under [sid]: the entry is the
    object, so it is the entry that changes. *)
Definition update_entry (sid : string) (f : ConversationContext -> ConversationContext)
    (d : session_dict) : session_dict :=
  map (fun entry => if String.eqb (fst entry) sid then (fst entry, f (snd entry))
                    else entry) d.

(** [ContextManager.add_message]: [LanguageEnum(language)] may raise;
    the context returned by [get_or_create_session] then gets the
    message, whether or not the store still holds it. *)
Definition add_message (mgr : ContextManager) (sid role content language : string)
    (t_created t_updated now t_stamp t_update : time)
  : ContextManager * result unit :=
  match language_of_value language with
  | None => (mgr, Raised "ValueError")
  | Some lang =>
      let '(mgr1, outcome) :=
        get_or_create_session mgr sid lang t_created t_updated now in
      match outcome with
      | Raised e => (mgr1, Raised e)
      | Ok _ =>
          (with_sessions mgr1
             (update_entry sid
                (fun c => Context.add_message c role content (Some language) None
                            t_stamp t_update)
                (sessions mgr1)),
           Ok tt)
      end
  end.

(** [get_conversation_history]: a context object is always truthy. *)
Definition get_conversation_history (mgr : ContextManager) (sid : string) (limit : Z)
  : list Message :=
  match get_session mgr sid with
  | Some context => get_history context limit
  | None => []
  end.

Definition with_language (lang : LanguageEnum) (ctx : ConversationContext)
  : ConversationContext :=
  {| session_id := session_id ctx; language := lang;
     messages := messages ctx; max_messages := max_messages ctx;
     metadata := metadata ctx;
     created_at := created_at ctx; updated_at := updated_at ctx;
     entities := entities ctx; intent_history := intent_history ctx |}.

Definition update_session_language (mgr : ContextManager) (sid : string)
    (lang : LanguageEnum) : ContextManager :=
  match get_session mgr sid with
  | Some _ => with_sessions mgr (update_entry sid (with_language lang) (sessions mgr))
  | None => mgr
  end.

(** [timedelta(hours=h)] in microseconds. *)
Definition hours (h : Z) : Z := h * 3600 * 1000000.

(** One day in microseconds. *)
Definition day : Z := 86400 * 1000000.

(** The readings of the clock count microseconds from [datetime.min],
    0001-01-01T00:00:00; the greatest [datetime] is
    9999-12-31T23:59:59.999999, the last microsecond of day 3652059. *)
Definition datetime_max : time := 3652059 * day - 1.

Definition is_datetime (t : Z) : bool := (0 <=? t) && (t <=? datetime_max).

(** The constructor [timedelta(hours=h)]: the number of whole days, rounded
    down, may not exceed 999999999 either way. *)
Definition timedelta_hours (h : Z) : result Z :=
  if Z.abs (hours h / day) <=? 999999999 then Ok (hours h)
  else Raised "OverflowError".

(** [t - delta] on a [datetime]: the result must be a [datetime]. *)
Definition datetime_sub (t : time) (delta : Z) : result time :=
  if is_datetime (t - delta) then Ok (t - delta) else Raised "OverflowError".

(** The answer of the admin route [clear_old_sessions]. *)
Record Cleared := {
  cleared_sessions : nat;
  remaining_sessions : nat
}.

(** [clear_old_sessions(hours)]: the ids whose context was last updated
    before the cutoff are gathered, then cleared one by one; each one
    counts, whatever [clear_session] answers.  The body is a [try] block:
    an exception, which only the computation of the cutoff can raise,
    becomes an [HTTPException] with status 500, and the store is as it
    was.  The route is declared with [hours >= 1]; the body is modelled
    for every [int]. *)
Definition sessions_to_clear (mgr : ContextManager) (cutoff : time) : list string :=
  map fst (List.filter (fun entry => updated_at (snd entry) <? cutoff) (sessions mgr)).

Definition clear_old_sessions (mgr : ContextManager) (h : Z) (now : time)
  : ContextManager * result Cleared :=
  match timedelta_hours h with
  | Raised _ => (mgr, Raised "HTTPException")
  | Ok delta =>
      match datetime_sub now delta with
      | Raised _ => (mgr, Raised "HTTPException")
      | Ok cutoff =>
          let to_clear := sessions_to_clear mgr cutoff in
          let mgr' := fold_left (fun m sid => fst (clear_session m sid)) to_clear mgr in
          (mgr', Ok {| cleared_sessions := length to_clear;
                       remaining_sessions := get_session_count mgr' |})
      end
  end.

End Manager.

(** ** [app/utils/helpers.py]: pagination and the combined confidence *)

Module Helpers.
Import Py.

(** [l[start:stop]] *)
Definition slice {A : Type} (start stop : Z) (l : list A) : list A :=
  let n := Z.of_nat (length l) in
  let i := if start <? 0 then Z.max (n + start) 0 else Z.min start n in
  let j := if stop <? 0 then Z.max (n + stop) 0 else Z.min stop n in
  firstn (Z.to_nat (j - i)) (skipn (Z.to_nat i) l).

(** The dictionary [paginate] returns. *)
Record Page (A : Type) := {
  page_items : list A;
  page_number : Z;
  page_per_page : Z;
  page_total : Z;
  page_total_pages : Z;
  page_has_next : bool;
  page_has_prev : bool
}.
Arguments page_items {A}.
Arguments page_number {A}.
Arguments page_per_page {A}.
Arguments page_total {A}.
Arguments page_total_pages {A}.
Arguments page_has_next {A}.
Arguments page_has_prev {A}.

(** [paginate]; [//] is floor division and raises for a zero divisor. *)
Definition paginate {A : Type} (items : list A) (page per_page : Z) : result (Page A) :=
  let total := Z.of_nat (length items) in
  if per_page =? 0 then Raised "ZeroDivisionError"
  else
    let total_pages := (total + per_page - 1) / per_page in
    let start := (page - 1) * per_page in
    let stop := start + per_page in
    Ok {| page_items := slice start stop items;
          page_number := page; page_per_page := per_page;
          page_total := total; page_total_pages := total_pages;
          page_has_next := page <? total_pages;
          page_has_prev := 1 <? page |}.

(** Python's two-argument [max(a, b)] on floats: [b] when [b > a]. *)
Definition fmax (a b : float) : float :=
  if PrimFloat.ltb a b then b else a.

(** [calculate_confidence_score] *)
Definition calculate_confidence_score (faq_score rag_score llm_confidence : float)
  : float :=
  let total_score :=
    PrimFloat.add
      (PrimFloat.add (PrimFloat.mul faq_score 0.4%float)
                     (PrimFloat.mul rag_score 0.4%float))
      (PrimFloat.mul llm_confidence 0.2%float) in
  fmin (fmax total_score 0%float) 1%float.

End Helpers.

(** ** [app/core/translation.py]: the language mapping *)

Module Translation.
Import Py.

(** [language_map] of [_map_language]. *)
Definition language_map : list (string * string) :=
  [ ("hin", "hi"); ("tam", "ta"); ("tel", "te");
    ("ben", "bn"); ("mar", "mr"); ("eng", "en") ].

(** [_map_language], for a service built with the given
    [supported_languages] and [default_language]. *)
Definition _map_language (supported_languages : list string) (default_language : string)
    (detected_lang : string) : string :=
  match dict_find language_map detected_lang with
  | Some mapped => mapped
  | None =>
      if existsb (String.eqb detected_lang) supported_languages then detected_lang
      else default_language
  end.

(** [settings.SUPPORTED_LANGUAGES] and [settings.DEFAULT_LANGUAGE] as
    [app/config.py] declares them. *)
Definition SUPPORTED_LANGUAGES : list string := ["en"; "hi"; "ta"; "te"; "bn"; "mr"].
Definition DEFAULT_LANGUAGE : string := "en".

End Translation.

(* ================================================================= *)
(** ** A run of the pipeline that completes *)

Module Greeting.
Import Py Context Store Chatbot.

(** A greeting sent to the sample world: no retrieval is needed. *)
Definition greeting_request : ChatRequest :=
  {| req_message := "hello"; req_language := ENGLISH;
     req_session_id := Some "s1"; req_user_id := None |}.

Definition greeting_outcome : result ChatResponse * PState nat :=
  pipeline sample_services ascii_lower ascii_strip_punctuation ascii_split
    ascii_capitalize (fun _ => ∅) greeting_request "s1" sample_state.

Definition greeting_response : ChatResponse :=
  match fst greeting_outcome with
  | Ok chat_response => chat_response
  | Raised _ => error_response greeting_request "s1"
  end.

End Greeting.

(** ** [app/utils/validators.py]: the language check *)

Module Validators.
Import Py Constants.

(** [validate_language]: the pair (is_valid, error_message). *)
Definition validate_language (language : string) : bool * option string :=
  if String.eqb language EmptyString then (false, Some "Language code is required")
  else if negb (existsb (String.eqb language) (map fst LANGUAGES)) then
    (false, Some ("Invalid language code. Valid codes: "
                  ++ String.concat ", " (map fst LANGUAGES)))
  else (true, None).

End Validators.

(** * Properties *)

(** ** Intent detection *)

Module IntentFacts.
Import Py Constants Intent.

Section Facts.

Variable lower : string -> string.

Lemma max_from_stays best best_val d :
  Forall (fun p => PrimFloat.ltb best_val (snd p) = false) d ->
  max_from best best_val d = best.
Proof.
  induction 1 as [| [k v] rest Hv _ IH]; simpl; [reflexivity |].
  simpl in Hv. rewrite Hv. exact IH.
Qed.

Lemma scan_scores_all (P : float -> Prop) table text_lower :
  (forall name keywords, In (name, keywords) table ->
     P (score_of name (find_matches lower keywords text_lower))) ->
  Forall (fun p => P (snd p)) (fst (scan lower table text_lower)).
Proof.
  induction table as [| [name keywords] rest IH]; intros HP; simpl.
  - constructor.
  - destruct (scan lower rest text_lower) as [scores matched] eqn:Hscan.
    assert (Hrest : Forall (fun p => P (snd p)) scores).
    { apply IH. intros n k Hin. apply HP. right. exact Hin. }
    destruct (find_matches lower keywords text_lower) as [| m ms] eqn:Hm; simpl.
    + exact Hrest.
    + constructor; [| exact Hrest]. simpl. rewrite <- Hm. apply HP. left. reflexivity.
Qed.

Lemma scan_no_match table text_lower :
  (forall name keywords keyword, In (name, keywords) table -> In keyword keywords ->
     str_contains (lower keyword) text_lower = false) ->
  scan lower table text_lower = ([], []).
Proof.
  induction table as [| [name keywords] rest IH]; intros Hno; simpl; [reflexivity |].
  rewrite IH by (intros n k kw Hin Hkw; apply (Hno n k kw); [right; exact Hin | exact Hkw]).
  assert (Hm : find_matches lower keywords text_lower = []).
  { unfold find_matches.
    assert (Hk : forall kw, In kw keywords -> str_contains (lower kw) text_lower = false)
      by (intros kw Hkw; apply (Hno name keywords kw); [left; reflexivity | exact Hkw]).
    clear -Hk. induction keywords as [| kw kws IHk]; simpl; [reflexivity |].
    rewrite (Hk kw) by (left; reflexivity).
    apply IHk. intros kw' Hin. apply Hk. right. exact Hin. }
  rewrite Hm. reflexivity.
Qed.

(** C10. The empty text is answered before any keyword is looked at:
    intent "general", confidence 0.0, no matched keyword; this is not the
    0.5 of the no-keyword default. *)
Theorem detect_intent_empty_text :
  detect_intent lower EmptyString =
    {| intent := "general"; confidence := 0%float;
       matched_keywords := []; all_matches := None |}
  /\ PrimFloat.eqb (confidence (detect_intent lower EmptyString)) 0.5%float = false.
Proof. split; reflexivity. Qed.

(** C6 (amended). For every non-empty text in which no keyword of any
    intent of the table occurs as a case-insensitive substring,
    [detect_intent] returns intent "general" with confidence 0.5. *)
Theorem detect_intent_no_keyword text :
  text <> EmptyString ->
  (forall name keywords keyword,
     In (name, keywords) INTENT_KEYWORDS -> In keyword keywords ->
     str_contains (lower keyword) (lower text) = false) ->
  intent (detect_intent lower text) = "general"
  /\ confidence (detect_intent lower text) = 0.5%float
  /\ matched_keywords (detect_intent lower text) = [].
Proof.
  intros Hne Hno. unfold detect_intent.
  destruct (String.eqb_spec text EmptyString) as [-> | _]; [congruence |].
  rewrite (scan_no_match INTENT_KEYWORDS (lower text) Hno). simpl. auto.
Qed.

(** C1 (amended). When exactly one greeting keyword occurs in a non-empty
    text and no other intent has a higher priority-weighted match count,
    [detect_intent] returns "greeting"; the confidence is the score 1.0
    divided by the eleven greeting keywords, 1/11, not 1.0. *)
Theorem detect_intent_single_greeting text :
  text <> EmptyString ->
  length (find_matches lower greeting_keywords (lower text)) = 1%nat ->
  (forall name keywords,
     In (name, keywords) INTENT_KEYWORDS -> name <> "greeting" ->
     PrimFloat.ltb
       (score_of "greeting" (find_matches lower greeting_keywords (lower text)))
       (score_of name (find_matches lower keywords (lower text))) = false) ->
  intent (detect_intent lower text) = "greeting"
  /\ confidence (detect_intent lower text) = PrimFloat.div 1%float 11%float
  /\ matched_keywords (detect_intent lower text)
     = find_matches lower greeting_keywords (lower text).
Proof.
  intros Hne Hone Hothers. unfold detect_intent.
  destruct (String.eqb_spec text EmptyString) as [-> | _]; [congruence |].
  set (t := lower text) in *.
  unfold INTENT_KEYWORDS in *.
  match goal with
  | |- context [scan lower (?g :: ?rest) t] =>
      pose proof (scan_scores_all
        (fun v => PrimFloat.ltb
           (score_of "greeting" (find_matches lower greeting_keywords t)) v = false)
        rest t) as Hrest;
      change (scan lower (g :: rest) t) with
        (let matches := find_matches lower greeting_keywords t in
         let '(scores, matched) := scan lower rest t in
         match matches with
         | [] => (scores, matched)
         | _ :: _ => (("greeting", score_of "greeting" matches) :: scores,
                      ("greeting", matches) :: matched)
         end);
      destruct (scan lower rest t) as [scores matched]
  end.
  simpl in Hrest.
  assert (Hall : Forall (fun p => PrimFloat.ltb
             (score_of "greeting" (find_matches lower greeting_keywords t)) (snd p) = false)
             scores).
  { apply Hrest. intros name keywords Hin. apply Hothers.
    - right. exact Hin.
    - intuition (try discriminate; match goal with H : (_, _) = (_, _) |- _ => inversion H; subst; discriminate end). }
  cbv zeta.
  destruct (find_matches lower greeting_keywords t) as [| m [| m' ms]] eqn:Hm;
    simpl in Hone; try discriminate.
  cbn [max_key]. rewrite (max_from_stays _ _ _ Hall).
  cbn [intent confidence matched_keywords dict_get String.eqb Ascii.eqb Bool.eqb].
  repeat split.
Qed.

Lemma human_phrase_found text conf keyword :
  In keyword human_required_keywords ->
  str_contains keyword (lower text) = true ->
  needs_human_fallback lower text conf = true.
Proof.
  intros Hin Hc. unfold needs_human_fallback.
  assert (Hex : existsb (fun kw => str_contains kw (lower text))
            human_required_keywords = true)
    by (apply existsb_exists; exists keyword; auto).
  rewrite Hex. reflexivity.
Qed.

(** C7. [needs_human_fallback] answers true exactly when the lowered text
    contains one of the fixed phrases or the confidence is below 0.3; a
    text whose lowered form contains "speak to someone" is answered true
    whatever the confidence. *)
Theorem needs_human_fallback_iff text conf :
  (needs_human_fallback lower text conf = true <->
     (exists keyword, In keyword human_required_keywords /\
                      str_contains keyword (lower text) = true)
     \/ PrimFloat.ltb conf 0.3%float = true)
  /\ (str_contains "speak to someone" (lower text) = true ->
      needs_human_fallback lower text conf = true).
Proof.
  unfold needs_human_fallback. split.
  - destruct (existsb _ human_required_keywords) eqn:Hex.
    + split; [intros _ | reflexivity]. left.
      apply existsb_exists in Hex. exact Hex.
    + destruct (PrimFloat.ltb conf 0.3%float) eqn:Hlt.
      * split; [intros _; right | ]; reflexivity.
      * split; [discriminate |]. intros [[kw [Hin Hc]] | Hl]; [| discriminate].
        assert (existsb (fun keyword => str_contains keyword (lower text))
                  human_required_keywords = true)
          by (apply existsb_exists; exists kw; auto).
        congruence.
  - intros Hc. apply (human_phrase_found text conf "speak to someone"); [| exact Hc].
    left. reflexivity.
Qed.

End Facts.

(** The keyword table is already in lower case for [ascii_lower]. *)
Lemma ascii_lower_prefix needle text :
  String.prefix needle text = true ->
  String.prefix (ascii_lower needle) (ascii_lower text) = true.
Proof.
  revert text. induction needle as [| c needle IH]; intros [| d text]; simpl;
    try reflexivity; try discriminate.
  destruct (Ascii.ascii_dec c d) as [-> | Hne]; [| discriminate].
  intros H. destruct (Ascii.ascii_dec _ _); [apply IH; exact H | congruence].
Qed.

Lemma ascii_lower_contains needle text :
  str_contains needle text = true ->
  str_contains (ascii_lower needle) (ascii_lower text) = true.
Proof.
  induction text as [| d text IH]; intros H.
  - destruct needle; [reflexivity | discriminate H].
  - cbn [str_contains] in H. apply orb_true_iff in H.
    cbn [ascii_lower str_contains]. apply orb_true_iff.
    destruct H as [H | H].
    + left. apply (ascii_lower_prefix needle (String d text)) in H. exact H.
    + right. apply IH. exact H.
Qed.

(** With the ASCII instance of [str.lower], a message that literally
    contains "speak to someone" needs a human at any confidence. *)
Lemma speak_to_someone_literal text conf :
  str_contains "speak to someone" text = true ->
  needs_human_fallback ascii_lower text conf = true.
Proof.
  intros H. apply (human_phrase_found ascii_lower text conf "speak to someone").
  - left. reflexivity.
  - apply (ascii_lower_contains "speak to someone" text H).
Qed.

Example needs_human_low_confidence :
  needs_human_fallback ascii_lower "what is the fee" 0.29%float = true
  /\ needs_human_fallback ascii_lower "what is the fee" 0.3%float = false
  /\ needs_human_fallback ascii_lower "I want to SPEAK to someone" 1%float = true.
Proof. repeat split. Qed.

(** C1, as stated, fails on the text "hello": the confidence is 1/11. *)
Lemma detect_intent_hello_not_certain :
  (forall name keywords,
     In (name, keywords) INTENT_KEYWORDS -> name <> "greeting" ->
     find_matches ascii_lower keywords (ascii_lower "hello") = [])
  /\ find_matches ascii_lower greeting_keywords (ascii_lower "hello") = ["hello"]
  /\ intent (detect_intent ascii_lower "hello") = "greeting"
  /\ confidence (detect_intent ascii_lower "hello") = 0x1.745d1745d1746p-4%float
  /\ confidence (detect_intent ascii_lower "hello") <> 1%float.
Proof.
  split; [| split; [| split; [| split]]]; try reflexivity.
  - intros name keywords Hin Hne. simpl in Hin.
    repeat (destruct Hin as [Heq | Hin];
            [inversion Heq; subst; try congruence; reflexivity |]).
    contradiction.
  - intros H. apply (f_equal (fun x => PrimFloat.ltb x 0.5%float)) in H.
    vm_compute in H. discriminate.
Qed.

(** Each greeting keyword, sent alone, is such a text. *)
Example every_greeting_keyword_alone :
  Forall (fun keyword =>
            intent (detect_intent ascii_lower keyword) = "greeting"
            /\ confidence (detect_intent ascii_lower keyword)
               = PrimFloat.div 1%float 11%float
            /\ matched_keywords (detect_intent ascii_lower keyword) = [keyword])
         greeting_keywords.
Proof. repeat constructor. Qed.

Lemma detect_intent_single_greeting_witness :
  intent (detect_intent ascii_lower "hello") = "greeting"
  /\ confidence (detect_intent ascii_lower "hello") = PrimFloat.div 1%float 11%float
  /\ matched_keywords (detect_intent ascii_lower "hello")
     = find_matches ascii_lower greeting_keywords (ascii_lower "hello").
Proof.
  apply (detect_intent_single_greeting ascii_lower "hello").
  - discriminate.
  - reflexivity.
  - intros name keywords Hin Hne. simpl in Hin.
    repeat (destruct Hin as [Heq | Hin];
            [inversion Heq; subst; try congruence; reflexivity |]).
    contradiction.
Defined.

(** C6, as stated, fails on the empty text: no keyword occurs in it, and
    the confidence is 0.0. *)
Lemma detect_intent_empty_not_default :
  (forall name keywords keyword,
     In (name, keywords) INTENT_KEYWORDS -> In keyword keywords ->
     str_contains (ascii_lower keyword) (ascii_lower EmptyString) = false)
  /\ confidence (detect_intent ascii_lower EmptyString) <> 0.5%float.
Proof.
  split.
  - intros name keywords keyword Hin Hkw.
    assert (Hall : forallb (fun entry =>
              forallb (fun kw => negb (str_contains (ascii_lower kw) (ascii_lower EmptyString)))
                      (snd entry)) INTENT_KEYWORDS = true) by reflexivity.
    rewrite forallb_forall in Hall. specialize (Hall _ Hin). simpl in Hall.
    rewrite forallb_forall in Hall. specialize (Hall _ Hkw).
    apply negb_true_iff in Hall. exact Hall.
  - intros H. apply (f_equal (fun x => PrimFloat.ltb x 0.25%float)) in H.
    vm_compute in H. discriminate.
Qed.

Lemma detect_intent_no_keyword_witness :
  intent (detect_intent ascii_lower "xyz") = "general"
  /\ confidence (detect_intent ascii_lower "xyz") = 0.5%float
  /\ matched_keywords (detect_intent ascii_lower "xyz") = [].
Proof.
  apply (detect_intent_no_keyword ascii_lower "xyz").
  - discriminate.
  - intros name keywords keyword Hin Hkw.
    assert (Hall : forallb (fun entry =>
              forallb (fun kw => negb (str_contains (ascii_lower kw) (ascii_lower "xyz")))
                      (snd entry)) INTENT_KEYWORDS = true) by reflexivity.
    rewrite forallb_forall in Hall. specialize (Hall _ Hin). simpl in Hall.
    rewrite forallb_forall in Hall. specialize (Hall _ Hkw).
    apply negb_true_iff in Hall. exact Hall.
Defined.

End IntentFacts.

(** ** Conversation context *)

Module ContextFacts.
Import Py Context.

Lemma slice_from_last {A : Type} (m : Z) (l : list A) :
  0 <= m <= Z.of_nat (length l) ->
  Z.of_nat (length (slice_from (- m) l)) = if m =? 0 then Z.of_nat (length l) else m.
Proof.
  intros Hm. unfold slice_from. rewrite length_skipn.
  destruct (Z.eqb_spec m 0), (Z.ltb_spec (- m) 0); lia.
Qed.

Lemma add_message_bounded ctx r c l md t1 t2 :
  1 <= max_messages ctx ->
  Z.of_nat (length (messages (add_message ctx r c l md t1 t2))) <= max_messages ctx.
Proof.
  intros Hmax. unfold add_message. cbn [messages].
  set (appended := (messages ctx ++ _)%list).
  destruct (Z.gtb_spec (Z.of_nat (length appended)) (max_messages ctx)) as [Hgt | Hle].
  - rewrite slice_from_last by lia.
    destruct (Z.eqb_spec (max_messages ctx) 0); lia.
  - exact Hle.
Qed.

Lemma add_intent_bounded ctx i :
  (length (intent_history (add_intent ctx i)) <= 5)%nat.
Proof.
  unfold add_intent. cbn [intent_history].
  set (appended := (intent_history ctx ++ _)%list).
  destruct (Nat.ltb_spec 5 (length appended)) as [Hgt | Hle]; [| exact Hle].
  pose proof (slice_from_last 5 appended) as H. simpl (5 =? 0) in H.
  change (- (5)) with (-5) in H. lia.
Qed.

Lemma apply_op_max_messages ctx op :
  max_messages (apply_op ctx op) = max_messages ctx.
Proof. destruct op; reflexivity. Qed.

Lemma apply_op_created_at ctx op :
  created_at (apply_op ctx op) = created_at ctx.
Proof. destruct op; reflexivity. Qed.

(** One step: each operation re-establishes the invariant. *)
Lemma apply_op_invariant ctx op :
  1 <= max_messages ctx ->
  Forall (fun t => created_at ctx <= t) (op_readings op) ->
  invariant ctx -> invariant (apply_op ctx op).
Proof.
  intros Hmax Hclock (Hmsgs & Hint & Htime).
  destruct op as [r c l md t1 t2 | c l t1 t2 | c l s cf t1 t2 | e t | i];
    cbn [apply_op op_readings] in *.
  - inversion Hclock as [| ? ? _ Hrest]; subst. inversion Hrest; subst.
    split; [exact (add_message_bounded ctx r c l md t1 t2 Hmax) |].
    split; assumption.
  - inversion Hclock as [| ? ? _ Hrest]; subst. inversion Hrest; subst.
    split; [exact (add_message_bounded ctx "user" c l None t1 t2 Hmax) |].
    split; assumption.
  - inversion Hclock as [| ? ? _ Hrest]; subst. inversion Hrest; subst.
    split; [exact (add_message_bounded ctx "assistant" c l (Some _) t1 t2 Hmax) |].
    split; assumption.
  - inversion Hclock; subst. repeat split; assumption.
  - split; [exact Hmsgs |]. split; [apply add_intent_bounded | exact Htime].
Qed.

Lemma run_ops_invariant ops : forall ctx,
  1 <= max_messages ctx ->
  Forall (fun op => Forall (fun t => created_at ctx <= t) (op_readings op)) ops ->
  invariant ctx -> invariant (run_ops ctx ops).
Proof.
  induction ops as [| op ops IH]; intros ctx Hmax Hclock Hinv; [exact Hinv |].
  inversion Hclock as [| ? ? Hop Hops]; subst. cbn [run_ops fold_left].
  apply IH.
  - rewrite apply_op_max_messages. exact Hmax.
  - rewrite apply_op_created_at. exact Hops.
  - apply apply_op_invariant; assumption.
Qed.

Lemma new_context_invariant sid lang max_msgs t_created t_updated :
  0 <= max_msgs -> t_created <= t_updated ->
  invariant (new_context sid lang max_msgs t_created t_updated).
Proof. intros Hmax Ht. unfold invariant. cbn. repeat split; [lia | lia | exact Ht]. Qed.

(** C9 (amended). For a context built with [max_messages >= 1] and a clock
    that never reads earlier than the creation time, the three invariants
    hold after each operation of every sequence of [add_message],
    [add_user_message], [add_assistant_message], [update_entities] and
    [add_intent]. *)
Theorem invariant_after_each_operation
    sid lang max_msgs t_created t_updated (ops : list Op) (n : nat) :
  1 <= max_msgs ->
  t_created <= t_updated ->
  Forall (fun op => Forall (fun t => t_created <= t) (op_readings op)) ops ->
  invariant (run_ops (new_context sid lang max_msgs t_created t_updated) (firstn n ops)).
Proof.
  intros Hmax Ht Hclock. apply run_ops_invariant.
  - exact Hmax.
  - cbn [created_at new_context]. rewrite List.Forall_forall in *.
    intros op Hin. apply Hclock.
    rewrite <- (firstn_skipn n ops). apply in_or_app. left. exact Hin.
  - apply new_context_invariant; [lia | exact Ht].
Qed.

(** The sibling mutators store the clock reading of the call in
    [updated_at]. *)
Lemma mutations_and_updated_at ctx :
  (forall content lang t_stamp now,
     updated_at (add_user_message ctx content lang t_stamp now) = now)
  /\ (forall content lang sources conf t_stamp now,
        updated_at (add_assistant_message ctx content lang sources conf t_stamp now) = now)
  /\ (forall new_entities now,
        updated_at (update_entities ctx new_entities now) = now).
Proof. repeat split. Qed.

(** C2 fails on the code for [add_intent]: it leaves [updated_at] as it
    was.  A context last updated at reading 100 still says 100 after an
    [add_intent] made at the later reading 200, while [update_entities]
    made at 200 stores 200. *)
Theorem add_intent_keeps_updated_at :
  updated_at (add_intent (new_context "s1" ENGLISH 10 100 100) "fee_query") = 100
  /\ updated_at (update_entities (new_context "s1" ENGLISH 10 100 100) ∅ 200) = 200
  /\ (forall ctx intent_name, updated_at (add_intent ctx intent_name) = updated_at ctx)
  /\ ~ (forall ctx intent_name (now : time),
          updated_at ctx <= now -> updated_at (add_intent ctx intent_name) = now).
Proof.
  split; [reflexivity |]. split; [reflexivity |]. split; [reflexivity |]. intros H.
  specialize (H (new_context "s1" ENGLISH 10 100 100) "fee_query" 200).
  cbn in H. lia.
Qed.

(** C9, as stated, fails for [max_messages = 0]: [messages[-0:]] is the
    whole list, so the appended message stays; and for a negative
    [max_messages] no list is short enough. *)
Lemma zero_max_messages_not_enforced :
  length (messages (run_ops (new_context "s1" ENGLISH 0 0 0)
                            [OpAddUserMessage "hello" None 1 1])) = 1%nat
  /\ ~ invariant (run_ops (new_context "s1" ENGLISH 0 0 0)
                          [OpAddUserMessage "hello" None 1 1])
  /\ ~ invariant (run_ops (new_context "s1" ENGLISH (-1) 0 0) [OpAddIntent "greeting"]).
Proof.
  split; [reflexivity |].
  split; intros [H _]; vm_compute in H; apply H; reflexivity.
Qed.

(** A context read back by [from_dict] carries whatever the dictionary
    held, so it can start outside the invariant; the theorem above is
    about contexts made by the constructor. *)
Example loaded_context_may_exceed_bound :
  exists ctx,
    from_dict {| data_session_id := "s1"; data_language := None;
                 data_messages := None; data_metadata := None;
                 data_entities := None;
                 data_intent_history := Some ["a"; "b"; "c"; "d"; "e"; "f"];
                 data_created_at := 100; data_updated_at := 100 |} = Ok ctx
    /\ length (intent_history ctx) = 6%nat.
Proof. eexists. split; reflexivity. Qed.

Lemma invariant_after_each_operation_witness :
  invariant
    (run_ops (new_context "s1" ENGLISH 2 10 10)
       (firstn 4
          [OpAddIntent "greeting";
           OpAddUserMessage "hello" (Some "en") 11 11;
           OpAddAssistantMessage "Hello! How can I help you today?" (Some "en")
             None (Some 1%float) 12 12;
           OpUpdateEntities ∅ 13;
           OpAddMessage "user" "what is the fee" None None 14 15])).
Proof.
  apply invariant_after_each_operation.
  - lia.
  - lia.
  - repeat (constructor; try lia).
Defined.

Example trimming_keeps_the_last :
  map content
    (messages (run_ops (new_context "s1" ENGLISH 2 10 10)
       [OpAddUserMessage "one" None 11 11;
        OpAddUserMessage "two" None 12 12;
        OpAddUserMessage "three" None 13 13]))
  = ["two"; "three"].
Proof. reflexivity. Qed.

End ContextFacts.

(** ** Session store *)

Module StoreFacts.
Import Py Context Store.

Lemma dict_contains_keys sid (d : session_dict) :
  ~ In sid (map fst d) -> dict_contains sid d = false.
Proof.
  induction d as [| [k ctx] rest IH]; simpl; intros Hnot; [reflexivity |].
  destruct (String.eqb_spec k sid) as [-> | _]; [tauto |].
  simpl. apply IH. tauto.
Qed.

Lemma dict_lookup_keys sid (d : session_dict) :
  ~ In sid (map fst d) -> dict_lookup sid d = None.
Proof.
  induction d as [| [k ctx] rest IH]; simpl; intros Hnot; [reflexivity |].
  destruct (String.eqb_spec k sid) as [-> | _]; [tauto |].
  apply IH. tauto.
Qed.

Lemma dict_lookup_in sid ctx (d : session_dict) :
  dict_lookup sid d = Some ctx -> In (sid, ctx) d.
Proof.
  induction d as [| [k c] rest IH]; simpl; [discriminate |].
  destruct (String.eqb_spec k sid) as [-> | _].
  - intros [= ->]. left. reflexivity.
  - intros H. right. apply IH. exact H.
Qed.

Lemma dict_delete_lookup sid (d : session_dict) :
  dict_lookup sid (dict_delete sid d) = None.
Proof.
  apply dict_lookup_keys. intros Hin. apply in_map_iff in Hin.
  destruct Hin as [[k c] [Hk Hin]]. simpl in Hk. subst k.
  unfold dict_delete in Hin. apply filter_In in Hin. destruct Hin as [_ Hneq].
  simpl in Hneq. rewrite String.eqb_refl in Hneq. discriminate.
Qed.

Lemma dict_delete_keys sid other (d : session_dict) :
  In sid (map fst (dict_delete other d)) -> In sid (map fst d).
Proof.
  intros Hin. apply in_map_iff in Hin. destruct Hin as [e [He Hin]].
  apply filter_In in Hin. apply in_map_iff. exists e. tauto.
Qed.

Lemma evict_oldest_fits max_sess (d : session_dict) :
  Z.of_nat (length d) <= max_sess -> evict_oldest max_sess d = (d, Ok tt).
Proof.
  intros Hle. destruct d as [| e rest]; cbn [evict_oldest];
    destruct (Z.gtb_spec (Z.of_nat (length (A:=string * ConversationContext) [])) max_sess);
    destruct (Z.gtb_spec (Z.of_nat (length (e :: rest))) max_sess) || idtac;
    try reflexivity; try lia.
Qed.

(** Evicting only ever removes entries from the front. *)
Lemma evict_oldest_suffix max_sess (d : session_dict) :
  exists dropped, d = (dropped ++ fst (evict_oldest max_sess d))%list.
Proof.
  induction d as [| e rest IH].
  - exists []. cbn [evict_oldest]. destruct (_ >? _); reflexivity.
  - cbn [evict_oldest].
    destruct (Z.of_nat (length (e :: rest)) >? max_sess).
    + destruct IH as [dropped Hd]. exists (e :: dropped). simpl. f_equal. exact Hd.
    + exists []. reflexivity.
Qed.

Lemma nothing_expired (mgr : ContextManager) now t0 :
  now - t0 <= session_timeout mgr ->
  Forall (fun entry => t0 <= updated_at (snd entry)) (sessions mgr) ->
  expired_ids mgr now = [].
Proof.
  intros Hnow Hall. unfold expired_ids.
  induction Hall as [| e rest He _ IH]; simpl; [reflexivity |].
  destruct (Z.gtb_spec (now - updated_at (snd e)) (session_timeout mgr)); [lia | exact IH].
Qed.

Lemma skipn_tail {A : Type} (k : nat) (l : list A) :
  tl (skipn k l) = skipn (S k) l.
Proof.
  revert k. induction l as [| x l IH]; intros [| k]; simpl; try reflexivity.
  apply IH.
Qed.

Section Ceiling.

(** A store with ceiling [M >= 1] and idle timeout [T], used during a
    window of time that starts at [t0] and is no longer than [T]. *)
Variables (M T t0 : Z).
Hypothesis M_positive : 1 <= M.

Lemma creation_step mgr ids c :
  holds_last M T t0 mgr ids ->
  ~ In (call_sid c) ids ->
  in_window T t0 c ->
  holds_last M T t0 (fst (do_call mgr c)) (ids ++ [call_sid c])
  /\ exists ctx, snd (do_call mgr c) = Ok ctx.
Proof.
  intros (HM & HT & Hkeys & Hfresh) Hnew [Hupd Hnow].
  unfold do_call, get_or_create_session.
  rewrite dict_contains_keys.
  2:{ rewrite Hkeys. intros Hin. apply Hnew.
      rewrite <- (firstn_skipn (length ids - Z.to_nat M) ids).
      apply in_or_app. right. exact Hin. }
  set (context := new_context (call_sid c) (call_language c) 10
                    (call_created c) (call_updated c)).
  set (mgr1 := with_sessions mgr (dict_append (call_sid c) context (sessions mgr))).
  assert (Hfresh1 : Forall (fun entry => t0 <= updated_at (snd entry)) (sessions mgr1)).
  { cbn [mgr1 with_sessions sessions]. unfold dict_append.
    apply Forall_app. split; [exact Hfresh |]. constructor; [exact Hupd | constructor]. }
  unfold _cleanup_old_sessions.
  rewrite (nothing_expired mgr1 (call_now c) t0) by
    first [exact Hfresh1 | cbn [mgr1 with_sessions session_timeout]; lia].
  cbn [fold_left]. subst mgr1. cbn [with_sessions sessions max_sessions] in *.
  rewrite HM. unfold dict_append in *.
  assert (Hlen : length (sessions mgr) = length (skipn (length ids - Z.to_nat M) ids))
    by (rewrite <- Hkeys, length_map; reflexivity).
  rewrite length_skipn in Hlen.
  destruct (Nat.lt_ge_cases (length ids) (Z.to_nat M)) as [Hsmall | Hfull].
  - (* below the ceiling: nothing is evicted *)
    rewrite evict_oldest_fits by (rewrite length_app; simpl; lia).
    split; [| exists context; reflexivity].
    unfold holds_last. cbn [fst with_sessions sessions max_sessions session_timeout].
    repeat split; try assumption.
    rewrite map_app, Hkeys. simpl.
    replace (length ids - Z.to_nat M)%nat with 0%nat by lia.
    rewrite length_app. simpl.
    replace (length ids + 1 - Z.to_nat M)%nat with 0%nat by lia.
    reflexivity.
  - (* at the ceiling: the oldest entry goes *)
    destruct (sessions mgr) as [| oldest rest] eqn:Hsess; [simpl in Hlen; lia |].
    simpl in Hlen.
    change ((oldest :: rest) ++ [(call_sid c, context)])%list
      with (oldest :: (rest ++ [(call_sid c, context)]))%list.
    cbn [evict_oldest].
    destruct (Z.gtb_spec (Z.of_nat (length (oldest :: (rest ++ [(call_sid c, context)])%list))) M)
      as [_ | Hno]; [| rewrite length_cons, length_app in Hno; simpl in Hno; lia].
    rewrite evict_oldest_fits by (rewrite length_app; simpl; lia).
    split; [| exists context; reflexivity].
    unfold holds_last. cbn [fst with_sessions sessions max_sessions session_timeout].
    repeat split; try assumption.
    + rewrite map_app. simpl.
      assert (Hrest : map fst rest = skipn (S (length ids - Z.to_nat M)) ids).
      { rewrite <- skipn_tail, <- Hkeys. reflexivity. }
      rewrite Hrest, length_app. simpl.
      replace (length ids + 1 - Z.to_nat M)%nat with (S (length ids - Z.to_nat M)) by lia.
      rewrite skipn_app.
      replace (S (length ids - Z.to_nat M) - length ids)%nat with 0%nat by lia.
      reflexivity.
    + inversion Hfresh1 as [| ? ? _ Htail]; subst. exact Htail.
Qed.

Lemma run_calls_holds_last calls : forall mgr ids,
  holds_last M T t0 mgr ids ->
  List.NoDup (ids ++ map call_sid calls) ->
  Forall (in_window T t0) calls ->
  holds_last M T t0 (run_calls mgr calls) (ids ++ map call_sid calls).
Proof.
  induction calls as [| c calls IH]; intros mgr ids Hgood Hnodup Hwin.
  - simpl. rewrite app_nil_r. exact Hgood.
  - inversion Hwin as [| ? ? Hc Hrest]; subst.
    cbn [map] in *.
    assert (Heq : (ids ++ call_sid c :: map call_sid calls)%list
                  = ((ids ++ [call_sid c]) ++ map call_sid calls)%list)
      by (rewrite <- app_assoc; reflexivity).
    rewrite Heq in *.
    change (run_calls mgr (c :: calls)) with (run_calls (fst (do_call mgr c)) calls).
    apply IH; [| exact Hnodup | exact Hrest].
    apply creation_step; [exact Hgood | | exact Hc].
    intros Hin. apply List.NoDup_app_remove_r in Hnodup.
    apply List.NoDup_remove_2 in Hnodup. rewrite app_nil_r in Hnodup. tauto.
Qed.

End Ceiling.

Lemma nodupb_sound l : nodupb l = true -> List.NoDup l.
Proof.
  induction l as [| x rest IH]; simpl; intros H; constructor.
  - apply andb_true_iff in H. destruct H as [Hx _].
    intros Hin. apply negb_true_iff in Hx.
    assert (existsb (String.eqb x) rest = true)
      by (apply existsb_exists; exists x; split; [exact Hin | apply String.eqb_refl]).
    congruence.
  - apply IH. apply andb_true_iff in H. tauto.
Qed.

Lemma context_manager_empty t0 :
  holds_last 1000 (session_timeout context_manager) t0 context_manager [].
Proof. repeat split. constructor. Qed.

Lemma prefix_holds_last t0 (pre post : list Call) :
  List.NoDup (map call_sid (pre ++ post)) ->
  Forall (in_window (session_timeout context_manager) t0) (pre ++ post) ->
  holds_last 1000 (session_timeout context_manager) t0
    (run_calls context_manager pre) (map call_sid pre).
Proof.
  intros Hnodup Hwin. rewrite map_app in Hnodup.
  apply List.NoDup_app_remove_r in Hnodup. apply Forall_app in Hwin.
  apply (run_calls_holds_last 1000 (session_timeout context_manager) t0 ltac:(lia)
           pre context_manager []); [apply context_manager_empty | exact Hnodup | tauto].
Qed.

Lemma holds_last_count M T t0 mgr ids :
  0 <= M -> holds_last M T t0 mgr ids -> Z.of_nat (get_session_count mgr) <= M.
Proof.
  intros HM (_ & _ & Hkeys & _). unfold get_session_count.
  rewrite <- (length_map fst), Hkeys, length_skipn. lia.
Qed.

(** C4. Starting from the empty store with ceiling 1000, 1001 creations
    with distinct ids, all within one idle-timeout window, each return a
    context; the count is at most 1000 after every one of them, and the
    first id is absent at the end. *)
Theorem ceiling_after_1001_creations (calls : list Call) (t0 : time) :
  length calls = 1001%nat ->
  List.NoDup (map call_sid calls) ->
  Forall (fun c => t0 <= call_updated c
                   /\ call_now c - t0 <= session_timeout context_manager) calls ->
  (forall n, (get_session_count (run_calls context_manager (firstn n calls)) <= 1000)%nat)
  /\ (forall pre c post, calls = (pre ++ c :: post)%list ->
        exists ctx, snd (do_call (run_calls context_manager pre) c) = Ok ctx)
  /\ (forall first, hd_error calls = Some first ->
        get_session (run_calls context_manager calls) (call_sid first) = None).
Proof.
  intros Hlen Hnodup Hwin. split; [| split].
  - intros n.
    pose proof (prefix_holds_last t0 (firstn n calls) (skipn n calls)) as Hpre.
    rewrite firstn_skipn in Hpre. specialize (Hpre Hnodup Hwin).
    apply holds_last_count in Hpre; lia.
  - intros pre c post ->.
    pose proof (prefix_holds_last t0 pre (c :: post) Hnodup Hwin) as Hpre.
    apply (creation_step 1000 (session_timeout context_manager) t0 ltac:(lia)
             _ _ c Hpre).
    + rewrite map_app in Hnodup. cbn [map] in Hnodup.
      apply List.NoDup_remove_2 in Hnodup. intros Hin. apply Hnodup.
      apply in_or_app. left. exact Hin.
    + apply Forall_app in Hwin. destruct Hwin as [_ Hc].
      inversion Hc; subst. assumption.
  - intros first Hfirst. destruct calls as [| c rest]; [discriminate |].
    injection Hfirst as ->.
    pose proof (prefix_holds_last t0 (first :: rest) []) as Hall.
    rewrite app_nil_r in Hall. specialize (Hall Hnodup Hwin).
    destruct Hall as (_ & _ & Hkeys & _).
    unfold get_session. apply dict_lookup_keys. rewrite Hkeys.
    rewrite length_map, Hlen.
    change (1001 - Z.to_nat 1000)%nat with 1%nat.
    cbn [map skipn]. cbn [map] in Hnodup. inversion Hnodup; subst. assumption.
Qed.

Lemma fold_delete_keys (expired : list string) : forall (d : session_dict) sid,
  In sid (map fst (fold_left (fun d k => dict_delete k d) expired d)) ->
  In sid (map fst d) /\ ~ In sid expired.
Proof.
  induction expired as [| k expired IH]; intros d sid Hin; simpl in *.
  - tauto.
  - apply IH in Hin. destruct Hin as [Hin Hnot]. split.
    + eapply dict_delete_keys. exact Hin.
    + intros [-> | Hexp]; [| tauto].
      apply in_map_iff in Hin. destruct Hin as [[k' c] [Hk Hin]]. simpl in Hk. subst k'.
      apply filter_In in Hin. destruct Hin as [_ Hneq]. simpl in Hneq.
      rewrite String.eqb_refl in Hneq. discriminate.
Qed.

Lemma dict_lookup_contains sid (d : session_dict) :
  dict_lookup sid d = None -> dict_contains sid d = false.
Proof.
  induction d as [| [k c] rest IH]; simpl; [reflexivity |].
  destruct (String.eqb k sid); [discriminate | exact IH].
Qed.

(** C5 (amended). A session whose [updated_at] is older than the current
    time minus the idle timeout is removed by the next call of
    [get_or_create_session] that creates a session, that is, a call for an
    id the store does not hold; the count and the ceiling play no part. *)
Theorem idle_session_evicted_on_creation
    mgr idle ctx sid lang (t_created t_updated now : time) :
  get_session mgr idle = Some ctx ->
  updated_at ctx < now - session_timeout mgr ->
  get_session mgr sid = None ->
  get_session (fst (get_or_create_session mgr sid lang t_created t_updated now)) idle
  = None.
Proof.
  intros Hidle Hold Hnew. unfold get_session in *.
  unfold get_or_create_session.
  rewrite (dict_lookup_contains _ _ Hnew).
  set (context := new_context sid lang 10 t_created t_updated).
  unfold _cleanup_old_sessions. cbn [with_sessions sessions max_sessions].
  set (d1 := dict_append sid context (sessions mgr)).
  set (mgr1 := with_sessions mgr d1).
  set (kept := fold_left _ (expired_ids mgr1 now) d1).
  destruct (evict_oldest_suffix (max_sessions mgr) kept) as [dropped Hsuffix].
  destruct (evict_oldest (max_sessions mgr) kept) as [remaining outcome].
  cbn [fst] in Hsuffix.
  assert (Hgone : dict_lookup idle remaining = None).
  { apply dict_lookup_keys. intros Hin.
    assert (Hkept : In idle (map fst kept))
      by (rewrite Hsuffix, map_app; apply in_or_app; right; exact Hin).
    apply fold_delete_keys in Hkept. destruct Hkept as [_ Hnot]. apply Hnot.
    unfold expired_ids. apply in_map_iff. exists (idle, ctx). split; [reflexivity |].
    apply filter_In. split.
    - cbn [mgr1 with_sessions sessions]. unfold d1, dict_append.
      apply in_or_app. left. apply dict_lookup_in. exact Hidle.
    - cbn [snd mgr1 with_sessions session_timeout]. apply Z.gtb_lt. lia. }
  destruct outcome; cbn [fst with_sessions sessions]; exact Hgone.
Qed.

(** C5, as stated, fails when the other session id is already in the
    store: that call only moves the entry to the end and cleans nothing,
    so a session idle for twice the timeout stays. *)
Lemma idle_session_survives_known_id :
  exists ctx,
    get_session
      (run_calls context_manager [sample_call 0; sample_call 1]) (sample_sid 0)
    = Some ctx
    /\ updated_at ctx
       < 3600000000
         - session_timeout (run_calls context_manager [sample_call 0; sample_call 1])
    /\ get_session
         (fst (get_or_create_session
                 (run_calls context_manager [sample_call 0; sample_call 1])
                 (sample_sid 1) ENGLISH 3600000000 3600000000 3600000000))
         (sample_sid 0)
       = Some ctx.
Proof. eexists. split; [reflexivity |]. split; reflexivity. Qed.

Lemma idle_session_evicted_on_creation_witness :
  get_session
    (fst (get_or_create_session
            (run_calls context_manager [sample_call 0; sample_call 1])
            (sample_sid 2) ENGLISH 3600000000 3600000000 3600000000))
    (sample_sid 0)
  = None.
Proof.
  apply (idle_session_evicted_on_creation
           (run_calls context_manager [sample_call 0; sample_call 1])
           (sample_sid 0) (new_context (sample_sid 0) ENGLISH 10 0 0)).
  - reflexivity.
  - reflexivity.
  - reflexivity.
Defined.

Lemma sample_calls_in_window count :
  (count <= 1001)%nat ->
  Forall (fun c => 0 <= call_updated c
                   /\ call_now c - 0 <= session_timeout context_manager)
         (sample_calls count).
Proof.
  intros Hcount. apply List.Forall_forall. intros c Hin.
  apply in_map_iff in Hin. destruct Hin as [n [<- Hn]]. apply in_seq in Hn.
  change (session_timeout context_manager) with 1800000000.
  cbn [sample_call call_updated call_now]. lia.
Qed.

Lemma ceiling_after_1001_creations_witness :
  (forall n, (get_session_count
                (run_calls context_manager (firstn n (sample_calls 1001))) <= 1000)%nat)
  /\ (forall pre c post, sample_calls 1001 = (pre ++ c :: post)%list ->
        exists ctx, snd (do_call (run_calls context_manager pre) c) = Ok ctx)
  /\ (forall first, hd_error (sample_calls 1001) = Some first ->
        get_session (run_calls context_manager (sample_calls 1001)) (call_sid first)
        = None).
Proof.
  apply (ceiling_after_1001_creations (sample_calls 1001) 0).
  - unfold sample_calls. rewrite length_map, length_seq. reflexivity.
  - apply nodupb_sound. vm_compute. reflexivity.
  - apply sample_calls_in_window. lia.
Defined.

Example store_after_three_creations :
  map fst (sessions (run_calls (new_manager 2 30) (sample_calls 3)))
  = [sample_sid 1; sample_sid 2].
Proof. reflexivity. Qed.

End StoreFacts.

(** ** FAQ search *)

Module FAQFacts.
Import Py FAQ.

(** Order facts about binary64 [<], read off its specification. *)
Lemma ltb_asym a b : PrimFloat.ltb a b = true -> PrimFloat.ltb b a = false.
Proof.
  rewrite !FloatAxioms.ltb_spec. unfold SFltb, SFcompare.
  destruct (Prim2SF a) as [sa | sa | | sa ma ea], (Prim2SF b) as [sb | sb | | sb mb eb];
    try destruct sa; try destruct sb; try discriminate; try reflexivity;
    change (PosDef.Pos.compare_cont Eq mb ma) with (Pos.compare mb ma);
    change (PosDef.Pos.compare_cont Eq ma mb) with (Pos.compare ma mb);
    rewrite (Z.compare_antisym ea eb), (Pos.compare_antisym ma mb);
    destruct (ea ?= eb)%Z, (ma ?= mb)%positive; simpl; try discriminate; reflexivity.
Qed.

Lemma ltb_irrefl a : PrimFloat.ltb a a = false.
Proof.
  destruct (PrimFloat.ltb a a) eqn:H; [| reflexivity].
  pose proof (ltb_asym a a H). congruence.
Qed.


Section Ranking.

Context {Answer : Type}.

Lemma insert_by_score_perm (x : ScoredFAQ Answer) l :
  Permutation (insert_by_score x l) (x :: l).
Proof.
  induction l as [| y rest IH]; simpl; [reflexivity |].
  destruct (PrimFloat.ltb (score x) (score y)); [| reflexivity].
  rewrite IH. apply perm_swap.
Qed.

Lemma sort_by_score_perm (l : list (ScoredFAQ Answer)) :
  Permutation (sort_by_score l) l.
Proof.
  induction l as [| x rest IH]; simpl; [reflexivity |].
  rewrite insert_by_score_perm. constructor. exact IH.
Qed.




Section Stability.

(** A group of entries that all carry the same score. *)
Variable P : ScoredFAQ Answer -> bool.
Hypothesis same_score :
  forall a b, P a = true -> P b = true -> score a = score b.



End Stability.


End Ranking.



Lemma in_slice_to {A : Type} (stop : Z) (l : list A) x :
  In x (slice_to stop l) -> In x l.
Proof.
  unfold slice_to. intros Hin.
  rewrite <- (firstn_skipn (Z.to_nat
    (if stop <? 0 then Z.max (Z.of_nat (length l) + stop) 0
     else Z.min stop (Z.of_nat (length l)))) l).
  apply in_or_app. left. exact Hin.
Qed.


Section Search.

Variable lower : string -> string.
Variable strip_punctuation : string -> string.
Variable split : string -> list string.

Context {Answer : Type}.

Abbreviation query_keywords := (query_keywords lower strip_punctuation split).
Abbreviation all_faq_keywords :=
  (all_faq_keywords lower strip_punctuation split (Answer := Answer)).
Abbreviation category_selected := (category_selected lower (Answer := Answer)).
Abbreviation score_faq := (score_faq lower strip_punctuation split (Answer := Answer)).
Abbreviation score_all := (score_all lower strip_punctuation split (Answer := Answer)).
Abbreviation search_faqs :=
  (search_faqs lower strip_punctuation split (Answer := Answer)).
Abbreviation scored_from :=
  (scored_from lower strip_punctuation split (Answer := Answer)).
Abbreviation retained := (retained lower strip_punctuation split (Answer := Answer)).

Lemma score_faq_entry query_kws wanted faq m :
  score_faq query_kws wanted faq = Ok (Some m) ->
  scored_from query_kws wanted faq m.
Proof.
  unfold FAQ.score_faq, FAQ.scored_from.
  destruct (category_selected wanted faq) as [[|] | e]; try discriminate.
  destruct (all_faq_keywords faq) as [faq_kws | e]; [| discriminate].
  destruct (decide (query_kws ∩ faq_kws = ∅)) as [| Hne]; [discriminate |].
  destruct (priority_boost faq) as [boost | e]; [| discriminate].
  destruct (faq_question faq) as [q |]; [| discriminate].
  destruct (faq_answer faq) as [a |]; [| discriminate].
  intros [= <-]. split; [reflexivity |]. exists faq_kws, boost.
  cbn [question answer score]. repeat split; try assumption.
  unfold final_score.
  assert (Hsize : nat_max (size query_kws) 1 = size query_kws).
  { unfold nat_max. destruct (size query_kws) eqn:Hz; [| lia].
    apply size_empty_iff in Hz. apply leibniz_equiv in Hz. exfalso. apply Hne.
    rewrite Hz. apply intersection_empty_l_L. }
  rewrite Hsize. reflexivity.
Qed.


Lemma score_all_entries query_kws wanted faqs : forall scored,
  score_all query_kws wanted faqs = Ok scored ->
  forall m, In m scored ->
    exists faq, In faq faqs /\ scored_from query_kws wanted faq m.
Proof.
  induction faqs as [| faq rest IH]; intros scored; cbn [FAQ.score_all].
  - intros [= <-] m [].
  - destruct (score_faq query_kws wanted faq) as [entry | e] eqn:Hfaq; [| discriminate].
    destruct (score_all query_kws wanted rest) as [tail | e]; [| discriminate].
    intros [= <-] m Hin.
    destruct entry as [x |].
    + destruct Hin as [<- | Hin].
      * exists faq. split; [left; reflexivity | apply score_faq_entry; exact Hfaq].
      * destruct (IH tail eq_refl m Hin) as [f [Hf Hm]]. exists f. split; [right |]; assumption.
    + destruct (IH tail eq_refl m Hin) as [f [Hf Hm]]. exists f. split; [right |]; assumption.
Qed.





End Search.

Example search_hostel_fee :
  map (fun m => (question m, score m)) (matches (search_ascii sample_faqs "hostel fee" None 5))
  = [(JStr "What is the hostel fee?", 1%float);
     (JStr "What is the tuition fee per semester?", 0.6%float)]
  /\ total (search_ascii sample_faqs "hostel fee" None 5) = 2%nat.
Proof. split; vm_compute; reflexivity. Qed.

Example search_ties_keep_order :
  map question (matches (search_ascii sample_faqs "What is the fee?" (Some "FEES") 5))
  = [JStr "What is the hostel fee?"; JStr "What is the tuition fee per semester?"].
Proof. vm_compute. reflexivity. Qed.

Example search_no_common_keyword :
  search_ascii sample_faqs "library timings" None 5
  = {| matches := []; total := 0; error := None |}.
Proof. vm_compute. reflexivity. Qed.

(** A priority beyond the float range makes the product raise
    [OverflowError], and the search reports it. *)
Example search_priority_overflow :
  search_ascii
    [ {| faq_question := Some (JStr "What is the hostel fee?");
         faq_answer := Some "The hostel fee is 30000 per year.";
         faq_category := None; faq_keywords := None;
         faq_priority := Some (JInt (10 ^ 400)) |} ]
    "hostel fee" None 5
  = {| matches := []; total := 0;
       error := Some "int too large to convert to float" |}.
Proof. vm_compute. reflexivity. Qed.

(** A priority of 2^63 is converted exactly, and the score is capped. *)
Example search_large_priority :
  map score
    (matches
       (search_ascii
          [ {| faq_question := Some (JStr "What is the hostel fee?");
               faq_answer := Some "The hostel fee is 30000 per year.";
               faq_category := None; faq_keywords := None;
               faq_priority := Some (JInt (2 ^ 63)) |} ]
          "hostel fee library" None 5))
  = [1%float].
Proof. vm_compute. reflexivity. Qed.

(** Keywords stored as [null] are not iterable. *)
Example search_null_keywords :
  search_ascii
    [ {| faq_question := Some (JStr "What is the hostel fee?");
         faq_answer := Some "The hostel fee is 30000 per year.";
         faq_category := None; faq_keywords := Some JNull;
         faq_priority := None |} ]
    "hostel fee" None 5
  = {| matches := []; total := 0;
       error := Some "'NoneType' object is not iterable" |}.
Proof. vm_compute. reflexivity. Qed.

End FAQFacts.

(** ** Message pipeline *)

Module ChatbotFacts.
Import Py Constants Context Store Chatbot.

Lemma bind_inv {W A B : Type} (c : M W A) (k : A -> M W B) st r st' :
  bind c k st = (r, st') ->
  (exists a s1, c st = (Ok a, s1) /\ k a s1 = (r, st'))
  \/ (exists e, c st = (Raised e, st') /\ r = Raised e).
Proof.
  unfold bind. destruct (c st) as [[a | e] s1]; intros H.
  - left. exists a, s1. auto.
  - right. exists e. injection H as <- <-. auto.
Qed.

(** The canned error string of every language of [LanguageEnum]. *)
Lemma error_response_text request sid :
  exists info,
    dict_find LANGUAGES (language_value (req_language request)) = Some info
    /\ response (error_response request sid) = lang_error info.
Proof.
  unfold error_response. destruct (req_language request); eexists; split; reflexivity.
Qed.

Section Pipeline.

Context {W : Type}.
Variable svc : Services W.
Variable lower : string -> string.
Variable strip_punctuation : string -> string.
Variable split : string -> list string.
Variable capitalize : string -> string.
Variable extract_entities : string -> gmap string EntityValue.

Abbreviation pipeline :=
  (pipeline svc lower strip_punctuation split capitalize extract_entities).
Abbreviation record_turn := (record_turn svc lower extract_entities).
Abbreviation respond := (respond svc lower strip_punctuation split capitalize).
Abbreviation process_message :=
  (process_message svc lower strip_punctuation split capitalize extract_entities).

Lemma preserves_ret {A : Type} (a : A) : preserves (@ret W A a).
Proof. intros st r st' [= <- <-]. split; reflexivity. Qed.

Lemma preserves_raise {A : Type} e : preserves (@raise W A e).
Proof. intros st r st' [= <- <-]. split; reflexivity. Qed.

Lemma preserves_call {A : Type} (f : W -> result A * W) : preserves (call f).
Proof.
  intros st r st'. unfold call. destruct (f (world st)) as [r0 w].
  intros [= <- <-]. split; reflexivity.
Qed.

Lemma preserves_call_total {A : Type} (f : W -> A * W) : preserves (call_total f).
Proof.
  intros st r st'. unfold call_total. destruct (f (world st)) as [a w].
  intros [= <- <-]. split; reflexivity.
Qed.

Lemma preserves_read_store : preserves (@read_store W).
Proof. intros st r st' [= <- <-]. split; reflexivity. Qed.

Lemma preserves_bind {A B : Type} (c : M W A) (k : A -> M W B) :
  preserves c -> (forall a, preserves (k a)) -> preserves (bind c k).
Proof.
  intros Hc Hk st r st' H. apply bind_inv in H.
  destruct H as [(a & s1 & H1 & H2) | (e & H1 & _)].
  - destruct (Hc _ _ _ H1) as [Hc1 Hc2]. destruct (Hk a _ _ _ H2) as [Hk1 Hk2].
    split; congruence.
  - exact (Hc _ _ _ H1).
Qed.

Ltac preserve_step :=
  first
    [ apply preserves_ret | apply preserves_raise | apply preserves_call
    | apply preserves_call_total | apply preserves_read_store
    | apply preserves_bind; [| intros ? ]
    | match goal with
      | |- preserves (match ?x with _ => _ end) => destruct x
      | |- preserves (let '(_, _) := ?x in _) => destruct x
      end ].

Lemma preserves_translate_to_english text source_lang :
  preserves (translate_to_english svc text source_lang).
Proof. unfold translate_to_english. repeat preserve_step. Qed.

Lemma preserves_translate_from_english text target_lang :
  preserves (translate_from_english svc text target_lang).
Proof. unfold translate_from_english. repeat preserve_step. Qed.

Lemma preserves_translate_all questions target_lang :
  preserves (translate_all svc questions target_lang).
Proof.
  induction questions as [| q rest IH]; cbn [translate_all].
  - apply preserves_ret.
  - apply preserves_bind; [apply preserves_translate_from_english | intros tq].
    apply preserves_bind; [exact IH | intros others]. apply preserves_ret.
Qed.

Lemma preserves_search_faqs query intent_name :
  preserves (_search_faqs svc lower strip_punctuation split query intent_name).
Proof. unfold _search_faqs. repeat preserve_step. Qed.

Lemma preserves_answer sid english_message intent_name detected_lang :
  preserves (answer svc lower strip_punctuation split capitalize
               sid english_message intent_name detected_lang).
Proof.
  unfold answer, answer_query.
  repeat first [apply preserves_search_faqs | preserve_step].
Qed.

Lemma preserves_make_response text lang sid conf srcs suggested fallback intent_name :
  preserves (@make_response W text lang sid conf srcs suggested fallback intent_name).
Proof. unfold make_response. repeat preserve_step. Qed.

(** What a method call on the conversation does to the state. *)
Lemma mutate_inv sid f (st : PState W) r st' :
  mutate sid f st = (r, st') ->
  r = Ok tt
  /\ conversation st' = f (conversation st)
  /\ store st' = with_sessions (store st)
                   (dict_replace sid (f (conversation st)) (sessions (store st))).
Proof. intros [= <- <-]. repeat split. Qed.

(** Steps 1 to 4, when they complete, leave the conversation with the
    entities merged, the intent appended and the user message appended. *)
Lemma record_turn_effect request sid st detected_lang english_message intent_name s5 :
  record_turn request sid st = (Ok (detected_lang, english_message, intent_name), s5) ->
  exists t_entities t_stamp t_update,
    conversation s5 =
      add_user_message
        (add_intent
           (update_entities (conversation st) (extract_entities english_message)
                            t_entities)
           intent_name)
        (req_message request) (Some detected_lang) t_stamp t_update.
Proof.
  unfold Chatbot.record_turn. intros H.
  apply bind_inv in H. destruct H as [(detection & s1 & H1 & H) | (e & _ & [=])].
  apply preserves_call in H1. destruct H1 as [Hc1 _].
  apply bind_inv in H. destruct H as [([em sl] & s2 & H2 & H) | (e & _ & [=])].
  apply preserves_translate_to_english in H2. destruct H2 as [Hc2 _].
  apply bind_inv in H. destruct H as [(t0 & s3 & H3 & H) | (e & _ & [=])].
  apply preserves_call_total in H3. destruct H3 as [Hc3 _].
  apply bind_inv in H. destruct H as [([] & s4 & H4 & H) | (e & _ & [=])].
  apply mutate_inv in H4. destruct H4 as (_ & Hc4 & _).
  apply bind_inv in H. destruct H as [([] & s6 & H6 & H) | (e & _ & [=])].
  apply mutate_inv in H6. destruct H6 as (_ & Hc6 & _).
  apply bind_inv in H. destruct H as [(t1 & s7 & H7 & H) | (e & _ & [=])].
  apply preserves_call_total in H7. destruct H7 as [Hc7 _].
  apply bind_inv in H. destruct H as [(t2 & s8 & H8 & H) | (e & _ & [=])].
  apply preserves_call_total in H8. destruct H8 as [Hc8 _].
  apply bind_inv in H. destruct H as [([] & s9 & H9 & H) | (e & _ & [=])].
  apply mutate_inv in H9. destruct H9 as (_ & Hc9 & _).
  injection H as Hdl Hem Hin <-.
  exists t0, t1, t2. rewrite Hc9, Hc8, Hc7, Hc6, Hc4, Hc3, Hc2, Hc1.
  subst. reflexivity.
Qed.

(** Steps 5 to 12 touch the conversation once, to append the assistant
    message; whatever they return or raise, everything recorded before
    is still there. *)
Lemma respond_effect request sid turn st r st' :
  respond request sid turn st = (r, st') ->
  conversation st' = conversation st
  \/ exists text lang srcs conf t_stamp t_update,
       conversation st' =
         add_assistant_message (conversation st) text lang srcs conf t_stamp t_update.
Proof.
  unfold Chatbot.respond. destruct turn as [[detected_lang english_message] intent_name].
  intros H.
  apply bind_inv in H. destruct H as [([[text conf] srcs] & s1 & H1 & H) | (e & H1 & _)];
    [| left; apply preserves_answer in H1; apply H1].
  apply preserves_answer in H1. destruct H1 as [Hc1 _].
  apply bind_inv in H. destruct H as [(text' & s2 & H2 & H) | (e & H2 & _)].
  2:{ left. rewrite <- Hc1.
      destruct (_ && _)%bool;
        [apply preserves_translate_from_english in H2 | apply preserves_ret in H2];
        apply H2. }
  assert (Hc2 : conversation s2 = conversation s1).
  { destruct (_ && _)%bool;
      [apply preserves_translate_from_english in H2 | apply preserves_ret in H2];
      apply H2. }
  apply bind_inv in H. destruct H as [(suggested & s3 & H3 & H) | (e & H3 & _)].
  2:{ left. rewrite <- Hc1, <- Hc2.
      destruct (Intent.get_suggested_questions intent_name);
        [apply preserves_ret in H3; apply H3 |].
      destruct (negb _);
        [apply preserves_translate_all in H3 | apply preserves_ret in H3]; apply H3. }
  assert (Hc3 : conversation s3 = conversation s2).
  { destruct (Intent.get_suggested_questions intent_name);
      [apply preserves_ret in H3; apply H3 |].
    destruct (negb _);
      [apply preserves_translate_all in H3 | apply preserves_ret in H3]; apply H3. }
  apply bind_inv in H. destruct H as [(t1 & s4 & H4 & H) | (e & H4 & _)];
    [| left; apply preserves_call_total in H4; destruct H4; congruence].
  apply preserves_call_total in H4. destruct H4 as [Hc4 _].
  apply bind_inv in H. destruct H as [(t2 & s5 & H5 & H) | (e & H5 & _)];
    [| left; apply preserves_call_total in H5; destruct H5; congruence].
  apply preserves_call_total in H5. destruct H5 as [Hc5 _].
  apply bind_inv in H. destruct H as [([] & s6 & H6 & H) | (e & H6 & _)];
    [| apply mutate_inv in H6; destruct H6 as [[=] _]].
  apply mutate_inv in H6. destruct H6 as (_ & Hc6 & _).
  right. exists text', (Some detected_lang), srcs, (Some conf), t1, t2.
  assert (Hc7 : conversation st' = conversation s6).
  { apply bind_inv in H. destruct H as [(t3 & s7 & H7 & H) | (e & H7 & _)];
      [| apply preserves_call_total in H7; apply H7].
    apply preserves_call_total in H7. apply preserves_make_response in H.
    destruct H7, H. congruence. }
  rewrite Hc7, Hc6. congruence.
Qed.

Lemma preserves_keeps_sync {A : Type} sid (c : M W A) :
  preserves c -> keeps_sync sid c.
Proof.
  intros Hc st r st' Hs H. destruct (Hc _ _ _ H) as [Hconv Hstore].
  unfold synced. rewrite Hconv, Hstore. exact Hs.
Qed.

Lemma dict_replace_lookup sid ctx (d : session_dict) c :
  dict_lookup sid (dict_replace sid ctx d) = Some c -> c = ctx.
Proof.
  induction d as [| [k v] rest IH]; cbn; [discriminate |].
  destruct (String.eqb k sid) eqn:Hk; cbn; rewrite Hk; [congruence | exact IH].
Qed.

Lemma mutate_keeps_sync sid f : keeps_sync sid (@mutate W sid f).
Proof.
  intros st r st' _ H. apply mutate_inv in H. destruct H as (_ & Hconv & Hstore).
  unfold synced, get_session. rewrite Hconv, Hstore. cbn [with_sessions sessions].
  intros c. apply dict_replace_lookup.
Qed.

Lemma bind_keeps_sync {A B : Type} sid (c : M W A) (k : A -> M W B) :
  keeps_sync sid c -> (forall a, keeps_sync sid (k a)) -> keeps_sync sid (bind c k).
Proof.
  intros Hc Hk st r st' Hs H. apply bind_inv in H.
  destruct H as [(a & s1 & H1 & H2) | (e & H1 & _)].
  - exact (Hk a _ _ _ (Hc _ _ _ Hs H1) H2).
  - exact (Hc _ _ _ Hs H1).
Qed.

Lemma pipeline_keeps_sync request sid : keeps_sync sid (pipeline request sid).
Proof.
  unfold Chatbot.pipeline, Chatbot.record_turn, Chatbot.respond, clock.
  repeat first
    [ apply mutate_keeps_sync
    | apply bind_keeps_sync; [| intros ? ]
    | match goal with
      | |- keeps_sync _ (let '(_, _) := ?x in _) => destruct x
      | |- keeps_sync _ (match ?x with _ => _ end) => destruct x
      end
    | apply preserves_keeps_sync;
      first [ apply preserves_answer | apply preserves_translate_to_english
            | apply preserves_translate_from_english | apply preserves_translate_all
            | apply preserves_make_response | repeat preserve_step ] ].
Qed.

Lemma fold_delete_entries (expired : list string) : forall (d : session_dict) entry,
  In entry (fold_left (fun d k => dict_delete k d) expired d) -> In entry d.
Proof.
  induction expired as [| k expired IH]; intros d entry Hin; cbn in Hin; [exact Hin |].
  apply IH in Hin. apply filter_In in Hin. tauto.
Qed.

Lemma lookup_entry sid c (d : session_dict) :
  dict_lookup sid d = Some c -> In (sid, c) d.
Proof.
  induction d as [| [k v] rest IH]; cbn; [discriminate |].
  destruct (String.eqb_spec k sid) as [-> | _].
  - intros [= ->]. left. reflexivity.
  - intros H. right. apply IH. exact H.
Qed.

Lemma contains_entry sid c (d : session_dict) :
  dict_contains sid d = false -> ~ In (sid, c) d.
Proof.
  intros Hc Hin.
  assert (dict_contains sid d = true)
    by (apply existsb_exists; exists (sid, c); split; [exact Hin | apply String.eqb_refl]).
  congruence.
Qed.

(** After [get_or_create_session] the store's entry for the id, when
    there is one, is the context that was returned. *)
Lemma get_or_create_synced mgr sid lang t_created t_updated now mgr' context :
  get_or_create_session mgr sid lang t_created t_updated now = (mgr', Ok context) ->
  forall c, get_session mgr' sid = Some c -> c = context.
Proof.
  unfold get_or_create_session, get_session.
  destruct (dict_contains sid (sessions mgr)) eqn:Hknown.
  - destruct (dict_lookup sid (dict_move_to_end sid (sessions mgr))) as [ctx |] eqn:Hl;
      intros [= <- <-]; cbn [with_sessions sessions]. congruence.
  - unfold _cleanup_old_sessions. cbn [with_sessions sessions max_sessions].
    match goal with
    | |- context [evict_oldest ?m ?kept] =>
        destruct (StoreFacts.evict_oldest_suffix m kept) as [dropped Hsuffix];
        pose proof (fold_delete_entries _ _ : forall entry, In entry kept -> _) as Hkept;
        destruct (evict_oldest m kept) as [remaining outcome]
    end.
    cbn [fst] in Hsuffix.
    destruct outcome; intros [= <- <-]; cbn [with_sessions sessions].
    intros c Hc. apply lookup_entry in Hc.
    assert (Hin : In (sid, c)
               (dict_append sid (new_context sid lang 10 t_created t_updated)
                            (sessions mgr))).
    { apply Hkept. rewrite Hsuffix. apply in_or_app. right. exact Hc. }
    unfold dict_append in Hin. apply in_app_or in Hin. destruct Hin as [Hin | [Heq | []]].
    + exfalso. exact (contains_entry _ _ _ Hknown Hin).
    + congruence.
Qed.

Lemma resolve_session_synced request w mgr sid context w1 mgr1 :
  resolve_session svc request w mgr = (sid, Ok context, w1, mgr1) ->
  synced sid {| world := w1; store := mgr1; conversation := context |}.
Proof.
  unfold resolve_session, synced. cbn [store conversation].
  destruct (utcnow svc w) as [start_time w0].
  destruct (match req_session_id request with
            | Some s => if String.eqb s EmptyString
                        then generate_session_id svc w0 else (s, w0)
            | None => generate_session_id svc w0
            end) as [sid0 w2].
  destruct (dict_contains sid0 (sessions mgr)).
  - destruct (get_or_create_session mgr sid0 (req_language request) 0 0 0)
      as [mgr' outcome] eqn:Hget.
    intros [= <- -> <- <-]. exact (get_or_create_synced _ _ _ _ _ _ _ _ Hget).
  - destruct (utcnow svc w2) as [t_created w3].
    destruct (utcnow svc w3) as [t_updated w4].
    destruct (utcnow svc w4) as [now w5].
    destruct (get_or_create_session mgr sid0 (req_language request) t_created t_updated now)
      as [mgr' outcome] eqn:Hget.
    intros [= <- -> <- <-]. exact (get_or_create_synced _ _ _ _ _ _ _ _ Hget).
Qed.

(** C3. When the body of the [try] block raises, [process_message] returns
    the error string of the caller-declared language with confidence 0.0,
    [fallback_required] true and the resolved session id.  The world and
    the store are those reached when the exception was raised: the store's
    entry for the session is the conversation as mutated so far, and if
    the steps up to the user message had completed, the merged entities,
    the appended intent and the appended user message are in it, followed
    at most by the assistant message. *)
Theorem exception_gives_error_response
    request w mgr sid context w1 mgr1 e st' :
  resolve_session svc request w mgr = (sid, Ok context, w1, mgr1) ->
  pipeline request sid {| world := w1; store := mgr1; conversation := context |}
    = (Raised e, st') ->
  (exists info,
     dict_find LANGUAGES (language_value (req_language request)) = Some info
     /\ process_message request w mgr =
          (Ok {| response := lang_error info;
                 resp_language := req_language request;
                 resp_session_id := sid;
                 confidence_score := 0%float;
                 sources := None; suggested_questions := None;
                 fallback_required := true; resp_intent := Some "error" |},
           world st', store st'))
  /\ (forall c, get_session (store st') sid = Some c -> c = conversation st')
  /\ (forall detected_lang english_message intent_name s5,
        record_turn request sid
          {| world := w1; store := mgr1; conversation := context |}
          = (Ok (detected_lang, english_message, intent_name), s5) ->
        (exists t_entities t_stamp t_update,
           conversation s5 =
             add_user_message
               (add_intent
                  (update_entities context (extract_entities english_message) t_entities)
                  intent_name)
               (req_message request) (Some detected_lang) t_stamp t_update)
        /\ (conversation st' = conversation s5
            \/ exists text lang srcs conf t_stamp t_update,
                 conversation st' =
                   add_assistant_message (conversation s5) text lang srcs conf
                                         t_stamp t_update)).
Proof.
  intros Hresolve Hraise. split; [| split].
  - destruct (error_response_text request sid) as [info [Hinfo Htext]].
    exists info. split; [exact Hinfo |].
    unfold Chatbot.process_message. rewrite Hresolve, Hraise.
    unfold error_response in *. cbn [response] in Htext. rewrite Htext. reflexivity.
  - exact (pipeline_keeps_sync request sid _ _ _
             (resolve_session_synced _ _ _ _ _ _ _ Hresolve) Hraise).
  - intros detected_lang english_message intent_name s5 Hturn. split.
    + exact (record_turn_effect _ _ _ _ _ _ _ Hturn).
    + unfold Chatbot.pipeline, bind in Hraise. rewrite Hturn in Hraise.
      exact (respond_effect _ _ _ _ _ _ Hraise).
Qed.

End Pipeline.

Lemma exception_gives_error_response_witness :
  exists info,
    dict_find LANGUAGES (language_value (req_language sample_request)) = Some info
    /\ sample_process =
         (Ok {| response := lang_error info;
                resp_language := req_language sample_request;
                resp_session_id := "s1";
                confidence_score := 0%float;
                sources := None; suggested_questions := None;
                fallback_required := true; resp_intent := Some "error" |},
          world (snd sample_outcome), store (snd sample_outcome)).
Proof.
  refine (proj1 (exception_gives_error_response sample_services ascii_lower
                   ascii_strip_punctuation ascii_split ascii_capitalize (fun _ => ∅)
                   sample_request 0%nat context_manager "s1" sample_context 4%nat
                   (store sample_state) "ConnectionError" (snd sample_outcome) _ _)).
  - vm_compute. reflexivity.
  - vm_compute. reflexivity.
Defined.

(** The same run, evaluated: retrieval fails after the user message was
    appended; the answer is the Hindi error string, and the store still
    holds the user message and the intent. *)
Example failed_retrieval_keeps_the_turn :
  fst sample_outcome = Raised "ConnectionError"
  /\ option_map response
       (match fst (fst sample_process) with Ok r => Some r | Raised _ => None end)
     = option_map lang_error (dict_find LANGUAGES "hi")
  /\ option_map (fun c => (map content (messages c), intent_history c))
       (get_session (snd sample_process) "s1")
     = Some (["What is the hostel fee?"], ["fee_query"]).
Proof. vm_compute. repeat split. Qed.

End ChatbotFacts.

(* ================================================================= *)
(** * Further properties of the code *)

(** ** Intent detection *)

Module IntentProps.
Import Py Constants Intent.

Lemma fmin_not_above a b : PrimFloat.ltb b (fmin a b) = false.
Proof.
  unfold fmin. destruct (PrimFloat.ltb b a) eqn:H; [apply FAQFacts.ltb_irrefl | exact H].
Qed.

Lemma max_from_in best best_val d :
  max_from best best_val d = best \/ In (max_from best best_val d) (map fst d).
Proof.
  revert best best_val. induction d as [| [k v] rest IH]; intros best best_val; cbn.
  - left. reflexivity.
  - destruct (PrimFloat.ltb best_val v).
    + right. destruct (IH k v) as [-> | Hin]; [left; reflexivity | right; exact Hin].
    + destruct (IH best best_val) as [-> | Hin]; [left; reflexivity | right; right; exact Hin].
Qed.

Lemma dict_get_in {V : Type} (d : list (string * V)) key (default : V) :
  In key (map fst d) -> In (key, dict_get d key default) d.
Proof.
  induction d as [| [k v] rest IH]; cbn; [tauto |].
  destruct (String.eqb_spec k key) as [-> | Hne].
  - intros _. left. reflexivity.
  - intros [Heq | Hin]; [congruence | right; apply IH; exact Hin].
Qed.

Section Detector.

Variable lower : string -> string.

(** What the outer loop leaves in its two dictionaries: the same keys, and
    under each key the non-empty matches of an intent of the table. *)
Lemma scan_entries table text_lower :
  map fst (fst (scan lower table text_lower))
  = map fst (snd (scan lower table text_lower))
  /\ forall name found,
       In (name, found) (snd (scan lower table text_lower)) ->
       found <> []
       /\ exists keywords,
            In (name, keywords) table
            /\ found = find_matches lower keywords text_lower.
Proof.
  induction table as [| [name keywords] rest IH]; cbn [scan].
  - split; [reflexivity | intros ? ? []].
  - destruct (scan lower rest text_lower) as [scores matched]. cbn [fst snd] in IH.
    destruct IH as [Hkeys Hentries].
    destruct (find_matches lower keywords text_lower) as [| m ms] eqn:Hm; cbn [fst snd].
    + split; [exact Hkeys |]. intros n f Hin.
      destruct (Hentries n f Hin) as [Hne [kws [Hk Hf]]].
      split; [exact Hne |]. exists kws. split; [right; exact Hk | exact Hf].
    + split; [cbn; f_equal; exact Hkeys |]. intros n f [Heq | Hin].
      * injection Heq as <- <-. split; [discriminate |].
        exists keywords. split; [left; reflexivity | symmetry; exact Hm].
      * destruct (Hentries n f Hin) as [Hne [kws [Hk Hf]]].
        split; [exact Hne |]. exists kws. split; [right; exact Hk | exact Hf].
Qed.

(** X1. The answer of [detect_intent] is either "general" with no matched
    keyword, or an intent of the table together with the non-empty list of
    exactly those of its keywords that occur in the lowered text. *)
Theorem detect_intent_answer text :
  (intent (detect_intent lower text) = "general"
   /\ matched_keywords (detect_intent lower text) = [])
  \/ exists keywords,
       In (intent (detect_intent lower text), keywords) INTENT_KEYWORDS
       /\ matched_keywords (detect_intent lower text)
          = List.filter (fun keyword => str_contains (lower keyword) (lower text)) keywords
       /\ matched_keywords (detect_intent lower text) <> [].
Proof.
  unfold detect_intent. destruct (String.eqb text EmptyString); [left; split; reflexivity |].
  destruct (scan_entries INTENT_KEYWORDS (lower text)) as [Hkeys Hentries].
  destruct (scan lower INTENT_KEYWORDS (lower text)) as [scores matched].
  cbn [fst snd] in Hkeys, Hentries.
  destruct scores as [| [k v] rest]; cbn [max_key]; [left; split; reflexivity |].
  right. cbn [intent matched_keywords].
  assert (Hbest : In (max_from k v rest) (map fst matched)).
  { rewrite <- Hkeys. cbn [map fst].
    destruct (max_from_in k v rest) as [-> | Hin]; [left; reflexivity | right; exact Hin]. }
  apply (dict_get_in matched _ []) in Hbest.
  destruct (Hentries _ _ Hbest) as [Hne [keywords [Hk Hf]]].
  exists keywords. split; [exact Hk |]. split; [exact Hf | exact Hne].
Qed.

(** X2. The confidence [detect_intent] returns never exceeds 1.0. *)
Theorem detect_intent_confidence_at_most_one text :
  PrimFloat.ltb 1%float (confidence (detect_intent lower text)) = false.
Proof.
  unfold detect_intent. destruct (String.eqb text EmptyString); [reflexivity |].
  destruct (scan lower INTENT_KEYWORDS (lower text)) as [scores matched].
  destruct (max_key scores); cbn [confidence]; [apply fmin_not_above | reflexivity].
Qed.

End Detector.

(** X3. [get_suggested_questions] answers with no question exactly for
    the intent "goodbye", and with three questions for every other
    intent, known or not. *)
Theorem suggested_questions_count intent_name :
  (get_suggested_questions intent_name = [] <-> intent_name = "goodbye")
  /\ (intent_name <> "goodbye" -> length (get_suggested_questions intent_name) = 3%nat).
Proof.
  unfold get_suggested_questions, intent_category_map. cbn [dict_get].
  repeat match goal with
  | |- context [String.eqb ?k intent_name] =>
      destruct (String.eqb_spec k intent_name) as [<- | ?]
  end; cbn; (split; [split; [try discriminate; congruence | try discriminate; congruence]
                    | intros; try reflexivity; congruence]).
Qed.

End IntentProps.

(** ** Conversation context *)

Module ContextProps.
Import Py Context ContextQueries.

(** Appending one element and keeping the last [m >= 1]: the new element
    stays, and what is dropped is dropped from the front. *)
Lemma append_and_trim {A : Type} (m : Z) (l : list A) (x : A) :
  1 <= m ->
  exists dropped kept,
    l = (dropped ++ kept)%list
    /\ (if Z.of_nat (length (l ++ [x])%list) >? m
        then slice_from (- m) (l ++ [x])%list else (l ++ [x])%list)
       = (kept ++ [x])%list
    /\ Z.of_nat (length (kept ++ [x])%list) = Z.min (Z.of_nat (length l) + 1) m.
Proof.
  intros Hm. rewrite length_app. cbn [length].
  destruct (Z.gtb_spec (Z.of_nat (length l + 1)) m) as [Hgt | Hle].
  - set (k := Z.to_nat (Z.of_nat (length l) + 1 - m)).
    exists (firstn k l), (skipn k l). split; [symmetry; apply firstn_skipn |].
    assert (Hslice : slice_from (- m) (l ++ [x])%list = (skipn k l ++ [x])%list).
    { unfold slice_from. rewrite length_app. cbn [length].
      destruct (Z.ltb_spec (- m) 0) as [_ | ?]; [| lia].
      replace (Z.to_nat (Z.max (Z.of_nat (length l + 1) + - m) 0)) with k by (unfold k; lia).
      rewrite skipn_app. replace (k - length l)%nat with 0%nat by (unfold k; lia).
      reflexivity. }
    split; [exact Hslice |].
    rewrite length_app, length_skipn. cbn [length]. unfold k. lia.
  - exists [], l. split; [reflexivity |]. split; [reflexivity |].
    rewrite length_app. cbn [length]. lia.
Qed.

(** X4. With [max_messages >= 1], [add_message] puts the new message last,
    drops messages only from the front, and leaves
    min(old length + 1, max_messages) messages. *)
Theorem add_message_keeps_newest ctx r c l md t_stamp t_update :
  1 <= max_messages ctx ->
  exists dropped kept,
    messages ctx = (dropped ++ kept)%list
    /\ messages (add_message ctx r c l md t_stamp t_update)
       = (kept ++ [ {| role := r; content := c;
                       msg_language := str_or l (language_value (language ctx));
                       timestamp := t_stamp;
                       msg_metadata := match md with
                                       | Some m => m
                                       | None => no_metadata
                                       end |} ])%list
    /\ Z.of_nat (length (messages (add_message ctx r c l md t_stamp t_update)))
       = Z.min (Z.of_nat (length (messages ctx)) + 1) (max_messages ctx).
Proof.
  intros Hmax. unfold add_message. cbn [messages].
  match goal with
  | |- context [(messages ctx ++ [?msg])%list] =>
      destruct (append_and_trim (max_messages ctx) (messages ctx) msg Hmax)
        as (dropped & kept & Hold & Hnew & Hlen)
  end.
  exists dropped, kept. split; [exact Hold |]. rewrite Hnew. split; [reflexivity | exact Hlen].
Qed.

Lemma add_message_keeps_newest_witness :
  exists dropped kept,
    messages (new_context "s1" ENGLISH 1 0 0) = (dropped ++ kept)%list
    /\ messages (add_message (new_context "s1" ENGLISH 1 0 0) "user" "hello" None None 1 2)
       = (kept ++ [ {| role := "user"; content := "hello";
                       msg_language := str_or None (language_value ENGLISH);
                       timestamp := 1;
                       msg_metadata := no_metadata |} ])%list
    /\ Z.of_nat (length (messages (add_message (new_context "s1" ENGLISH 1 0 0)
                                              "user" "hello" None None 1 2)))
       = Z.min (Z.of_nat (length (messages (new_context "s1" ENGLISH 1 0 0))) + 1)
               (max_messages (new_context "s1" ENGLISH 1 0 0)).
Proof.
  apply (add_message_keeps_newest (new_context "s1" ENGLISH 1 0 0)
           "user" "hello" None None 1 2).
  cbn. lia.
Defined.

(** X5. [add_intent] puts the new intent last, drops intents only from the
    front, and leaves min(old length + 1, 5) of them; nothing else of the
    context changes. *)
Theorem add_intent_keeps_last_five ctx intent_name :
  (exists dropped kept,
     intent_history ctx = (dropped ++ kept)%list
     /\ intent_history (add_intent ctx intent_name) = (kept ++ [intent_name])%list
     /\ length (intent_history (add_intent ctx intent_name))
        = Nat.min (length (intent_history ctx) + 1) 5)
  /\ messages (add_intent ctx intent_name) = messages ctx
  /\ entities (add_intent ctx intent_name) = entities ctx
  /\ language (add_intent ctx intent_name) = language ctx.
Proof.
  split; [| repeat split].
  unfold add_intent. cbn [intent_history].
  destruct (append_and_trim 5 (intent_history ctx) intent_name ltac:(lia))
    as (dropped & kept & Hold & Hnew & Hlen).
  exists dropped, kept. split; [exact Hold |].
  assert (Heq : (if (5 <? length (intent_history ctx ++ [intent_name])%list)%nat
                 then slice_from (-5) (intent_history ctx ++ [intent_name])%list
                 else (intent_history ctx ++ [intent_name])%list)
                = (kept ++ [intent_name])%list).
  { rewrite <- Hnew.
    destruct (Nat.ltb_spec 5 (length (intent_history ctx ++ [intent_name])%list));
      destruct (Z.gtb_spec (Z.of_nat (length (intent_history ctx ++ [intent_name])%list)) 5);
      try reflexivity; lia. }
  rewrite Heq. split; [reflexivity | lia].
Qed.

(** X6. [get_history(limit)] with [limit >= 1] returns the last
    min(limit, length) messages; [get_history(0)] returns the whole list,
    not an empty one, because [messages[-0:]] is [messages[0:]]. *)
Theorem get_history_last ctx :
  (forall limit, 1 <= limit ->
     exists dropped,
       messages ctx = (dropped ++ get_history ctx limit)%list
       /\ Z.of_nat (length (get_history ctx limit))
          = Z.min limit (Z.of_nat (length (messages ctx))))
  /\ get_history ctx 0 = messages ctx.
Proof.
  split.
  - intros limit Hlimit. unfold get_history, slice_from.
    destruct (Z.ltb_spec (- limit) 0) as [_ | ?]; [| lia].
    match goal with |- context [skipn ?k _] => exists (firstn k (messages ctx)) end.
    split; [symmetry; apply firstn_skipn |]. rewrite length_skipn. lia.
  - unfold get_history, slice_from. change (- 0) with 0.
    destruct (Z.ltb_spec 0 0) as [? | _]; [lia |].
    replace (Z.to_nat (Z.min 0 (Z.of_nat (length (messages ctx))))) with 0%nat by lia.
    reflexivity.
Qed.

Lemma language_value_roundtrip lang :
  language_of_value (language_value lang) = Some lang.
Proof. destruct lang; reflexivity. Qed.

(** X7. Reading back what [to_dict] wrote restores every field of the
    context except [max_messages], which is always the default 10. *)
Theorem from_dict_to_dict ctx :
  from_dict (to_dict ctx)
  = Ok {| session_id := session_id ctx; language := language ctx;
          messages := messages ctx; max_messages := 10;
          metadata := metadata ctx;
          created_at := created_at ctx; updated_at := updated_at ctx;
          entities := entities ctx; intent_history := intent_history ctx |}.
Proof.
  unfold from_dict, to_dict. cbn. rewrite language_value_roundtrip. reflexivity.
Qed.

(** *** The dominant intent *)

Lemma count_up_get counts i k :
  dict_get (count_up counts i) k 0%nat
  = (dict_get counts k 0%nat + (if String.eqb i k then 1 else 0))%nat.
Proof.
  induction counts as [| [k0 n] rest IH]; cbn.
  - destruct (String.eqb i k); reflexivity.
  - destruct (String.eqb_spec k0 i) as [-> | Hne]; cbn.
    + destruct (String.eqb i k); lia.
    + destruct (String.eqb_spec k0 k) as [-> | Hne'].
      * destruct (String.eqb_spec i k) as [-> | _]; [congruence | lia].
      * exact IH.
Qed.

Lemma count_up_keys counts i k :
  In k (map fst (count_up counts i)) <-> In k (map fst counts) \/ k = i.
Proof.
  induction counts as [| [k0 n] rest IH]; cbn.
  - intuition congruence.
  - destruct (String.eqb_spec k0 i) as [-> | Hne]; cbn.
    + intuition congruence.
    + rewrite IH. tauto.
Qed.

Lemma count_up_nodup counts i :
  List.NoDup (map fst counts) -> List.NoDup (map fst (count_up counts i)).
Proof.
  induction counts as [| [k0 n] rest IH]; cbn; intros Hnd.
  - constructor; [intros [] | constructor].
  - destruct (String.eqb_spec k0 i) as [-> | Hne]; cbn; [exact Hnd |].
    inversion Hnd as [| ? ? Hout Hrest]; subst.
    constructor; [| exact (IH Hrest)].
    rewrite count_up_keys. intros [Hin | ->]; [exact (Hout Hin) | exact (Hne eq_refl)].
Qed.

Lemma not_counted_differs a k :
  not_counted a = true -> not_counted k = false -> a <> k.
Proof. intros Ha Hk ->. congruence. Qed.

(** The loop of [get_dominant_intent] from any starting dictionary. *)
Lemma tally_loop_get l : forall acc k,
  not_counted k = false ->
  dict_get (fold_left (fun counts intent_name =>
                         if not_counted intent_name then counts
                         else count_up counts intent_name) l acc) k 0%nat
  = (dict_get acc k 0%nat + count_occ string_dec l k)%nat.
Proof.
  induction l as [| a l IH]; intros acc k Hk; cbn [fold_left count_occ]; [lia |].
  rewrite (IH _ k Hk).
  destruct (not_counted a) eqn:Ha.
  - destruct (string_dec a k) as [Heq | _]; [| reflexivity].
    exfalso. exact (not_counted_differs a k Ha Hk Heq).
  - rewrite count_up_get.
    destruct (string_dec a k) as [-> | Hne].
    + rewrite String.eqb_refl. lia.
    + destruct (String.eqb_spec a k); [contradiction | lia].
Qed.

Lemma tally_loop_keys l : forall acc k,
  In k (map fst (fold_left (fun counts intent_name =>
                              if not_counted intent_name then counts
                              else count_up counts intent_name) l acc))
  <-> In k (map fst acc) \/ (In k l /\ not_counted k = false).
Proof.
  induction l as [| a l IH]; intros acc k; cbn [fold_left In]; [tauto |].
  rewrite IH. destruct (not_counted a) eqn:Ha.
  - split; [tauto |]. intros [Hacc | [[-> | Hin] Hk]]; [tauto | congruence | tauto].
  - rewrite count_up_keys. split.
    + intros [[Hacc | ->] | Hin]; [tauto | | tauto]. right. split; [left; reflexivity | exact Ha].
    + intros [Hacc | [[-> | Hin] Hk]]; tauto.
Qed.

Lemma tally_loop_nodup l : forall acc,
  List.NoDup (map fst acc) ->
  List.NoDup (map fst (fold_left (fun counts intent_name =>
                                    if not_counted intent_name then counts
                                    else count_up counts intent_name) l acc)).
Proof.
  induction l as [| a l IH]; intros acc Hnd; cbn [fold_left]; [exact Hnd |].
  apply IH. destruct (not_counted a); [exact Hnd | apply count_up_nodup; exact Hnd].
Qed.

Lemma dict_get_entry {V : Type} (d : list (string * V)) k v dflt :
  List.NoDup (map fst d) -> In (k, v) d -> dict_get d k dflt = v.
Proof.
  induction d as [| [k0 v0] rest IH]; cbn; intros Hnd Hin; [contradiction |].
  inversion Hnd as [| ? ? Hout Hrest]; subst.
  destruct Hin as [Heq | Hin].
  - inversion Heq; subst. rewrite String.eqb_refl. reflexivity.
  - destruct (String.eqb_spec k0 k) as [-> | _]; [| exact (IH Hrest Hin)].
    exfalso. apply Hout. change k with (fst (k, v)). apply in_map. exact Hin.
Qed.

Lemma dict_get_at_most (d : list (string * nat)) k m :
  (forall k' n, In (k', n) d -> (n <= m)%nat) -> (dict_get d k 0 <= m)%nat.
Proof.
  induction d as [| [k0 n0] rest IH]; cbn; intros Hall; [lia |].
  destruct (String.eqb k0 k).
  - apply (Hall k0). left. reflexivity.
  - apply IH. intros k' n Hin. apply (Hall k'). right. exact Hin.
Qed.

(** [max] over the dictionary returns a key whose count no entry exceeds. *)
Lemma most_from_greatest counts : forall best best_count,
  exists n,
    In (most_from best best_count counts, n) ((best, best_count) :: counts)
    /\ forall k m, In (k, m) ((best, best_count) :: counts) -> (m <= n)%nat.
Proof.
  induction counts as [| [k0 n0] rest IH]; intros best best_count; cbn [most_from].
  - exists best_count. split; [left; reflexivity |].
    intros k m [Heq | []]. inversion Heq. lia.
  - destruct (Nat.ltb_spec best_count n0) as [Hlt | Hge].
    + destruct (IH k0 n0) as (n & Hin & Hall). exists n. split.
      * right. exact Hin.
      * assert (n0 <= n)%nat by (apply (Hall k0); left; reflexivity).
        intros k m [Heq | Hrest]; [inversion Heq; lia | exact (Hall k m Hrest)].
    + destruct (IH best best_count) as (n & Hin & Hall). exists n. split.
      * destruct Hin as [Heq | Hin]; [left; exact Heq | right; right; exact Hin].
      * assert (best_count <= n)%nat by (apply (Hall best); left; reflexivity).
        intros k m [Heq | [Heq | Hrest]].
        -- inversion Heq. lia.
        -- inversion Heq. lia.
        -- apply (Hall k). right. exact Hrest.
Qed.

(** X8. [get_dominant_intent] returns [None] exactly when every intent of
    the history is one of greeting, goodbye and general (an empty history
    included); otherwise it returns an intent of the history that is none of
    these three and that occurs at least as often as any other such
    intent. *)
Theorem get_dominant_intent_most_common ctx :
  (get_dominant_intent ctx = None
   <-> forall x, In x (intent_history ctx) -> not_counted x = true)
  /\ forall winner, get_dominant_intent ctx = Some winner ->
       In winner (intent_history ctx)
       /\ not_counted winner = false
       /\ forall x, not_counted x = false ->
            (count_occ string_dec (intent_history ctx) x
             <= count_occ string_dec (intent_history ctx) winner)%nat.
Proof.
  unfold get_dominant_intent.
  pose proof (tally_loop_keys (intent_history ctx) []) as Hkeys.
  pose proof (tally_loop_get (intent_history ctx) []) as Hget.
  pose proof (tally_loop_nodup (intent_history ctx) [] (List.NoDup_nil _)) as Hnd.
  fold (tally (intent_history ctx)) in Hkeys, Hget, Hnd.
  destruct (intent_history ctx) as [| i0 rest] eqn:Hhist.
  { split; [split; [intros _ x [] | reflexivity] | discriminate]. }
  rewrite <- Hhist in *. clear Hhist i0 rest.
  assert (Hcases : match intent_history ctx with
                   | [] => None
                   | _ :: _ =>
                       match tally (intent_history ctx) with
                       | [] => None
                       | (k, n) :: rest => Some (most_from k n rest)
                       end
                   end
                   = match tally (intent_history ctx) with
                     | [] => None
                     | (k, n) :: rest => Some (most_from k n rest)
                     end).
  { destruct (intent_history ctx); reflexivity. }
  destruct (tally (intent_history ctx)) as [| [k n] counts] eqn:Htally.
  - split; [| intros winner; destruct (intent_history ctx); discriminate].
    split; [| intros _; destruct (intent_history ctx); reflexivity].
    intros _ x Hin. destruct (not_counted x) eqn:Hx; [reflexivity |].
    exfalso. apply (proj2 (Hkeys x)). right. split; assumption.
  - split.
    + split.
      * destruct (intent_history ctx); discriminate.
      * intros Hall. exfalso.
        destruct (proj1 (Hkeys k) (or_introl eq_refl)) as [[] | [Hin Hk]].
        rewrite (Hall k Hin) in Hk. discriminate.
    + intros winner Hwin.
      assert (Hw : winner = most_from k n counts).
      { destruct (intent_history ctx); [discriminate | congruence]. }
      destruct (most_from_greatest counts k n) as (m & Hentry & Hmax).
      rewrite <- Hw in Hentry.
      assert (Hkey : In winner (map fst ((k, n) :: counts))).
      { change winner with (fst (winner, m)). apply in_map. exact Hentry. }
      destruct (proj1 (Hkeys winner) Hkey) as [[] | [Hin Hnot]].
      split; [exact Hin |]. split; [exact Hnot |].
      intros x Hx.
      pose proof (Hget x Hx) as Hcx. pose proof (Hget winner Hnot) as Hcw.
      change (dict_get [] x 0%nat) with 0%nat in Hcx.
      change (dict_get [] winner 0%nat) with 0%nat in Hcw.
      rewrite (dict_get_entry _ winner m 0%nat Hnd Hentry) in Hcw.
      pose proof (dict_get_at_most ((k, n) :: counts) x m Hmax) as Hbound.
      lia.
Qed.


(** [max] returns the first of the entries with the greatest count. *)
Lemma most_from_first counts : forall best best_count,
  exists before after n,
    (best, best_count) :: counts
    = (before ++ (most_from best best_count counts, n) :: after)%list
    /\ (forall k m, In (k, m) before -> (m < n)%nat)
    /\ (forall k m, In (k, m) after -> (m <= n)%nat).
Proof.
  induction counts as [| [k0 n0] rest IH]; intros best best_count; cbn [most_from].
  - exists [], [], best_count. split; [reflexivity |]. split; intros k m [].
  - destruct (Nat.ltb_spec best_count n0) as [Hlt | Hge].
    + destruct (IH k0 n0) as (before & after & n & Heq & Hbefore & Hafter).
      exists ((best, best_count) :: before), after, n.
      split; [cbn [app]; rewrite <- Heq; reflexivity |]. split; [| exact Hafter].
      assert (n0 <= n)%nat.
      { destruct before as [| e before']; cbn [app] in Heq.
        - injection Heq as _ Hn _. lia.
        - injection Heq as He _. subst e.
          assert (n0 < n)%nat by (apply (Hbefore k0); left; reflexivity). lia. }
      intros k m [Hin | Hin]; [inversion Hin; lia | exact (Hbefore k m Hin)].
    + destruct (IH best best_count) as (before & after & n & Heq & Hbefore & Hafter).
      destruct before as [| e before']; cbn [app] in Heq.
      * injection Heq as Hbest Hn Hrest.
        exists [], ((k0, n0) :: after), n. split; [cbn [app]; congruence |].
        split; [intros k m [] |].
        intros k m [Hin | Hin]; [inversion Hin; lia | exact (Hafter k m Hin)].
      * injection Heq as He Hrest. subst e.
        exists ((best, best_count) :: (k0, n0) :: before'), after, n.
        split; [cbn [app]; rewrite <- Hrest; reflexivity |].
        split; [| exact Hafter].
        assert (best_count < n)%nat by (apply (Hbefore best); left; reflexivity).
        intros k m [Hin | [Hin | Hin]].
        -- inversion Hin. lia.
        -- inversion Hin. lia.
        -- apply (Hbefore k). right. exact Hin.
Qed.

Lemma count_up_keys_order counts i :
  (In i (map fst counts) /\ map fst (count_up counts i) = map fst counts)
  \/ (~ In i (map fst counts)
      /\ map fst (count_up counts i) = (map fst counts ++ [i])%list).
Proof.
  induction counts as [| [k0 n] rest IH]; cbn.
  - right. split; [tauto | reflexivity].
  - destruct (String.eqb_spec k0 i) as [-> | Hne]; cbn.
    + left. split; [left; reflexivity | reflexivity].
    + destruct IH as [[Hin Heq] | [Hout Heq]].
      * left. split; [right; exact Hin | rewrite Heq; reflexivity].
      * right. split; [intros [? | ?]; tauto | rewrite Heq; reflexivity].
Qed.

(** The keys of the tally stand in the order of their first occurrence. *)
Lemma tally_keys_order history : forall before winner after x,
  map fst (tally history) = (before ++ winner :: after)%list ->
  In x after ->
  exists pre post, history = (pre ++ winner :: post)%list /\ ~ In x pre.
Proof.
  induction history as [| a l IH] using rev_ind; intros before winner after x Hkeys Hx.
  - destruct before; discriminate.
  - assert (Hstep : tally (l ++ [a])
                    = if not_counted a then tally l else count_up (tally l) a).
    { unfold tally. rewrite fold_left_app. reflexivity. }
    assert (Hold : map fst (tally l) = (before ++ winner :: after)%list ->
                   exists pre post, (l ++ [a])%list = (pre ++ winner :: post)%list
                                    /\ ~ In x pre).
    { intros Hk. destruct (IH before winner after x Hk Hx) as (pre & post & Hl & Hpre).
      exists pre, (post ++ [a])%list. split; [| exact Hpre].
      rewrite Hl, <- app_assoc. reflexivity. }
    rewrite Hstep in Hkeys. destruct (not_counted a) eqn:Ha; [exact (Hold Hkeys) |].
    destruct (count_up_keys_order (tally l) a) as [[_ Heq] | [Hout Heq]];
      rewrite Heq in Hkeys; [exact (Hold Hkeys) |].
    destruct (exists_last (l := after)) as (after' & z & Hafter).
    { intros ->. destruct Hx. }
    rewrite Hafter in Hkeys.
    change ((before ++ winner :: after' ++ [z])%list)
      with ((before ++ (winner :: after') ++ [z])%list) in Hkeys.
    rewrite app_assoc in Hkeys. apply app_inj_tail in Hkeys as [Hk Haz]. subst z.
    rewrite Hafter in Hx. apply in_app_or in Hx as [Hx | [Hxa | []]].
    + destruct (IH before winner after' x Hk Hx) as (pre & post & Hl & Hpre).
      exists pre, (post ++ [a])%list. split; [| exact Hpre].
      rewrite Hl, <- app_assoc. reflexivity.
    + subst x.
      assert (Hwin : In winner l).
      { assert (Hkey : In winner (map fst (tally l))).
        { rewrite Hk. apply in_or_app. right. left. reflexivity. }
        apply (tally_loop_keys l [] winner) in Hkey as [[] | [Hin _]]. exact Hin. }
      apply in_split in Hwin as (pre & post & Hl).
      exists pre, (post ++ [a])%list. split.
      * rewrite Hl, <- app_assoc. reflexivity.
      * intros Hin. apply Hout. apply (tally_loop_keys l [] a). right.
        split; [| exact Ha]. rewrite Hl. apply in_or_app. left. exact Hin.
Qed.

(** X9. When several intents share the greatest count, [get_dominant_intent]
    returns the one that occurs first in the history: any other intent with
    the same count appears only after the winner's first occurrence. *)
Theorem get_dominant_intent_tie ctx winner x :
  get_dominant_intent ctx = Some winner ->
  not_counted x = false ->
  x <> winner ->
  count_occ string_dec (intent_history ctx) x
  = count_occ string_dec (intent_history ctx) winner ->
  exists pre post,
    intent_history ctx = (pre ++ winner :: post)%list /\ ~ In x pre.
Proof.
  intros Hwin Hx Hne Hsame.
  pose proof (tally_loop_keys (intent_history ctx) []) as Hkeys.
  pose proof (tally_loop_get (intent_history ctx) []) as Hget.
  pose proof (tally_loop_nodup (intent_history ctx) [] (List.NoDup_nil _)) as Hnd.
  fold (tally (intent_history ctx)) in Hkeys, Hget, Hnd.
  unfold get_dominant_intent in Hwin.
  destruct (tally (intent_history ctx)) as [| [k n] counts] eqn:Htally.
  { destruct (intent_history ctx); discriminate. }
  assert (Hw : winner = most_from k n counts).
  { destruct (intent_history ctx); [discriminate | congruence]. }
  destruct (most_from_first counts k n) as (before & after & m & Heq & Hbefore & Hafter).
  rewrite <- Hw in Heq.
  assert (Hentry : In (winner, m) ((k, n) :: counts)).
  { rewrite Heq. apply in_or_app. right. left. reflexivity. }
  assert (Hkey : In winner (map fst ((k, n) :: counts))).
  { change winner with (fst (winner, m)). apply in_map. exact Hentry. }
  destruct (proj1 (Hkeys winner) Hkey) as [[] | [Hin Hnot]].
  pose proof (Hget winner Hnot) as Hcw. pose proof (Hget x Hx) as Hcx.
  change (dict_get [] x 0%nat) with 0%nat in Hcx.
  change (dict_get [] winner 0%nat) with 0%nat in Hcw.
  rewrite (dict_get_entry _ winner m 0%nat Hnd Hentry) in Hcw.
  assert (Hpos : (0 < count_occ string_dec (intent_history ctx) winner)%nat).
  { apply count_occ_In. exact Hin. }
  assert (Hxin : In x (intent_history ctx)).
  { apply (count_occ_In string_dec). lia. }
  assert (Hxkey : In x (map fst ((k, n) :: counts))).
  { apply Hkeys. right. split; assumption. }
  apply in_map_iff in Hxkey as ([x' vx] & Hfst & Hxentry). cbn in Hfst. subst x'.
  rewrite (dict_get_entry _ x vx 0%nat Hnd Hxentry) in Hcx.
  assert (Hvx : vx = m) by lia. rewrite Hvx in Hxentry.
  assert (Hxafter : In x (map fst after)).
  { rewrite Heq in Hxentry. apply in_app_or in Hxentry as [Hb | [He | Ha]].
    - pose proof (Hbefore x m Hb). lia.
    - inversion He. congruence.
    - change x with (fst (x, m)). apply in_map. exact Ha. }
  apply (tally_keys_order (intent_history ctx) (map fst before) winner (map fst after) x).
  - rewrite Htally, Heq, map_app. reflexivity.
  - exact Hxafter.
Qed.

Lemma get_dominant_intent_tie_witness :
  exists pre post,
    intent_history (add_intent (add_intent (new_context "s1" ENGLISH 10 0 0)
                                           "fee_query") "admission")
    = (pre ++ "fee_query" :: post)%list
    /\ ~ In "admission" pre.
Proof.
  apply (get_dominant_intent_tie
           (add_intent (add_intent (new_context "s1" ENGLISH 10 0 0)
                                   "fee_query") "admission")
           "fee_query" "admission").
  - vm_compute. reflexivity.
  - vm_compute. reflexivity.
  - discriminate.
  - vm_compute. reflexivity.
Defined.


End ContextProps.

(** ** The session store *)

Module StoreProps.
Import Py Context Store.

Lemma evict_oldest_result M (d : session_dict) :
  0 <= M ->
  snd (evict_oldest M d) = Ok tt
  /\ Z.of_nat (length (fst (evict_oldest M d))) = Z.min (Z.of_nat (length d)) M.
Proof.
  intros HM. induction d as [| e rest IH]; cbn [evict_oldest].
  - destruct (_ >? _) eqn:E.
    + rewrite Z.gtb_ltb in E. apply Z.ltb_lt in E. cbn in E. lia.
    + split; [reflexivity |]. cbn. lia.
  - destruct (_ >? _) eqn:E; rewrite Z.gtb_ltb in E.
    + apply Z.ltb_lt in E. destruct IH as [Hok Hlen]. split; [exact Hok |].
      rewrite Hlen. cbn [length] in *. lia.
    + apply Z.ltb_ge in E. split; [reflexivity |]. cbn [fst]. lia.
Qed.

(** With room for the newest entry, evicting leaves it in place. *)
Lemma evict_oldest_snoc M (d : session_dict) e :
  1 <= M ->
  evict_oldest M (d ++ [e])%list = ((fst (evict_oldest (M - 1) d) ++ [e])%list, Ok tt).
Proof.
  intros HM. induction d as [| x rest IH].
  - cbn [app evict_oldest].
    destruct (_ >? _) eqn:E1; rewrite Z.gtb_ltb in E1;
      [apply Z.ltb_lt in E1; cbn in E1; lia |].
    destruct (_ >? _) eqn:E2; rewrite Z.gtb_ltb in E2;
      [apply Z.ltb_lt in E2; cbn in E2; lia |].
    reflexivity.
  - change ((x :: rest) ++ [e])%list with (x :: (rest ++ [e]))%list.
    cbn [evict_oldest].
    destruct (Z.of_nat (length (x :: (rest ++ [e])%list)) >? M) eqn:E1;
      destruct (Z.of_nat (length (x :: rest)) >? M - 1) eqn:E2;
      rewrite Z.gtb_ltb in E1, E2.
    + exact IH.
    + apply Z.ltb_lt in E1. apply Z.ltb_ge in E2.
      cbn [length] in E1, E2. rewrite length_app in E1. cbn [length] in E1. lia.
    + apply Z.ltb_ge in E1. apply Z.ltb_lt in E2.
      cbn [length] in E1, E2. rewrite length_app in E1. cbn [length] in E1. lia.
    + reflexivity.
Qed.

Lemma dict_delete_length sid (d : session_dict) :
  (length (dict_delete sid d) <= length d)%nat.
Proof. apply List.filter_length_le. Qed.

Lemma fold_delete_length (expired : list string) : forall d : session_dict,
  (length (fold_left (fun d k => dict_delete k d) expired d) <= length d)%nat.
Proof.
  induction expired as [| k rest IH]; intros d; cbn [fold_left]; [lia |].
  pose proof (IH (dict_delete k d)). pose proof (dict_delete_length k d). lia.
Qed.

Lemma dict_delete_shrinks sid ctx (d : session_dict) :
  dict_lookup sid d = Some ctx -> (length (dict_delete sid d) < length d)%nat.
Proof.
  induction d as [| [k c] rest IH]; cbn; [discriminate |].
  destruct (String.eqb k sid); cbn.
  - intros _. pose proof (dict_delete_length sid rest). unfold dict_delete in *. lia.
  - intros Hl. specialize (IH Hl). unfold dict_delete in *. lia.
Qed.

Lemma dict_delete_absent sid (d : session_dict) :
  ~ In sid (map fst d) -> dict_delete sid d = d.
Proof.
  induction d as [| [k c] rest IH]; cbn; intros Hout; [reflexivity |].
  destruct (String.eqb_spec k sid) as [-> | _]; cbn; [tauto |].
  f_equal. apply IH. tauto.
Qed.

Lemma dict_lookup_absent sid (d : session_dict) :
  dict_lookup sid d = None -> ~ In sid (map fst d).
Proof.
  induction d as [| [k c] rest IH]; cbn; [tauto |].
  destruct (String.eqb_spec k sid) as [-> | Hne]; [discriminate |].
  intros Hl [Heq | Hin]; [exact (Hne Heq) | exact (IH Hl Hin)].
Qed.

Lemma dict_lookup_app sid (d1 d2 : session_dict) :
  dict_lookup sid (d1 ++ d2)%list
  = match dict_lookup sid d1 with
    | Some ctx => Some ctx
    | None => dict_lookup sid d2
    end.
Proof.
  induction d1 as [| [k c] rest IH]; cbn; [reflexivity |].
  destruct (String.eqb k sid); [reflexivity | exact IH].
Qed.

Lemma dict_lookup_delete_other sid other (d : session_dict) :
  other <> sid -> dict_lookup other (dict_delete sid d) = dict_lookup other d.
Proof.
  intros Hne. induction d as [| [k c] rest IH]; cbn; [reflexivity |].
  destruct (String.eqb_spec k sid) as [-> | Hks]; cbn.
  - destruct (String.eqb_spec sid other); [congruence | exact IH].
  - destruct (String.eqb k other); [reflexivity | exact IH].
Qed.

Lemma dict_contains_lookup sid (d : session_dict) :
  dict_contains sid d = true -> exists ctx, dict_lookup sid d = Some ctx.
Proof.
  destruct (dict_lookup sid d) as [ctx |] eqn:Hl; [exists ctx; reflexivity |].
  rewrite (StoreFacts.dict_lookup_contains sid d Hl). discriminate.
Qed.

Lemma move_to_end_lookup sid ctx (d : session_dict) :
  dict_lookup sid d = Some ctx ->
  dict_lookup sid (dict_move_to_end sid d) = Some ctx.
Proof.
  intros Hl. unfold dict_move_to_end, dict_append. rewrite Hl, dict_lookup_app.
  rewrite StoreFacts.dict_delete_lookup. cbn. rewrite String.eqb_refl. reflexivity.
Qed.

Lemma fold_delete_snoc (expired : list string) : forall (d : session_dict) e,
  ~ In (fst e) expired ->
  fold_left (fun d k => dict_delete k d) expired (d ++ [e])%list
  = (fold_left (fun d k => dict_delete k d) expired d ++ [e])%list.
Proof.
  induction expired as [| k rest IH]; intros d e Hout; cbn [fold_left]; [reflexivity |].
  assert (Hstep : dict_delete k (d ++ [e])%list = (dict_delete k d ++ [e])%list).
  { unfold dict_delete. rewrite List.filter_app. cbn [List.filter].
    destruct (String.eqb_spec (fst e) k) as [Heq | _]; [| reflexivity].
    exfalso. apply Hout. left. symmetry. exact Heq. }
  rewrite Hstep. apply IH. intros Hin. apply Hout. right. exact Hin.
Qed.

Lemma suffix_keys (dropped kept d : session_dict) sid :
  d = (dropped ++ kept)%list -> In sid (map fst kept) -> In sid (map fst d).
Proof. intros -> Hin. rewrite map_app. apply in_or_app. right. exact Hin. Qed.

(** One call keeps the ceiling, and with a ceiling that is not negative it
    returns a context. *)
Lemma call_keeps_ceiling mgr c :
  0 <= max_sessions mgr ->
  Z.of_nat (length (sessions mgr)) <= max_sessions mgr ->
  max_sessions (fst (do_call mgr c)) = max_sessions mgr
  /\ Z.of_nat (length (sessions (fst (do_call mgr c)))) <= max_sessions mgr
  /\ exists ctx, snd (do_call mgr c) = Ok ctx.
Proof.
  intros HM Hlen. unfold do_call, get_or_create_session.
  destruct (dict_contains (call_sid c) (sessions mgr)) eqn:Hc.
  - cbn [fst snd with_sessions max_sessions sessions].
    destruct (dict_contains_lookup _ _ Hc) as [ctx Hl].
    split; [reflexivity |]. split.
    + unfold dict_move_to_end, dict_append. rewrite Hl, length_app. cbn [length].
      pose proof (dict_delete_shrinks _ _ _ Hl). lia.
    + exists ctx. rewrite (move_to_end_lookup _ _ _ Hl). reflexivity.
  - unfold _cleanup_old_sessions. cbn [with_sessions max_sessions sessions].
    match goal with
    | |- context [evict_oldest ?M ?d] =>
        pose proof (evict_oldest_result M d HM) as [Hok Hfit];
        destruct (evict_oldest M d) as [remaining outcome]
    end.
    cbn [fst snd] in Hok, Hfit. subst outcome.
    cbn [fst snd with_sessions max_sessions sessions].
    split; [reflexivity |]. split; [lia |]. eexists. reflexivity.
Qed.

(** X10. With a ceiling that is not negative, no sequence of calls of
    [get_or_create_session], whatever the ids and the clock readings, takes
    the store above [max_sessions], and every call returns a context. *)
Theorem session_count_never_exceeds_ceiling mgr (calls : list Call) :
  0 <= max_sessions mgr ->
  Z.of_nat (get_session_count mgr) <= max_sessions mgr ->
  Z.of_nat (get_session_count (run_calls mgr calls)) <= max_sessions mgr
  /\ forall c, exists ctx, snd (do_call (run_calls mgr calls) c) = Ok ctx.
Proof.
  intros HM Hlen.
  assert (Hinv : max_sessions (run_calls mgr calls) = max_sessions mgr
                 /\ Z.of_nat (length (sessions (run_calls mgr calls))) <= max_sessions mgr).
  { revert mgr HM Hlen. induction calls as [| c rest IH]; intros mgr HM Hlen.
    - split; [reflexivity | exact Hlen].
    - cbn [run_calls fold_left].
      destruct (call_keeps_ceiling mgr c HM Hlen) as (Hmax & Hfit & _).
      fold (run_calls (fst (do_call mgr c)) rest).
      destruct (IH (fst (do_call mgr c))) as [Hmax' Hfit'];
        [rewrite Hmax; exact HM | rewrite Hmax; exact Hfit |].
      rewrite Hmax in Hmax', Hfit'. split; assumption. }
  destruct Hinv as [Hmax Hfit]. split; [exact Hfit |].
  intros c. apply call_keeps_ceiling; rewrite Hmax; assumption.
Qed.

Lemma session_count_never_exceeds_ceiling_witness :
  Z.of_nat (get_session_count (run_calls context_manager (sample_calls 3)))
  <= max_sessions context_manager
  /\ forall c, exists ctx,
       snd (do_call (run_calls context_manager (sample_calls 3)) c) = Ok ctx.
Proof.
  apply (session_count_never_exceeds_ceiling context_manager (sample_calls 3)).
  - cbn. lia.
  - cbn. lia.
Defined.

(** What [get_or_create_session] returns is what the store then holds. *)
Lemma get_or_create_lookup mgr sid lang (t_created t_updated now : time) :
  1 <= max_sessions mgr ->
  now - t_updated <= session_timeout mgr ->
  snd (get_or_create_session mgr sid lang t_created t_updated now)
  = Ok (match get_session mgr sid with
        | Some ctx => ctx
        | None => new_context sid lang 10 t_created t_updated
        end)
  /\ get_session (fst (get_or_create_session mgr sid lang t_created t_updated now)) sid
     = Some (match get_session mgr sid with
             | Some ctx => ctx
             | None => new_context sid lang 10 t_created t_updated
             end).
Proof.
  intros HM Hfresh. unfold get_or_create_session, get_session.
  destruct (dict_lookup sid (sessions mgr)) as [ctx |] eqn:Hl.
  - assert (Hc : dict_contains sid (sessions mgr) = true).
    { destruct (dict_contains sid (sessions mgr)) eqn:Hc; [reflexivity |].
      assert (Hnone : dict_lookup sid (sessions mgr) = None).
      { apply StoreFacts.dict_lookup_keys. intros Hin.
        apply in_map_iff in Hin as ([k c] & Hk & Hin). cbn in Hk. subst k.
        unfold dict_contains in Hc.
        assert (Hex : existsb (fun entry => String.eqb (fst entry) sid) (sessions mgr) = true).
        { apply existsb_exists. exists (sid, c). split; [exact Hin |].
          cbn. apply String.eqb_refl. }
        congruence. }
      congruence. }
    rewrite Hc. cbn [fst snd with_sessions sessions].
    rewrite (move_to_end_lookup _ _ _ Hl). split; reflexivity.
  - rewrite (StoreFacts.dict_lookup_contains _ _ Hl).
    pose proof (dict_lookup_absent _ _ Hl) as Habsent.
    set (context := new_context sid lang 10 t_created t_updated).
    unfold _cleanup_old_sessions. cbn [with_sessions sessions max_sessions].
    unfold dict_append.
    assert (Hnot : ~ In (fst (sid, context))
                     (expired_ids (with_sessions mgr (sessions mgr ++ [(sid, context)])%list)
                                  now)).
    { unfold expired_ids. cbn [with_sessions sessions session_timeout fst].
      intros Hin. apply in_map_iff in Hin as ([k c] & Hk & Hin). cbn in Hk. subst k.
      apply filter_In in Hin as [Hin Hold]. cbn [snd] in Hold.
      apply in_app_or in Hin as [Hin | [Heq | []]].
      - apply Habsent. change sid with (fst (sid, c)). apply in_map. exact Hin.
      - inversion Heq; subst c. cbn in Hold.
        rewrite Z.gtb_ltb in Hold. apply Z.ltb_lt in Hold. lia. }
    rewrite (fold_delete_snoc _ _ _ Hnot).
    rewrite (evict_oldest_snoc _ _ _ HM). cbn [fst snd with_sessions sessions].
    split; [reflexivity |].
    rewrite dict_lookup_app.
    match goal with
    | |- context [dict_lookup sid (fst (evict_oldest ?M ?d))] =>
        destruct (StoreFacts.evict_oldest_suffix M d) as [dropped Hsuffix];
        assert (Hgone : dict_lookup sid (fst (evict_oldest M d)) = None)
    end.
    { apply StoreFacts.dict_lookup_keys. intros Hin.
      apply (suffix_keys _ _ _ sid Hsuffix) in Hin.
      apply StoreFacts.fold_delete_keys in Hin as [Hin _]. exact (Habsent Hin). }
    rewrite Hgone. cbn. rewrite String.eqb_refl. reflexivity.
Qed.

(** X11. With room for at least one session and a new context that is not
    already past the timeout, [get_or_create_session] returns the stored
    context of a known id and a new, empty context for an unknown one, and
    [get_session] then finds exactly that context under the id. *)
Theorem get_or_create_then_get mgr sid lang (t_created t_updated now : time) :
  1 <= max_sessions mgr ->
  now - t_updated <= session_timeout mgr ->
  snd (get_or_create_session mgr sid lang t_created t_updated now)
  = Ok (match get_session mgr sid with
        | Some ctx => ctx
        | None => new_context sid lang 10 t_created t_updated
        end)
  /\ get_session (fst (get_or_create_session mgr sid lang t_created t_updated now)) sid
     = Some (match get_session mgr sid with
             | Some ctx => ctx
             | None => new_context sid lang 10 t_created t_updated
             end).
Proof. exact (get_or_create_lookup mgr sid lang t_created t_updated now). Qed.

Lemma get_or_create_then_get_witness :
  snd (get_or_create_session context_manager "s1" ENGLISH 0 0 0)
  = Ok (match get_session context_manager "s1" with
        | Some ctx => ctx
        | None => new_context "s1" ENGLISH 10 0 0
        end)
  /\ get_session (fst (get_or_create_session context_manager "s1" ENGLISH 0 0 0)) "s1"
     = Some (match get_session context_manager "s1" with
             | Some ctx => ctx
             | None => new_context "s1" ENGLISH 10 0 0
             end).
Proof.
  apply (get_or_create_then_get context_manager "s1" ENGLISH 0 0 0).
  - cbn. lia.
  - vm_compute. discriminate.
Defined.

(** *** Least recently used first *)

Lemma nothing_old (mgr : ContextManager) now :
  Forall (fun entry => now - updated_at (snd entry) <= session_timeout mgr)
         (sessions mgr) ->
  expired_ids mgr now = [].
Proof.
  intros Hall. unfold expired_ids.
  induction Hall as [| e rest He _ IH]; cbn [List.filter map]; [reflexivity |].
  destruct (_ >? _) eqn:E; [| exact IH].
  rewrite Z.gtb_ltb in E. apply Z.ltb_lt in E. lia.
Qed.

(** A creation in a full store with nothing expired drops the first entry. *)
Lemma creation_at_ceiling mgr x tail sid lang (t_created t_updated now : time) :
  sessions mgr = x :: tail ->
  Z.of_nat (length (sessions mgr)) = max_sessions mgr ->
  ~ In sid (map fst (sessions mgr)) ->
  Forall (fun entry => now - updated_at (snd entry) <= session_timeout mgr)
         (sessions mgr) ->
  now - t_updated <= session_timeout mgr ->
  sessions (fst (get_or_create_session mgr sid lang t_created t_updated now))
  = (tail ++ [(sid, new_context sid lang 10 t_created t_updated)])%list.
Proof.
  intros Hs Hfull Hnew Hall Hfresh. unfold get_or_create_session.
  rewrite (StoreFacts.dict_contains_keys _ _ Hnew).
  unfold _cleanup_old_sessions.
  rewrite nothing_old.
  2:{ cbn [with_sessions sessions session_timeout]. unfold dict_append.
      apply Forall_app. split; [exact Hall |].
      constructor; [exact Hfresh | constructor]. }
  cbn [fold_left with_sessions sessions max_sessions]. unfold dict_append.
  rewrite Hs in *.
  change ((x :: tail) ++ [(sid, new_context sid lang 10 t_created t_updated)])%list
    with (x :: (tail ++ [(sid, new_context sid lang 10 t_created t_updated)]))%list.
  cbn [evict_oldest].
  destruct (_ >? _) eqn:E; rewrite Z.gtb_ltb in E.
  - rewrite StoreFacts.evict_oldest_fits.
    + reflexivity.
    + rewrite length_app. cbn [length] in *. lia.
  - apply Z.ltb_ge in E. cbn [length] in *. rewrite length_app in E. cbn [length] in E. lia.
Qed.

Lemma touch_first mgr a ca tail lang (t_created t_updated now : time) :
  sessions mgr = (a, ca) :: tail ->
  ~ In a (map fst tail) ->
  fst (get_or_create_session mgr a lang t_created t_updated now)
  = with_sessions mgr (tail ++ [(a, ca)])%list.
Proof.
  intros Hs Hout. unfold get_or_create_session. rewrite Hs.
  cbn [dict_contains existsb fst]. rewrite String.eqb_refl. cbn [orb fst].
  unfold dict_move_to_end. cbn [dict_lookup]. rewrite String.eqb_refl.
  unfold dict_append, dict_delete. cbn [List.filter fst]. rewrite String.eqb_refl.
  cbn [negb]. fold (dict_delete a tail). rewrite (dict_delete_absent _ _ Hout).
  reflexivity.
Qed.

Lemma lookup_last sid ctx (d : session_dict) :
  ~ In sid (map fst d) -> dict_lookup sid (d ++ [(sid, ctx)])%list = Some ctx.
Proof.
  intros Hout. rewrite dict_lookup_app, (StoreFacts.dict_lookup_keys _ _ Hout).
  cbn. rewrite String.eqb_refl. reflexivity.
Qed.

(** X12. Eviction is least-recently-used.  In a full store with distinct
    ids and nothing expired, creating a new session evicts the first session
    and keeps the second; if the first session is fetched through
    [get_or_create_session] beforehand, the same creation keeps it and evicts
    the second instead. *)
Theorem touched_session_survives mgr a ca b cb rest sid lang lang_a
    (t1 t2 t3 t_created t_updated now : time) :
  sessions mgr = (a, ca) :: (b, cb) :: rest ->
  List.NoDup (map fst (sessions mgr)) ->
  Z.of_nat (length (sessions mgr)) = max_sessions mgr ->
  ~ In sid (map fst (sessions mgr)) ->
  Forall (fun entry => now - updated_at (snd entry) <= session_timeout mgr)
         (sessions mgr) ->
  now - t_updated <= session_timeout mgr ->
  let create m := fst (get_or_create_session m sid lang t_created t_updated now) in
  let touch m := fst (get_or_create_session m a lang_a t1 t2 t3) in
  (get_session (create mgr) a = None /\ get_session (create mgr) b = Some cb)
  /\ (get_session (create (touch mgr)) a = Some ca
      /\ get_session (create (touch mgr)) b = None).
Proof.
  intros Hs Hnd Hfull Hnew Hall Hfresh create touch.
  pose proof Hnd as Hnd'. rewrite Hs in Hnd'. cbn [map fst] in Hnd'.
  inversion Hnd' as [| ? ? Ha Hnd1]; subst.
  inversion Hnd1 as [| ? ? Hb Hnd2]; subst.
  pose proof Hnew as Hnew'. rewrite Hs in Hnew'. cbn [map fst In] in Hnew'.
  assert (Hab : a <> b) by (intros ->; apply Ha; left; reflexivity).
  assert (Har : ~ In a (map fst rest)) by (intros Hin; apply Ha; right; exact Hin).
  assert (Hsa : sid <> a) by (intros ->; apply Hnew'; left; reflexivity).
  assert (Hsb : sid <> b) by (intros ->; apply Hnew'; right; left; reflexivity).
  assert (Hsr : ~ In sid (map fst rest)) by tauto.
  split.
  - unfold create, get_session.
    rewrite (creation_at_ceiling mgr (a, ca) ((b, cb) :: rest) sid lang
               t_created t_updated now Hs Hfull Hnew Hall Hfresh).
    split.
    + apply StoreFacts.dict_lookup_keys. rewrite map_app. cbn [map fst].
      intros Hin. apply in_app_or in Hin as [[Heq | Hin] | [Heq | []]]; congruence || tauto.
    + cbn [app dict_lookup]. rewrite String.eqb_refl. reflexivity.
  - unfold create, touch, get_session.
    rewrite (touch_first mgr a ca ((b, cb) :: rest) lang_a t1 t2 t3 Hs Ha).
    rewrite (creation_at_ceiling (with_sessions mgr (((b, cb) :: rest) ++ [(a, ca)])%list)
               (b, cb) (rest ++ [(a, ca)])%list sid lang t_created t_updated now).
    + split.
      * rewrite <- app_assoc, dict_lookup_app, (StoreFacts.dict_lookup_keys _ _ Har).
        cbn. rewrite String.eqb_refl. reflexivity.
      * apply StoreFacts.dict_lookup_keys. rewrite !map_app. cbn [map fst].
        intros Hin.
        apply in_app_or in Hin as [Hin | [Heq | []]]; [| congruence].
        apply in_app_or in Hin as [Hin | [Heq | []]]; [tauto | congruence].
    + reflexivity.
    + cbn [with_sessions sessions max_sessions]. rewrite <- Hfull, Hs.
      cbn [length app]. rewrite length_app. cbn [length]. lia.
    + cbn [with_sessions sessions]. rewrite map_app. cbn [map fst].
      intros Hin. apply in_app_or in Hin as [[Heq | Hin] | [Heq | []]]; congruence || tauto.
    + cbn [with_sessions sessions session_timeout]. rewrite Hs in Hall.
      inversion Hall as [| ? ? Hca Htail]; subst.
      apply Forall_app. split; [exact Htail |]. constructor; [exact Hca | constructor].
    + exact Hfresh.
Qed.

Lemma touched_session_survives_witness :
  let mgr := run_calls (new_manager 2 30) [sample_call 0; sample_call 1] in
  let create m := fst (get_or_create_session m (sample_sid 2) ENGLISH 2 2 2) in
  let touch m := fst (get_or_create_session m (sample_sid 0) ENGLISH 2 2 2) in
  (get_session (create mgr) (sample_sid 0) = None
   /\ get_session (create mgr) (sample_sid 1)
      = Some (new_context (sample_sid 1) ENGLISH 10 1 1))
  /\ (get_session (create (touch mgr)) (sample_sid 0)
      = Some (new_context (sample_sid 0) ENGLISH 10 0 0)
      /\ get_session (create (touch mgr)) (sample_sid 1) = None).
Proof.
  apply (touched_session_survives
           (run_calls (new_manager 2 30) [sample_call 0; sample_call 1])
           (sample_sid 0) (new_context (sample_sid 0) ENGLISH 10 0 0)
           (sample_sid 1) (new_context (sample_sid 1) ENGLISH 10 1 1)
           [] (sample_sid 2) ENGLISH ENGLISH 2 2 2 2 2 2).
  - vm_compute. reflexivity.
  - apply StoreFacts.nodupb_sound. vm_compute. reflexivity.
  - vm_compute. reflexivity.
  - vm_compute. intros [H | [H | []]]; discriminate H.
  - repeat constructor; vm_compute; discriminate.
  - vm_compute. discriminate.
Defined.

(** *** Clearing a session *)

(** X13. [clear_session] answers [True] exactly for a stored id; afterwards
    the id is not found, every other id is found as before, and a store that
    did not hold the id is left as it was. *)
Theorem clear_session_removes mgr sid :
  (snd (clear_session mgr sid) = true <-> get_session mgr sid <> None)
  /\ get_session (fst (clear_session mgr sid)) sid = None
  /\ (forall other, other <> sid ->
        get_session (fst (clear_session mgr sid)) other = get_session mgr other)
  /\ (snd (clear_session mgr sid) = false -> fst (clear_session mgr sid) = mgr).
Proof.
  unfold clear_session, get_session.
  destruct (dict_contains sid (sessions mgr)) eqn:Hc; cbn [fst snd with_sessions sessions].
  - destruct (dict_contains_lookup _ _ Hc) as [ctx Hl]. repeat split.
    + intros _. rewrite Hl. discriminate.
    + apply StoreFacts.dict_delete_lookup.
    + intros other Hne. apply dict_lookup_delete_other. exact Hne.
    + discriminate.
  - assert (Hl : dict_lookup sid (sessions mgr) = None).
    { destruct (dict_lookup sid (sessions mgr)) as [ctx |] eqn:Hl; [| reflexivity].
      apply StoreFacts.dict_lookup_in in Hl.
      assert (Hex : existsb (fun entry => String.eqb (fst entry) sid) (sessions mgr) = true).
      { apply existsb_exists. exists (sid, ctx). split; [exact Hl |].
        cbn. apply String.eqb_refl. }
      unfold dict_contains in Hc. congruence. }
    repeat split.
    + discriminate.
    + intros Hne. contradiction.
    + exact Hl.
Qed.

(** *** The context prompt *)

Lemma length_append (s1 s2 : string) :
  String.length (s1 ++ s2) = (String.length s1 + String.length s2)%nat.
Proof.
  induction s1 as [| c s1 IH]; [reflexivity |].
  change (S (String.length (s1 ++ s2)) = S (String.length s1 + String.length s2)).
  rewrite IH. reflexivity.
Qed.

Lemma concat_length_first sep x rest :
  (String.length x <= String.length (String.concat sep (x :: rest)))%nat.
Proof.
  destruct rest as [| y rest]; cbn [String.concat]; [lia |].
  rewrite length_append. lia.
Qed.

Lemma slice_from_nonempty {A : Type} (k : Z) (l : list A) :
  1 <= k -> l <> [] -> slice_from (- k) l <> [].
Proof.
  intros Hk Hl Hnil. apply (f_equal (@length A)) in Hnil.
  unfold slice_from in Hnil. rewrite length_skipn in Hnil. cbn [length] in Hnil.
  destruct l as [| x l]; [congruence |]. cbn [length] in Hnil.
  destruct (Z.ltb_spec (- k) 0); lia.
Qed.

(** The text of a history with at least one message is not empty. *)
Lemma history_text_nonempty capitalize ctx :
  messages ctx <> [] ->
  (2 <= String.length (get_history_as_text capitalize ctx 3))%nat.
Proof.
  intros Hmsgs. unfold get_history_as_text, get_history.
  pose proof (slice_from_nonempty 3 (messages ctx) ltac:(lia) Hmsgs) as Hne.
  destruct (slice_from _ (messages ctx)) as [| msg rest]; [congruence |].
  cbn [map]. etransitivity; [| apply concat_length_first].
  rewrite !length_append. cbn [String.length]. lia.
Qed.

(** X14. [get_context_prompt] returns the query unchanged exactly when the
    session is unknown or has no message; otherwise it returns the template
    around the text of the last messages, so the inner test for an empty
    history text never fires. *)
Theorem get_context_prompt_bare_query capitalize mgr sid current_query :
  (get_context_prompt capitalize mgr sid current_query = current_query
   <-> get_session mgr sid = None
       \/ exists ctx, get_session mgr sid = Some ctx /\ messages ctx = [])
  /\ forall ctx, get_session mgr sid = Some ctx -> messages ctx <> [] ->
       get_context_prompt capitalize mgr sid current_query
       = "Previous conversation:" ++ NL ++ get_history_as_text capitalize ctx 3
         ++ NL ++ NL ++ "Current question: " ++ current_query ++ NL ++ NL
         ++ "Please consider the conversation context when answering.".
Proof.
  assert (Hfull : forall ctx, get_session mgr sid = Some ctx -> messages ctx <> [] ->
            get_context_prompt capitalize mgr sid current_query
            = "Previous conversation:" ++ NL ++ get_history_as_text capitalize ctx 3
              ++ NL ++ NL ++ "Current question: " ++ current_query ++ NL ++ NL
              ++ "Please consider the conversation context when answering.").
  { intros ctx Hs Hmsgs. unfold get_context_prompt. rewrite Hs.
    pose proof (history_text_nonempty capitalize ctx Hmsgs) as Hlen.
    destruct (messages ctx) as [| m ms]; [congruence |].
    destruct (String.eqb_spec (get_history_as_text capitalize ctx 3) EmptyString) as [He | _];
      [| reflexivity].
    rewrite He in Hlen. cbn in Hlen. lia. }
  split; [| exact Hfull].
  split.
  - intros Hsame. destruct (get_session mgr sid) as [ctx |] eqn:Hs; [| left; reflexivity].
    right. exists ctx. split; [reflexivity |].
    destruct (messages ctx) as [| m ms] eqn:Hm; [reflexivity |]. exfalso.
    assert (Hne : messages ctx <> []) by (rewrite Hm; discriminate).
    rewrite (Hfull ctx eq_refl Hne) in Hsame.
    apply (f_equal String.length) in Hsame.
    rewrite !length_append in Hsame. cbn [String.length] in Hsame. lia.
  - unfold get_context_prompt. intros [Hs | (ctx & Hs & Hm)]; rewrite Hs; [reflexivity |].
    rewrite Hm. reflexivity.
Qed.

End StoreProps.

(** ** The manager's message methods and the admin clean-up *)

Module ManagerProps.
Import Py Context Store Manager.

Lemma update_entry_lookup sid f (d : session_dict) other :
  dict_lookup other (update_entry sid f d)
  = if String.eqb other sid then option_map f (dict_lookup other d)
    else dict_lookup other d.
Proof.
  induction d as [| [k c] rest IH]; cbn [update_entry map dict_lookup fst snd].
  - destruct (String.eqb other sid); reflexivity.
  - fold (update_entry sid f rest).
    destruct (String.eqb_spec k sid) as [-> | Hks]; cbn [dict_lookup fst snd].
    + destruct (String.eqb_spec sid other) as [<- | Hso].
      * rewrite String.eqb_refl. reflexivity.
      * exact IH.
    + destruct (String.eqb_spec k other) as [<- | Hko].
      * destruct (String.eqb_spec k sid); [contradiction | reflexivity].
      * exact IH.
Qed.

Lemma language_value_kept language lang dflt :
  language_of_value language = Some lang -> str_or (Some language) dflt = language.
Proof.
  intros Hlang. unfold str_or.
  destruct (String.eqb_spec language EmptyString) as [-> | _]; [discriminate | reflexivity].
Qed.

Lemma slice_from_snoc {A : Type} (limit : Z) (l : list A) (x : A) :
  1 <= limit -> exists earlier, slice_from (- limit) (l ++ [x])%list = (earlier ++ [x])%list.
Proof.
  intros Hlimit. unfold slice_from. rewrite length_app. cbn [length].
  destruct (Z.ltb_spec (- limit) 0) as [_ | ?]; [| lia].
  set (k := Z.to_nat _). exists (skipn k l). rewrite skipn_app.
  replace (k - length l)%nat with 0%nat by (unfold k; lia). reflexivity.
Qed.

(** X15. A message added through [ContextManager.add_message] is the last
    one [get_conversation_history] returns for that session, for a known id
    as for a new one, provided the store has room for a session, the new
    context is not past the timeout and the stored context keeps at least
    one message. *)
Theorem manager_add_message_then_history
    mgr sid role content language lang (t_created t_updated now t_stamp t_update : time)
    (limit : Z) :
  language_of_value language = Some lang ->
  1 <= max_sessions mgr ->
  now - t_updated <= session_timeout mgr ->
  (forall ctx, get_session mgr sid = Some ctx -> 1 <= max_messages ctx) ->
  1 <= limit ->
  snd (add_message mgr sid role content language
         t_created t_updated now t_stamp t_update) = Ok tt
  /\ exists earlier,
       get_conversation_history
         (fst (add_message mgr sid role content language
                 t_created t_updated now t_stamp t_update)) sid limit
       = (earlier ++ [ {| Context.role := role; Context.content := content;
                          msg_language := language; timestamp := t_stamp;
                          msg_metadata := no_metadata |} ])%list.
Proof.
  intros Hlang HM Hfresh Hkeeps Hlimit. unfold add_message. rewrite Hlang.
  destruct (StoreProps.get_or_create_lookup mgr sid lang t_created t_updated now HM Hfresh)
    as [Hret Hget].
  destruct (get_or_create_session mgr sid lang t_created t_updated now) as [mgr1 outcome].
  cbn [fst snd] in Hret, Hget. rewrite Hret. cbn [fst snd].
  split; [reflexivity |].
  unfold get_conversation_history, get_session in *. cbn [with_sessions sessions].
  rewrite update_entry_lookup, String.eqb_refl, Hget. cbn [option_map].
  set (ctx0 := match dict_lookup sid (sessions mgr) with
               | Some ctx => ctx
               | None => new_context sid lang 10 t_created t_updated
               end).
  assert (Hmax : 1 <= max_messages ctx0).
  { unfold ctx0. destruct (dict_lookup sid (sessions mgr)) as [ctx |] eqn:Hl.
    - apply Hkeeps. reflexivity.
    - cbn. lia. }
  unfold get_history, Context.add_message. cbn [messages].
  rewrite (language_value_kept language lang _ Hlang).
  match goal with
  | |- context [(messages ctx0 ++ [?msg])%list] =>
      destruct (ContextProps.append_and_trim (max_messages ctx0) (messages ctx0) msg Hmax)
        as (dropped & kept & _ & Hnew & _)
  end.
  rewrite Hnew. apply slice_from_snoc. exact Hlimit.
Qed.

Lemma manager_add_message_then_history_witness :
  snd (add_message context_manager "s1" "user" "hello" "en" 0 0 0 1 2) = Ok tt
  /\ exists earlier,
       get_conversation_history
         (fst (add_message context_manager "s1" "user" "hello" "en" 0 0 0 1 2)) "s1" 5
       = (earlier ++ [ {| Context.role := "user"; Context.content := "hello";
                          msg_language := "en"; timestamp := 1;
                          msg_metadata := no_metadata |} ])%list.
Proof.
  apply (manager_add_message_then_history
           context_manager "s1" "user" "hello" "en" ENGLISH 0 0 0 1 2 5).
  - reflexivity.
  - vm_compute. discriminate.
  - vm_compute. discriminate.
  - intros ctx Hget. vm_compute in Hget. discriminate Hget.
  - lia.
Defined.

Lemma update_entry_keys sid f (d : session_dict) :
  map fst (update_entry sid f d) = map fst d.
Proof.
  unfold update_entry. rewrite map_map. apply map_ext.
  intros [k c]. cbn. destruct (String.eqb k sid); reflexivity.
Qed.

(** X16. [update_session_language] changes the language of the named
    session and nothing else in it; the other sessions, the ids and their
    order stay as they are, and an unknown id leaves the store unchanged. *)
Theorem update_session_language_only mgr sid lang :
  get_session (update_session_language mgr sid lang) sid
  = option_map (with_language lang) (get_session mgr sid)
  /\ (forall other, other <> sid ->
        get_session (update_session_language mgr sid lang) other
        = get_session mgr other)
  /\ map fst (sessions (update_session_language mgr sid lang)) = map fst (sessions mgr)
  /\ (get_session mgr sid = None -> update_session_language mgr sid lang = mgr).
Proof.
  unfold update_session_language, get_session.
  destruct (dict_lookup sid (sessions mgr)) as [ctx |] eqn:Hl;
    cbn [with_sessions sessions option_map].
  - repeat split.
    + rewrite update_entry_lookup, String.eqb_refl, Hl. reflexivity.
    + intros other Hne. rewrite update_entry_lookup.
      destruct (String.eqb_spec other sid); [contradiction | reflexivity].
    + apply update_entry_keys.
    + discriminate.
  - repeat split. exact Hl.
Qed.

(** *** The admin clean-up *)

Lemma dict_contains_absent sid (d : session_dict) :
  dict_contains sid d = false -> ~ In sid (map fst d).
Proof.
  intros Hc Hin. apply in_map_iff in Hin as (e & He & Hin).
  assert (Hex : dict_contains sid d = true).
  { apply existsb_exists. exists e. split; [exact Hin |]. rewrite He. apply String.eqb_refl. }
  congruence.
Qed.

Lemma clear_session_sessions m sid :
  sessions (fst (clear_session m sid)) = dict_delete sid (sessions m)
  /\ max_sessions (fst (clear_session m sid)) = max_sessions m.
Proof.
  unfold clear_session. destruct (dict_contains sid (sessions m)) eqn:Hc; cbn.
  - split; reflexivity.
  - rewrite (StoreProps.dict_delete_absent _ _ (dict_contains_absent _ _ Hc)).
    split; reflexivity.
Qed.

Lemma fold_clear_sessions (ids : list string) : forall m,
  sessions (fold_left (fun m sid => fst (clear_session m sid)) ids m)
  = fold_left (fun d k => dict_delete k d) ids (sessions m).
Proof.
  induction ids as [| k rest IH]; intros m; cbn [fold_left]; [reflexivity |].
  rewrite IH. rewrite (proj1 (clear_session_sessions m k)). reflexivity.
Qed.

Lemma fold_delete_filter (ids : list string) : forall d : session_dict,
  fold_left (fun d k => dict_delete k d) ids d
  = List.filter (fun entry => negb (existsb (String.eqb (fst entry)) ids)) d.
Proof.
  induction ids as [| k rest IH]; intros d; cbn [fold_left existsb].
  - induction d as [| e d IHd]; cbn; [reflexivity | f_equal; exact IHd].
  - rewrite IH. unfold dict_delete.
    induction d as [| e d IHd]; cbn [List.filter]; [reflexivity |].
    destruct (String.eqb (fst e) k); cbn [negb orb List.filter]; [exact IHd |].
    destruct (existsb (String.eqb (fst e)) rest); cbn [negb]; [exact IHd |].
    f_equal. exact IHd.
Qed.

Lemma entry_by_key (d : session_dict) e1 e2 :
  List.NoDup (map fst d) -> In e1 d -> In e2 d -> fst e1 = fst e2 -> e1 = e2.
Proof.
  induction d as [| e d IH]; cbn; intros Hnd H1 H2 Hk; [contradiction |].
  inversion Hnd as [| ? ? Hout Hrest]; subst.
  destruct H1 as [-> | H1], H2 as [-> | H2].
  - reflexivity.
  - exfalso. apply Hout. rewrite Hk. apply in_map. exact H2.
  - exfalso. apply Hout. rewrite <- Hk. apply in_map. exact H1.
  - exact (IH Hrest H1 H2 Hk).
Qed.

(** X17. On a store with distinct ids, when the cutoff [now - hours] can
    be computed (the hours make a [timedelta] and the cutoff is a
    [datetime]), the admin clean-up removes exactly the sessions last
    updated before the cutoff, keeps the others in their order, and
    reports counts that add up to the number of sessions there were; when
    the cutoff cannot be computed the route raises an [HTTPException] and
    the store is unchanged. *)
Theorem clear_old_sessions_partition mgr (h : Z) (now : time) :
  List.NoDup (map fst (sessions mgr)) ->
  (Z.abs (hours h / day) <= 999999999 ->
   0 <= now - hours h <= datetime_max ->
   exists report,
     snd (clear_old_sessions mgr h now) = Ok report
     /\ sessions (fst (clear_old_sessions mgr h now))
        = List.filter (fun entry => negb (updated_at (snd entry) <? now - hours h))
            (sessions mgr)
     /\ Nat.add (cleared_sessions report) (remaining_sessions report)
        = get_session_count mgr)
  /\ (~ (Z.abs (hours h / day) <= 999999999 /\ 0 <= now - hours h <= datetime_max) ->
      clear_old_sessions mgr h now = (mgr, Raised "HTTPException")).
Proof.
  intros Hnd. unfold clear_old_sessions, timedelta_hours, datetime_sub, is_datetime.
  split.
  - intros Hdelta [Hlow Hhigh].
    destruct (Z.leb_spec (Z.abs (hours h / day)) 999999999) as [_ | ?]; [| lia].
    destruct (Z.leb_spec 0 (now - hours h)) as [_ | ?]; [| lia].
    destruct (Z.leb_spec (now - hours h) datetime_max) as [_ | ?]; [| lia].
    cbn [andb fst snd]. eexists. split; [reflexivity |].
    cbn [cleared_sessions remaining_sessions]. unfold get_session_count.
    assert (Hkept : sessions (fold_left (fun m sid => fst (clear_session m sid))
                                (sessions_to_clear mgr (now - hours h)) mgr)
                    = List.filter
                        (fun entry => negb (updated_at (snd entry) <? now - hours h))
                        (sessions mgr)).
    { rewrite fold_clear_sessions, fold_delete_filter.
      apply List.filter_ext_in. intros e He. f_equal.
      unfold sessions_to_clear.
      destruct (updated_at (snd e) <? now - hours h) eqn:Hold.
      - apply existsb_exists. exists (fst e). split; [| apply String.eqb_refl].
        apply in_map. apply filter_In. split; assumption.
      - destruct (existsb _ _) eqn:Hex; [| reflexivity].
        apply existsb_exists in Hex as (k & Hk & Heq).
        apply String.eqb_eq in Heq. subst k.
        apply in_map_iff in Hk as (e' & Hkey & He').
        apply filter_In in He' as [He' Hold'].
        rewrite (entry_by_key _ e' e Hnd He' He Hkey) in Hold'. congruence. }
    split; [exact Hkept |].
    rewrite Hkept. unfold sessions_to_clear. rewrite length_map.
    apply List.filter_length.
  - intros Hout.
    destruct (Z.leb_spec (Z.abs (hours h / day)) 999999999) as [Hdelta | _];
      [| reflexivity].
    destruct (Z.leb_spec 0 (now - hours h)) as [Hlow | _]; [| reflexivity].
    destruct (Z.leb_spec (now - hours h) datetime_max) as [Hhigh | _]; [| reflexivity].
    exfalso. apply Hout. lia.
Qed.

Lemma clear_old_sessions_partition_witness :
  (Z.abs (hours 24 / day) <= 999999999 ->
   0 <= 90000000000 - hours 24 <= datetime_max ->
   exists report,
     snd (clear_old_sessions
            (run_calls context_manager [sample_call 0; sample_call 1])
            24 90000000000) = Ok report
     /\ sessions (fst (clear_old_sessions
                         (run_calls context_manager [sample_call 0; sample_call 1])
                         24 90000000000))
        = List.filter (fun entry => negb (updated_at (snd entry) <? 90000000000 - hours 24))
            (sessions (run_calls context_manager [sample_call 0; sample_call 1]))
     /\ Nat.add (cleared_sessions report) (remaining_sessions report)
        = get_session_count (run_calls context_manager [sample_call 0; sample_call 1]))
  /\ (~ (Z.abs (hours 24 / day) <= 999999999
         /\ 0 <= 90000000000 - hours 24 <= datetime_max) ->
      clear_old_sessions (run_calls context_manager [sample_call 0; sample_call 1])
        24 90000000000
      = (run_calls context_manager [sample_call 0; sample_call 1],
         Raised "HTTPException")).
Proof.
  apply (clear_old_sessions_partition
           (run_calls context_manager [sample_call 0; sample_call 1]) 24 90000000000).
  apply StoreFacts.nodupb_sound. vm_compute. reflexivity.
Defined.

(** The clean-up of the sample store 25 hours after [datetime.min]: both
    sessions are older than the cutoff. *)
Example clear_old_sessions_sample :
  snd (clear_old_sessions (run_calls context_manager [sample_call 0; sample_call 1])
         24 90000000000)
  = Ok {| cleared_sessions := 2; remaining_sessions := 0 |}.
Proof. vm_compute. reflexivity. Qed.

(** A hundred million hours reach back before [datetime.min]: the
    subtraction overflows and the route answers with its error. *)
Example clear_old_sessions_overflow :
  clear_old_sessions (run_calls context_manager [sample_call 0; sample_call 1])
    100000000 90000000000
  = (run_calls context_manager [sample_call 0; sample_call 1], Raised "HTTPException").
Proof. vm_compute. reflexivity. Qed.

End ManagerProps.

(** ** Keywords and the FAQ search *)

Module FAQProps.
Import Py FAQ.

Lemma str_in_In word words : str_in word words = true <-> In word words.
Proof.
  unfold str_in. rewrite existsb_exists. split.
  - intros (w & Hin & Heq). apply String.eqb_eq in Heq. subst w. exact Hin.
  - intros Hin. exists word. split; [exact Hin | apply String.eqb_refl].
Qed.

Lemma unique_from_in keywords : forall seen w,
  In w (unique_from seen keywords) <-> In w keywords /\ ~ In w seen.
Proof.
  induction keywords as [| a rest IH]; intros seen w; cbn [unique_from In]; [tauto |].
  destruct (str_in a seen) eqn:Hseen.
  - apply str_in_In in Hseen. rewrite IH. split; [tauto |].
    intros [[-> | Hin] Hout]; [contradiction | tauto].
  - assert (Ha : ~ In a seen).
    { intros Hin. apply str_in_In in Hin. congruence. }
    cbn [In]. rewrite IH. cbn [In]. split.
    + intros [-> | [Hin Hout]]; [tauto | tauto].
    + intros [[-> | Hin] Hout]; [left; reflexivity |].
      destruct (string_dec a w) as [-> | Hne]; [left; reflexivity | right; tauto].
Qed.

Lemma unique_from_nodup keywords : forall seen, List.NoDup (unique_from seen keywords).
Proof.
  induction keywords as [| a rest IH]; intros seen; cbn [unique_from]; [constructor |].
  destruct (str_in a seen); [apply IH |].
  constructor; [| apply IH].
  rewrite unique_from_in. intros [_ Hout]. apply Hout. left. reflexivity.
Qed.

Section Search.

Variable lower : string -> string.
Variable strip_punctuation : string -> string.
Variable split : string -> list string.

Context {Answer : Type}.

Abbreviation extract_keywords := (extract_keywords lower strip_punctuation split).
Abbreviation query_keywords := (query_keywords lower strip_punctuation split).
Abbreviation all_faq_keywords :=
  (all_faq_keywords lower strip_punctuation split (Answer := Answer)).
Abbreviation category_selected := (category_selected lower (Answer := Answer)).
Abbreviation retained := (retained lower strip_punctuation split (Answer := Answer)).
Abbreviation score_faq := (score_faq lower strip_punctuation split (Answer := Answer)).
Abbreviation score_all := (score_all lower strip_punctuation split (Answer := Answer)).
Abbreviation search_faqs :=
  (search_faqs lower strip_punctuation split (Answer := Answer)).

(** X18. [extract_keywords] returns no word twice, and returns exactly the
    words of the lower-cased, punctuation-free text that have at least
    [min_length] characters and are not stop words. *)
Theorem extract_keywords_members text min_length :
  List.NoDup (extract_keywords text min_length)
  /\ forall word,
       In word (extract_keywords text min_length)
       <-> In word (split (strip_punctuation (lower text)))
           /\ (min_length <= str_len word)%nat
           /\ ~ In word stop_words.
Proof.
  unfold FAQ.extract_keywords. split; [apply unique_from_nodup |].
  intros word. rewrite unique_from_in, filter_In, andb_true_iff, negb_true_iff.
  rewrite Nat.leb_le. split.
  - intros [(Hin & Hlen & Hstop) _]. repeat split; try assumption.
    intros Hs. apply str_in_In in Hs. congruence.
  - intros (Hin & Hlen & Hstop). split; [| tauto]. repeat split; try assumption.
    destruct (str_in word stop_words) eqn:Hs; [| reflexivity].
    apply str_in_In in Hs. contradiction.
Qed.

(** A FAQ that is retained and lacks its question or its answer makes
    the loop raise. *)
Lemma score_faq_incomplete query_kws wanted faq :
  retained query_kws wanted faq = true ->
  faq_question faq = None \/ faq_answer faq = None ->
  exists e, score_faq query_kws wanted faq = Raised e.
Proof.
  unfold FAQ.score_faq, FAQ.retained.
  destruct (category_selected wanted faq) as [[|] | e]; try discriminate.
  destruct (all_faq_keywords faq) as [faq_kws | e]; [| discriminate].
  destruct (decide (query_kws ∩ faq_kws = ∅)) as [Hempty | Hne].
  { rewrite bool_decide_eq_true_2 by exact Hempty. discriminate. }
  intros _ Hmissing.
  destruct (priority_boost faq) as [boost | e]; [| eexists; reflexivity].
  destruct (faq_question faq) as [q |]; [| eexists; reflexivity].
  destruct (faq_answer faq) as [a |]; [| eexists; reflexivity].
  destruct Hmissing; discriminate.
Qed.

Lemma score_all_raises query_kws wanted faqs faq e :
  In faq faqs -> score_faq query_kws wanted faq = Raised e ->
  exists e', score_all query_kws wanted faqs = Raised e'.
Proof.
  induction faqs as [| f rest IH]; intros Hin Hraise; [destruct Hin |].
  cbn [FAQ.score_all].
  destruct (score_faq query_kws wanted f) as [entry | e0] eqn:Hf;
    [| eexists; reflexivity].
  destruct Hin as [-> | Hin]; [congruence |].
  destruct (IH Hin Hraise) as [e' He']. rewrite He'. eexists. reflexivity.
Qed.

Lemma lower_each_strings items :
  forallb is_str items = true -> exists lowered, lower_each lower items = Ok lowered.
Proof.
  induction items as [| k rest IH]; cbn [forallb lower_each]; [eexists; reflexivity |].
  intros H. apply andb_true_iff in H as [Hk Hrest].
  destruct k; try discriminate. cbn [lower_of].
  destruct (IH Hrest) as [lowered Hl]. rewrite Hl. eexists. reflexivity.
Qed.

(** Every statement of the loop can be evaluated on a document with the
    types of the schema. *)
Lemma schema_typed_reads wanted (faq : FAQDoc Answer) :
  schema_typed faq = true ->
  (exists selected, category_selected wanted faq = Ok selected)
  /\ (exists faq_kws, all_faq_keywords faq = Ok faq_kws)
  /\ (exists boost, priority_boost faq = Ok boost).
Proof.
  unfold schema_typed. rewrite !andb_true_iff. intros [[[Hq Hc] Hk] Hp].
  repeat split.
  - unfold FAQ.category_selected. destruct wanted as [c |]; [| eexists; reflexivity].
    destruct (String.eqb c EmptyString); [eexists; reflexivity |].
    destruct (faq_category faq) as [v |]; cbn [default id];
      [destruct v; try discriminate |]; cbn [lower_of]; eexists; reflexivity.
  - unfold FAQ.all_faq_keywords, declared_keywords, question_keywords.
    assert (Hdeclared : exists lowered,
              match iterate (default (JList []) (faq_keywords faq)) with
              | Raised e => Raised e
              | Ok items => lower_each lower items
              end = Ok lowered).
    { destruct (faq_keywords faq) as [v |]; cbn [default id];
        [destruct v; try discriminate; cbn [iterate]; apply lower_each_strings; exact Hk
        | eexists; reflexivity]. }
    destruct Hdeclared as [lowered Hl].
    destruct (iterate (default (JList []) (faq_keywords faq))) as [items | e];
      [| discriminate].
    rewrite Hl.
    destruct (faq_question faq) as [v |]; cbn [default id];
      [destruct v; try discriminate |]; cbn [lower_of]; eexists; reflexivity.
  - unfold priority_boost.
    destruct (faq_priority faq) as [v |]; cbn [default id].
    + destruct v; try discriminate. cbn [times_tenth].
      apply negb_true_iff in Hp. rewrite Hp. eexists. reflexivity.
    + eexists. reflexivity.
Qed.

Lemma score_faq_returns query_kws wanted faq :
  schema_typed faq = true ->
  (retained query_kws wanted faq = true ->
   faq_question faq <> None /\ faq_answer faq <> None) ->
  exists entry, score_faq query_kws wanted faq = Ok entry.
Proof.
  intros Htyped Hcomplete.
  destruct (schema_typed_reads wanted faq Htyped)
    as ([selected Hsel] & [faq_kws Hkws] & [boost Hboost]).
  unfold FAQ.score_faq, FAQ.retained in *. rewrite Hsel, Hkws in *.
  destruct selected; [| eexists; reflexivity].
  destruct (decide (query_kws ∩ faq_kws = ∅)) as [Hempty | Hne];
    [eexists; reflexivity |].
  rewrite bool_decide_eq_false_2 in Hcomplete by exact Hne.
  destruct (Hcomplete eq_refl) as [Hq Ha]. rewrite Hboost.
  destruct (faq_question faq) as [q |]; [| contradiction].
  destruct (faq_answer faq) as [a |]; [| contradiction].
  eexists. reflexivity.
Qed.

Lemma score_all_returns query_kws wanted faqs :
  (forall faq, In faq faqs -> schema_typed faq = true) ->
  (forall faq, In faq faqs -> retained query_kws wanted faq = true ->
     faq_question faq <> None /\ faq_answer faq <> None) ->
  exists scored, score_all query_kws wanted faqs = Ok scored.
Proof.
  induction faqs as [| faq rest IH]; intros Htyped Hcomplete; cbn [FAQ.score_all].
  - eexists. reflexivity.
  - destruct (score_faq_returns query_kws wanted faq) as [entry He].
    { apply Htyped. left. reflexivity. }
    { apply Hcomplete. left. reflexivity. }
    rewrite He.
    destruct IH as [scored Hs].
    { intros f Hf. apply Htyped. right. exact Hf. }
    { intros f Hf. apply Hcomplete. right. exact Hf. }
    rewrite Hs. eexists. reflexivity.
Qed.

(** X19. One FAQ on which the loop of [search_faqs] raises empties the
    whole result: an error is reported with no match and a total of zero,
    whatever the other FAQs are.  A FAQ that passes the category filter,
    shares a keyword with the query and lacks its question or its answer
    is such a FAQ; and when every FAQ has the field types of the schema,
    these are the only ones: an error is reported exactly when there is
    one. *)
Theorem search_faqs_error faqs query wanted limit :
  (error (search_faqs faqs query wanted limit) <> None ->
   matches (search_faqs faqs query wanted limit) = []
   /\ total (search_faqs faqs query wanted limit) = 0%nat)
  /\ ((exists faq, In faq faqs
                   /\ retained (query_keywords query) wanted faq = true
                   /\ (faq_question faq = None \/ faq_answer faq = None)) ->
      error (search_faqs faqs query wanted limit) <> None)
  /\ ((forall faq, In faq faqs -> schema_typed faq = true) ->
      (error (search_faqs faqs query wanted limit) = None
       <-> forall faq, In faq faqs ->
             retained (query_keywords query) wanted faq = true ->
             faq_question faq <> None /\ faq_answer faq <> None)).
Proof.
  assert (Hincomplete :
            (exists faq, In faq faqs
                         /\ retained (query_keywords query) wanted faq = true
                         /\ (faq_question faq = None \/ faq_answer faq = None)) ->
            error (search_faqs faqs query wanted limit) <> None).
  { intros (faq & Hin & Hret & Hmissing).
    destruct (score_faq_incomplete _ _ _ Hret Hmissing) as [e He].
    destruct (score_all_raises _ _ _ _ _ Hin He) as [e' He'].
    unfold FAQ.search_faqs. destruct faqs as [| f rest]; [destruct Hin |].
    rewrite He'. cbn [error]. discriminate. }
  split; [| split; [exact Hincomplete |]].
  - unfold FAQ.search_faqs. destruct faqs as [| faq rest];
      [cbn [error]; intros H; contradiction |].
    destruct (score_all (query_keywords query) wanted (faq :: rest)) as [scored | e];
      cbn [error matches total]; [intros H; contradiction | intros _; split; reflexivity].
  - intros Htyped. split.
    + intros Hnone faq Hin Hret.
      destruct (faq_question faq) as [q |] eqn:Hq, (faq_answer faq) as [a |] eqn:Ha;
        try (split; discriminate);
        exfalso; apply Hincomplete; [| exact Hnone | | exact Hnone | | exact Hnone];
        exists faq; rewrite ?Hq, ?Ha; tauto.
    + intros Hcomplete.
      destruct (score_all_returns (query_keywords query) wanted faqs Htyped Hcomplete)
        as [scored Hs].
      unfold FAQ.search_faqs. destruct faqs as [| faq rest]; [reflexivity |].
      rewrite Hs. reflexivity.
Qed.

(** X20. For a limit that is not negative [search_faqs] returns
    min(limit, total) matches; a negative limit does not raise: it drops
    that many matches from the end of the ranking.  No returned score is
    greater than 1.0. *)
Theorem search_faqs_bounds faqs query wanted limit :
  (0 <= limit ->
   length (matches (search_faqs faqs query wanted limit))
   = Nat.min (Z.to_nat limit) (total (search_faqs faqs query wanted limit)))
  /\ (limit < 0 ->
      length (matches (search_faqs faqs query wanted limit))
      = (total (search_faqs faqs query wanted limit) - Z.to_nat (- limit))%nat)
  /\ forall m, In m (matches (search_faqs faqs query wanted limit)) ->
       PrimFloat.ltb 1%float (score m) = false.
Proof.
  unfold FAQ.search_faqs. destruct faqs as [| faq rest].
  { cbn [matches total error length]. repeat split; try (intros; lia). intros m []. }
  destruct (score_all (query_keywords query) wanted (faq :: rest)) as [scored | e] eqn:Hall;
    cbn [matches total error].
  2:{ cbn [length]. repeat split; try (intros; lia). intros m []. }
  assert (Hlen : length (sort_by_score scored) = length scored).
  { apply Permutation_length. apply FAQFacts.sort_by_score_perm. }
  repeat split.
  - intros Hlimit. unfold slice_to. rewrite length_firstn, Hlen.
    destruct (Z.ltb_spec limit 0); lia.
  - intros Hlimit. unfold slice_to. rewrite length_firstn, Hlen.
    destruct (Z.ltb_spec limit 0); lia.
  - intros m Hin. apply FAQFacts.in_slice_to in Hin.
    apply (Permutation_in _ (FAQFacts.sort_by_score_perm scored)) in Hin.
    destruct (FAQFacts.score_all_entries _ _ _ _ _ _ _ Hall m Hin)
      as (f & _ & _ & faq_kws & boost & _ & _ & _ & _ & _ & Hscore).
    rewrite Hscore. apply IntentProps.fmin_not_above.
Qed.

End Search.

(** The sample table has the field types of the schema. *)
Example sample_faqs_schema_typed : forallb schema_typed sample_faqs = true.
Proof. vm_compute. reflexivity. Qed.

End FAQProps.

(** ** Pagination and the combined confidence *)

Module HelpersProps.
Import Py Helpers.

Lemma firstn_plus {A : Type} (a b : nat) : forall l : list A,
  firstn (a + b) l = (firstn a l ++ firstn b (skipn a l))%list.
Proof.
  induction a as [| a IH]; intros l; [reflexivity |].
  destruct l as [| x l]; cbn [Nat.add firstn skipn app].
  - rewrite firstn_nil. reflexivity.
  - f_equal. apply IH.
Qed.

(** The first [m] chunks of [p] elements are the first [m * p] elements. *)
Lemma chunks_firstn {A : Type} (p : nat) (l : list A) (m : nat) :
  flat_map (fun k => firstn p (skipn (k * p) l)) (seq 0 m) = firstn (m * p) l.
Proof.
  induction m as [| m IH]; [reflexivity |].
  rewrite seq_S, flat_map_app, IH. cbn [flat_map Nat.add]. rewrite app_nil_r.
  replace (S m * p)%nat with (m * p + p)%nat by lia.
  symmetry. apply firstn_plus.
Qed.

(** A slice between two indices that are not negative. *)
Lemma slice_chunk {A : Type} (start size : Z) (l : list A) :
  0 <= start -> 0 <= size ->
  slice start (start + size) l = firstn (Z.to_nat size) (skipn (Z.to_nat start) l).
Proof.
  intros Hstart Hsize. unfold slice.
  destruct (Z.ltb_spec start 0) as [? | _]; [lia |].
  destruct (Z.ltb_spec (start + size) 0) as [? | _]; [lia |].
  destruct (Z.le_gt_cases (Z.of_nat (length l)) start) as [Hout | Hin].
  - assert (Hnone : skipn (Z.to_nat start) l = []) by (apply skipn_all2; lia).
    rewrite Hnone, firstn_nil, !Z.min_r by lia. rewrite Z.sub_diag. reflexivity.
  - rewrite (Z.min_l start) by lia.
    destruct (Z.le_gt_cases (start + size) (Z.of_nat (length l))) as [Hfits | Hover].
    + rewrite Z.min_l by lia. f_equal. lia.
    + rewrite Z.min_r by lia.
      rewrite !firstn_all2; [reflexivity | |]; rewrite length_skipn; lia.
Qed.

(** X21. [paginate] raises [ZeroDivisionError] for [per_page = 0].  For
    [per_page >= 1] and a page number from 1 on, the page holds at most
    [per_page] items, taken after the first [(page - 1) * per_page];
    [has_next] says whether items remain after the page; and the pages 1
    to [total_pages], one after the other, are the whole list. *)
Theorem paginate_pages {A : Type} (items : list A) (per_page : Z) :
  (forall page, paginate items page 0 = Raised "ZeroDivisionError")
  /\ (1 <= per_page ->
      (forall page, 1 <= page ->
         exists pg,
           paginate items page per_page = Ok pg
           /\ page_items pg
              = firstn (Z.to_nat per_page)
                  (skipn (Z.to_nat ((page - 1) * per_page)) items)
           /\ Z.of_nat (length (page_items pg)) <= per_page
           /\ (page_has_next pg = true
               <-> page * per_page < Z.of_nat (length items)))
      /\ flat_map (fun k => match paginate items (Z.of_nat k + 1) per_page with
                            | Ok pg => page_items pg
                            | Raised _ => []
                            end)
           (seq 0 (Z.to_nat ((Z.of_nat (length items) + per_page - 1) / per_page)))
         = items).
Proof.
  split; [reflexivity |]. intros Hpp.
  assert (Hpage : forall page, 1 <= page ->
            paginate items page per_page
            = Ok {| page_items :=
                      firstn (Z.to_nat per_page)
                        (skipn (Z.to_nat ((page - 1) * per_page)) items);
                    page_number := page; page_per_page := per_page;
                    page_total := Z.of_nat (length items);
                    page_total_pages :=
                      (Z.of_nat (length items) + per_page - 1) / per_page;
                    page_has_next :=
                      page <? (Z.of_nat (length items) + per_page - 1) / per_page;
                    page_has_prev := 1 <? page |}).
  { intros page Hp. unfold paginate.
    destruct (Z.eqb_spec per_page 0) as [? | _]; [lia |].
    rewrite slice_chunk by nia. reflexivity. }
  split.
  - intros page Hp. eexists. split; [apply (Hpage page Hp) |].
    cbn [page_items page_has_next]. split; [reflexivity |]. split.
    + rewrite length_firstn. lia.
    + rewrite Z.ltb_lt.
      pose proof (Z.div_mod (Z.of_nat (length items) + per_page - 1) per_page
                    ltac:(lia)) as Hdiv.
      pose proof (Z.mod_pos_bound (Z.of_nat (length items) + per_page - 1) per_page
                    ltac:(lia)) as Hmod.
      split; intros H; nia.
  - rewrite (flat_map_ext _
               (fun k => firstn (Z.to_nat per_page)
                           (skipn (k * Z.to_nat per_page) items))).
    2:{ intros k. rewrite (Hpage (Z.of_nat k + 1)) by lia. cbn [page_items].
        do 2 f_equal. replace (Z.of_nat k + 1 - 1) with (Z.of_nat k) by lia.
        rewrite Z2Nat.inj_mul by lia. rewrite Nat2Z.id. reflexivity. }
    rewrite chunks_firstn. apply firstn_all2.
    pose proof (Z.div_mod (Z.of_nat (length items) + per_page - 1) per_page
                  ltac:(lia)) as Hdiv.
    pose proof (Z.mod_pos_bound (Z.of_nat (length items) + per_page - 1) per_page
                  ltac:(lia)) as Hmod.
    assert (Hq : 0 <= (Z.of_nat (length items) + per_page - 1) / per_page)
      by (apply Z.div_pos; lia).
    nia.
Qed.

(** X22. [calculate_confidence_score] never returns a value below 0.0 or
    above 1.0, whatever the three scores are. *)
Theorem calculate_confidence_score_clamped faq_score rag_score llm_confidence :
  PrimFloat.ltb (calculate_confidence_score faq_score rag_score llm_confidence) 0%float
  = false
  /\ PrimFloat.ltb 1%float (calculate_confidence_score faq_score rag_score llm_confidence)
     = false.
Proof.
  unfold calculate_confidence_score. split; [| apply IntentProps.fmin_not_above].
  set (total_score := PrimFloat.add _ _).
  unfold fmin, fmax.
  destruct (PrimFloat.ltb total_score 0%float) eqn:Hlow.
  - destruct (PrimFloat.ltb 1%float 0%float) eqn:H10; reflexivity.
  - destruct (PrimFloat.ltb 1%float total_score); [reflexivity | exact Hlow].
Qed.

End HelpersProps.

(** ** The language mapping *)

Module TranslationProps.
Import Py Translation.

(** X23. When the default language and the six mapped codes are among the
    supported languages, as with the declared settings, [_map_language]
    always returns a supported language; a three-letter code of the table
    is mapped to its two-letter code and an unknown code to the default. *)
Theorem map_language_supported supported_languages default_language detected_lang :
  In default_language supported_languages ->
  (forall code, In code (map snd language_map) -> In code supported_languages) ->
  In (_map_language supported_languages default_language detected_lang)
     supported_languages
  /\ (forall mapped, In (detected_lang, mapped) language_map ->
        _map_language supported_languages default_language detected_lang = mapped)
  /\ (~ In detected_lang (map fst language_map) ->
      ~ In detected_lang supported_languages ->
      _map_language supported_languages default_language detected_lang
      = default_language).
Proof.
  intros Hdefault Hmapped. unfold _map_language. repeat split.
  - destruct (dict_find language_map detected_lang) as [mapped |] eqn:Hfind.
    + apply Hmapped. unfold language_map in *. cbn [dict_find] in Hfind.
      repeat match type of Hfind with
             | (if ?c then _ else _) = _ => destruct c
             end;
        try discriminate; injection Hfind as <-; cbn [map snd In]; tauto.
    + destruct (existsb (String.eqb detected_lang) supported_languages) eqn:Hex;
        [| exact Hdefault].
      apply existsb_exists in Hex as (l & Hin & Heq).
      apply String.eqb_eq in Heq. subst l. exact Hin.
  - intros mapped Hin. unfold language_map in *. cbn in Hin.
    repeat destruct Hin as [Hin | Hin]; try contradiction;
      injection Hin as <- <-; reflexivity.
  - intros Hunknown Hunsupported.
    assert (Hfind : dict_find language_map detected_lang = None).
    { unfold language_map in *. cbn [map fst In] in Hunknown. cbn [dict_find].
      repeat match goal with
             | |- (if String.eqb ?k ?d then _ else _) = _ =>
                 destruct (String.eqb_spec k d) as [<- | ?]; [exfalso; tauto |]
             end.
      reflexivity. }
    rewrite Hfind.
    destruct (existsb (String.eqb detected_lang) supported_languages) eqn:Hex;
      [| reflexivity].
    apply existsb_exists in Hex as (l & Hin & Heq).
    apply String.eqb_eq in Heq. subst l. contradiction.
Qed.

Lemma map_language_supported_witness :
  In (_map_language SUPPORTED_LANGUAGES DEFAULT_LANGUAGE "hin") SUPPORTED_LANGUAGES
  /\ (forall mapped, In ("hin", mapped) language_map ->
        _map_language SUPPORTED_LANGUAGES DEFAULT_LANGUAGE "hin" = mapped)
  /\ (~ In "hin" (map fst language_map) ->
      ~ In "hin" SUPPORTED_LANGUAGES ->
      _map_language SUPPORTED_LANGUAGES DEFAULT_LANGUAGE "hin" = DEFAULT_LANGUAGE).
Proof.
  apply (map_language_supported SUPPORTED_LANGUAGES DEFAULT_LANGUAGE "hin").
  - cbn. tauto.
  - cbn. intros code H. tauto.
Defined.

End TranslationProps.

(** ** The orchestrator *)

Module ChatbotProps.
Import Py Constants Context Store Chatbot.

Section Pipeline.

Context {W : Type}.
Variable svc : Services W.
Variable lower : string -> string.
Variable strip_punctuation : string -> string.
Variable split : string -> list string.
Variable capitalize : string -> string.
Variable extract_entities : string -> gmap string EntityValue.

Abbreviation pipeline :=
  (pipeline svc lower strip_punctuation split capitalize extract_entities).
Abbreviation record_turn := (record_turn svc lower extract_entities).
Abbreviation respond := (respond svc lower strip_punctuation split capitalize).
Abbreviation process_message :=
  (process_message svc lower strip_punctuation split capitalize extract_entities).

(** Steps 1 to 4, when they complete: the intent is the detected one and
    the conversation holds the entities, the intent and the user message. *)
Lemma record_turn_ok request sid st detected_lang english_message intent_name s5 :
  record_turn request sid st = (Ok (detected_lang, english_message, intent_name), s5) ->
  intent_name = Intent.intent (Intent.detect_intent lower english_message)
  /\ exists t_entities t_stamp t_update,
       conversation s5 =
         add_user_message
           (add_intent
              (update_entities (conversation st) (extract_entities english_message)
                               t_entities)
              intent_name)
           (req_message request) (Some detected_lang) t_stamp t_update.
Proof.
  intros H. split; [| exact (ChatbotFacts.record_turn_effect _ _ _ _ _ _ _ _ _ _ H)].
  unfold Chatbot.record_turn in H.
  apply ChatbotFacts.bind_inv in H.
  destruct H as [(detection & s1 & _ & H) | (e & _ & [=])].
  apply ChatbotFacts.bind_inv in H.
  destruct H as [([em sl] & s2 & _ & H) | (e & _ & [=])].
  apply ChatbotFacts.bind_inv in H. destruct H as [(t0 & s3 & _ & H) | (e & _ & [=])].
  apply ChatbotFacts.bind_inv in H. destruct H as [([] & s4 & _ & H) | (e & _ & [=])].
  apply ChatbotFacts.bind_inv in H. destruct H as [([] & s6 & _ & H) | (e & _ & [=])].
  apply ChatbotFacts.bind_inv in H. destruct H as [(t1 & s7 & _ & H) | (e & _ & [=])].
  apply ChatbotFacts.bind_inv in H. destruct H as [(t2 & s8 & _ & H) | (e & _ & [=])].
  apply ChatbotFacts.bind_inv in H. destruct H as [([] & s9 & _ & H) | (e & _ & [=])].
  injection H as _ Hem Hin _. subst. reflexivity.
Qed.

(** Steps 5 to 12, when they complete: the response passed the validation
    of its model and its text, sources and confidence are those of the
    assistant message appended to the conversation. *)
Lemma respond_ok request sid detected_lang english_message intent_name st resp st' :
  respond request sid (detected_lang, english_message, intent_name) st = (Ok resp, st') ->
  (exists t_stamp t_update,
     conversation st' =
       add_assistant_message (conversation st) (response resp) (Some detected_lang)
         (sources resp) (Some (confidence_score resp)) t_stamp t_update)
  /\ resp_session_id resp = sid
  /\ resp_intent resp = Some intent_name
  /\ language_of_value detected_lang = Some (resp_language resp)
  /\ PrimFloat.leb 0%float (confidence_score resp) = true
  /\ PrimFloat.leb (confidence_score resp) 1%float = true
  /\ fallback_required resp
     = Intent.needs_human_fallback lower (req_message request) (confidence_score resp).
Proof.
  unfold Chatbot.respond. intros H.
  apply ChatbotFacts.bind_inv in H.
  destruct H as [([[text conf] srcs] & s1 & H1 & H) | (e & _ & [=])].
  apply ChatbotFacts.preserves_answer in H1. destruct H1 as [Hc1 _].
  apply ChatbotFacts.bind_inv in H.
  destruct H as [(text' & s2 & H2 & H) | (e & _ & [=])].
  assert (Hc2 : conversation s2 = conversation s1).
  { destruct (_ && _)%bool;
      [apply ChatbotFacts.preserves_translate_from_english in H2
      | apply ChatbotFacts.preserves_ret in H2];
      apply H2. }
  apply ChatbotFacts.bind_inv in H.
  destruct H as [(suggested & s3 & H3 & H) | (e & _ & [=])].
  assert (Hc3 : conversation s3 = conversation s2).
  { destruct (Intent.get_suggested_questions intent_name);
      [apply ChatbotFacts.preserves_ret in H3; apply H3 |].
    destruct (negb _);
      [apply ChatbotFacts.preserves_translate_all in H3
      | apply ChatbotFacts.preserves_ret in H3]; apply H3. }
  apply ChatbotFacts.bind_inv in H. destruct H as [(t1 & s4 & H4 & H) | (e & _ & [=])].
  apply ChatbotFacts.preserves_call_total in H4. destruct H4 as [Hc4 _].
  apply ChatbotFacts.bind_inv in H. destruct H as [(t2 & s5 & H5 & H) | (e & _ & [=])].
  apply ChatbotFacts.preserves_call_total in H5. destruct H5 as [Hc5 _].
  apply ChatbotFacts.bind_inv in H. destruct H as [([] & s6 & H6 & H) | (e & _ & [=])].
  apply ChatbotFacts.mutate_inv in H6. destruct H6 as (_ & Hc6 & _).
  apply ChatbotFacts.bind_inv in H. destruct H as [(t3 & s7 & H7 & H) | (e & _ & [=])].
  apply ChatbotFacts.preserves_call_total in H7. destruct H7 as [Hc7 _].
  unfold make_response in H.
  destruct (language_of_value detected_lang) as [lang |] eqn:Hlang;
    [| cbv [raise] in H; discriminate H].
  destruct (PrimFloat.leb 0%float conf && PrimFloat.leb conf 1%float)%bool eqn:Hvalid;
    [| cbv [raise] in H; discriminate H].
  apply andb_true_iff in Hvalid as [Hlow Hhigh].
  cbv [ret] in H. injection H as <- <-.
  cbn [response sources confidence_score resp_session_id resp_intent resp_language
         fallback_required].
  repeat split; try assumption.
  exists t1, t2. rewrite Hc7, Hc6. congruence.
Qed.

(** The state reached by a [try] block that completes. *)
Lemma pipeline_ok request sid st resp st' :
  pipeline request sid st = (Ok resp, st') ->
  exists detected_lang english_message t_entities t1 t2 t3 t4,
    language_of_value detected_lang = Some (resp_language resp)
    /\ resp_intent resp
       = Some (Intent.intent (Intent.detect_intent lower english_message))
    /\ resp_session_id resp = sid
    /\ conversation st'
       = add_assistant_message
           (add_user_message
              (add_intent
                 (update_entities (conversation st) (extract_entities english_message)
                                  t_entities)
                 (Intent.intent (Intent.detect_intent lower english_message)))
              (req_message request) (Some detected_lang) t1 t2)
           (response resp) (Some detected_lang) (sources resp)
           (Some (confidence_score resp)) t3 t4.
Proof.
  unfold Chatbot.pipeline. intros H.
  apply ChatbotFacts.bind_inv in H.
  destruct H as [([[detected_lang english_message] intent_name] & s5 & Hturn & H)
                | (e & _ & [=])].
  apply record_turn_ok in Hturn as (Hintent & t_entities & t1 & t2 & Hconv).
  apply respond_ok in H as ((t3 & t4 & Hconv') & Hsid & Hri & Hlang & _).
  exists detected_lang, english_message, t_entities, t1, t2, t3, t4.
  rewrite Hconv', Hconv, Hri, Hintent. repeat split; assumption.
Qed.

(** X24. When the [try] block of [process_message] completes, the
    conversation has gained, in this order, the extracted entities, the
    detected intent, the user's original message and an assistant message
    whose text, sources and confidence are those of the response returned;
    the response names the detected intent and the session. *)
Theorem pipeline_success_recorded request sid st resp st' :
  pipeline request sid st = (Ok resp, st') ->
  exists detected_lang english_message t_entities t1 t2 t3 t4,
    language_of_value detected_lang = Some (resp_language resp)
    /\ resp_intent resp
       = Some (Intent.intent (Intent.detect_intent lower english_message))
    /\ resp_session_id resp = sid
    /\ conversation st'
       = add_assistant_message
           (add_user_message
              (add_intent
                 (update_entities (conversation st) (extract_entities english_message)
                                  t_entities)
                 (Intent.intent (Intent.detect_intent lower english_message)))
              (req_message request) (Some detected_lang) t1 t2)
           (response resp) (Some detected_lang) (sources resp)
           (Some (confidence_score resp)) t3 t4.
Proof. exact (pipeline_ok request sid st resp st'). Qed.

(** Two messages appended in a row to a context that keeps at least two
    are its last two messages. *)
Lemma two_messages_last ctx r1 c1 l1 md1 r2 c2 l2 md2 (a1 b1 a2 b2 : time) :
  2 <= max_messages ctx ->
  exists earlier m1 m2,
    messages (add_message (add_message ctx r1 c1 l1 md1 a1 b1) r2 c2 l2 md2 a2 b2)
    = (earlier ++ [m1; m2])%list
    /\ role m1 = r1 /\ content m1 = c1 /\ role m2 = r2 /\ content m2 = c2.
Proof.
  intros Hmax.
  assert (Hfirst : exists kept m1,
            messages (add_message ctx r1 c1 l1 md1 a1 b1) = (kept ++ [m1])%list
            /\ role m1 = r1 /\ content m1 = c1).
  { unfold add_message. cbn [messages].
    match goal with
    | |- context [(messages ctx ++ [?msg])%list] =>
        destruct (ContextProps.append_and_trim (max_messages ctx) (messages ctx) msg
                    ltac:(lia)) as (dropped & kept & _ & Hnew & _);
        exists kept, msg
    end.
    rewrite Hnew. repeat split. }
  destruct Hfirst as (kept & m1 & Hmsgs & Hr1 & Hc1).
  set (ctx1 := add_message ctx r1 c1 l1 md1 a1 b1) in *.
  assert (Hmax1 : max_messages ctx1 = max_messages ctx) by reflexivity.
  unfold add_message at 1. cbn [messages]. rewrite Hmax1.
  match goal with
  | |- context [(messages ctx1 ++ [?msg])%list] =>
      destruct (ContextProps.append_and_trim (max_messages ctx) (messages ctx1) msg
                  ltac:(lia)) as (dropped' & kept' & Hold & Hnew & Hlen);
      set (m2 := msg) in *
  end.
  rewrite Hnew.
  destruct (exists_last (l := kept')) as (earlier & z & Hkept).
  { intros ->. rewrite Hmsgs in Hlen. rewrite !length_app in Hlen.
    cbn [length app] in Hlen. lia. }
  rewrite Hkept in Hold. rewrite Hmsgs, app_assoc in Hold.
  apply app_inj_tail in Hold as [_ Hz]. subst z.
  exists earlier, m1, m2. rewrite Hkept, <- app_assoc. cbn [app].
  repeat split; assumption.
Qed.

(** X25. After a turn that completes, the session the store holds under
    the id ends with the user's original message followed by the
    assistant's answer as returned, provided the context keeps at least two
    messages. *)
Theorem successful_turn_in_history request sid st resp st' :
  synced sid st ->
  pipeline request sid st = (Ok resp, st') ->
  2 <= max_messages (conversation st) ->
  forall c, get_session (store st') sid = Some c ->
    exists earlier user_message assistant_message,
      messages c = (earlier ++ [user_message; assistant_message])%list
      /\ role user_message = "user"
      /\ content user_message = req_message request
      /\ role assistant_message = "assistant"
      /\ content assistant_message = response resp.
Proof.
  intros Hsync Hp Hmax c Hc.
  rewrite (ChatbotFacts.pipeline_keeps_sync svc lower strip_punctuation split capitalize
             extract_entities request sid st (Ok resp) st' Hsync Hp c Hc).
  destruct (pipeline_ok request sid st resp st' Hp)
    as (detected_lang & english_message & t_entities & t1 & t2 & t3 & t4
        & _ & _ & _ & Hconv).
  rewrite Hconv. unfold add_assistant_message, add_user_message.
  apply two_messages_last. exact Hmax.
Qed.

(** X26. Once the session is resolved [process_message] always returns a
    response; it carries the resolved session id and a confidence between
    0.0 and 1.0, because a response that fails the validation of its model
    is replaced by the error response. *)
Theorem process_message_response_valid request w mgr sid context w1 mgr1 :
  resolve_session svc request w mgr = (sid, Ok context, w1, mgr1) ->
  exists resp,
    fst (fst (process_message request w mgr)) = Ok resp
    /\ resp_session_id resp = sid
    /\ PrimFloat.leb 0%float (confidence_score resp) = true
    /\ PrimFloat.leb (confidence_score resp) 1%float = true.
Proof.
  intros Hres. unfold Chatbot.process_message. rewrite Hres.
  destruct (pipeline request sid {| world := w1; store := mgr1; conversation := context |})
    as [outcome st1] eqn:Hp.
  destruct outcome as [resp | e].
  - exists resp. split; [reflexivity |].
    unfold Chatbot.pipeline in Hp. apply ChatbotFacts.bind_inv in Hp.
    destruct Hp as [([[detected_lang english_message] intent_name] & s5 & _ & H)
                   | (e & _ & [=])].
    apply respond_ok in H as (_ & Hsid & _ & _ & Hlow & Hhigh & _).
    repeat split; assumption.
  - exists (error_response request sid). split; [reflexivity |].
    cbn [error_response resp_session_id confidence_score].
    repeat split; reflexivity.
Qed.

End Pipeline.

Lemma pipeline_success_recorded_witness :
  exists detected_lang english_message t_entities t1 t2 t3 t4,
    language_of_value detected_lang = Some (resp_language Greeting.greeting_response)
    /\ resp_intent Greeting.greeting_response
       = Some (Intent.intent (Intent.detect_intent ascii_lower english_message))
    /\ resp_session_id Greeting.greeting_response = "s1"
    /\ conversation (snd Greeting.greeting_outcome)
       = add_assistant_message
           (add_user_message
              (add_intent
                 (update_entities (conversation sample_state) ∅ t_entities)
                 (Intent.intent (Intent.detect_intent ascii_lower english_message)))
              (req_message Greeting.greeting_request) (Some detected_lang) t1 t2)
           (response Greeting.greeting_response) (Some detected_lang)
           (sources Greeting.greeting_response)
           (Some (confidence_score Greeting.greeting_response)) t3 t4.
Proof.
  apply (pipeline_success_recorded sample_services ascii_lower ascii_strip_punctuation
           ascii_split ascii_capitalize (fun _ => ∅)
           Greeting.greeting_request "s1" sample_state
           Greeting.greeting_response (snd Greeting.greeting_outcome)).
  vm_compute. reflexivity.
Defined.

Lemma successful_turn_in_history_witness :
  exists earlier user_message assistant_message,
    messages (conversation (snd Greeting.greeting_outcome))
    = (earlier ++ [user_message; assistant_message])%list
    /\ role user_message = "user"
    /\ content user_message = req_message Greeting.greeting_request
    /\ role assistant_message = "assistant"
    /\ content assistant_message = response Greeting.greeting_response.
Proof.
  apply (successful_turn_in_history sample_services ascii_lower ascii_strip_punctuation
           ascii_split ascii_capitalize (fun _ => ∅)
           Greeting.greeting_request "s1" sample_state
           Greeting.greeting_response (snd Greeting.greeting_outcome)).
  - intros c Hc. vm_compute in Hc. injection Hc as <-. vm_compute. reflexivity.
  - vm_compute. reflexivity.
  - vm_compute. discriminate.
  - vm_compute. reflexivity.
Defined.

Lemma process_message_response_valid_witness :
  exists resp,
    fst (fst sample_process) = Ok resp
    /\ resp_session_id resp = "s1"
    /\ PrimFloat.leb 0%float (confidence_score resp) = true
    /\ PrimFloat.leb (confidence_score resp) 1%float = true.
Proof.
  apply (process_message_response_valid sample_services ascii_lower
           ascii_strip_punctuation ascii_split ascii_capitalize (fun _ => ∅)
           sample_request 0%nat context_manager "s1" sample_context 4%nat
           (store sample_state)).
  vm_compute. reflexivity.
Defined.

End ChatbotProps.

(** ** The language check *)

Module ValidatorsProps.
Import Py Constants Validators.

(** X27. [validate_language] accepts exactly the six codes of
    [LanguageEnum], which are the supported languages of the settings; an
    accepted code comes with no error message and a refused one with
    one. *)
Theorem validate_language_accepts language :
  (fst (validate_language language) = true
   <-> Context.language_of_value language <> None)
  /\ (fst (validate_language language) = true
      <-> In language Translation.SUPPORTED_LANGUAGES)
  /\ (fst (validate_language language) = true
      <-> snd (validate_language language) = None).
Proof.
  unfold validate_language, Context.language_of_value, Translation.SUPPORTED_LANGUAGES.
  change (map fst LANGUAGES) with ["en"; "hi"; "ta"; "te"; "bn"; "mr"].
  cbn [existsb In].
  destruct (String.eqb_spec language EmptyString) as [-> | Hne].
  { cbn. repeat split; intros H; try discriminate; try contradiction.
    intuition discriminate. }
  destruct (String.eqb_spec language "en") as [-> | H1].
  { cbn. repeat split; intros; try discriminate; try reflexivity; tauto. }
  destruct (String.eqb_spec language "hi") as [-> | H2].
  { cbn. repeat split; intros; try discriminate; try reflexivity; tauto. }
  destruct (String.eqb_spec language "ta") as [-> | H3].
  { cbn. repeat split; intros; try discriminate; try reflexivity; tauto. }
  destruct (String.eqb_spec language "te") as [-> | H4].
  { cbn. repeat split; intros; try discriminate; try reflexivity; tauto. }
  destruct (String.eqb_spec language "bn") as [-> | H5].
  { cbn. repeat split; intros; try discriminate; try reflexivity; tauto. }
  destruct (String.eqb_spec language "mr") as [-> | H6].
  { cbn. repeat split; intros; try discriminate; try reflexivity; tauto. }
  cbn [orb negb fst snd].
  repeat split; intros H; try discriminate; try contradiction.
  intuition congruence.
Qed.

End ValidatorsProps.
